(** * Turf booking: the service functions of [turf_chatot.py]

    A shallow embedding of the persistence layer (three SQLite tables
    behind one SQLAlchemy session) and of the service functions that
    read and write it, followed by the properties of the booking and
    slot life cycle.

    Tables are lists of rows in insertion (rowid) order; a query
    [filter(...).first()] is [find], [filter(...).all()] is [filter].
    Every service function commits before it returns, so a function of
    the source becomes a function from the database before the call to
    the database after it, paired with what the call returns. *)

From Stdlib Require Import ZArith List String Ascii Bool Lia Sorted.
Import ListNotations.
Open Scope Z_scope.

(** ** Dates and times ([datetime.date], [datetime.time]) *)

Module datetime.

Record date := mkdate { year : Z; month : Z; day : Z }.

(** [time(hour, minute)]; seconds are never set by the program. *)
Record time := mktime { hour : Z; minute : Z }.

Definition date_eqb (a b : date) : bool :=
  (year a =? year b) && (month a =? month b) && (day a =? day b).

Definition time_eqb (a b : time) : bool :=
  (hour a =? hour b) && (minute a =? minute b).

End datetime.

Import datetime.

(** ** The three models *)

Module User.
Record t := mk
  { user_id : Z;
    name : string;
    email : string;
    phone : string;
    password : string;
    role : string }.
End User.

Module Slot.
Record t := mk
  { slot_id : Z;
    start_time : time;
    end_time : time;
    date : datetime.date;
    availability : bool }.

(** [slot.availability = v] on a loaded row. *)
Definition with_availability (v : bool) (s : t) : t :=
  mk (slot_id s) (start_time s) (end_time s) (date s) v.
End Slot.

Module Booking.
Record t := mk
  { booking_id : Z;
    user_id : Z;
    slot_id : Z;
    confirmation_status : bool }.
End Booking.

(** The database the global [session] is bound to. *)
Record Database := mkDatabase
  { users : list User.t;
    slots : list Slot.t;
    bookings : list Booking.t }.

(** [Base.metadata.create_all(engine)] on a new file. *)
Definition empty_db : Database := mkDatabase [] [] [].

(** ** Exceptions and results *)

Inductive exn := AttributeError | ValueError.

Inductive result (A : Type) :=
| Return (a : A)
| Raise (e : exn).
Arguments Return {A} a.
Arguments Raise {A} e.

(** ** Primary keys

    The columns are [Integer, primary_key=True]; SQLite gives a new row
    the rowid one above the largest in the table (1 in an empty one). *)

Definition max_id (ids : list Z) : Z := fold_right Z.max 0 ids.

Definition next_rowid (ids : list Z) : Z := 1 + max_id ids.

Definition slot_ids (db : Database) : list Z := map Slot.slot_id (slots db).
Definition booking_ids (db : Database) : list Z := map Booking.booking_id (bookings db).
Definition user_ids (db : Database) : list Z := map User.user_id (users db).

(** ** Queries *)

(** [session.query(User).filter_by(email=email).first()] *)
Definition user_by_email (db : Database) (email : string) : option User.t :=
  find (fun u => String.eqb (User.email u) email) (users db).

(** [session.query(User).filter(User.user_id == user_id).first()] *)
Definition user_by_id (db : Database) (user_id : Z) : option User.t :=
  find (fun u => User.user_id u =? user_id) (users db).

(** [session.query(Slot).filter(Slot.date == selected_date)] *)
Definition slots_on (db : Database) (selected_date : date) : list Slot.t :=
  filter (fun s => date_eqb (Slot.date s) selected_date) (slots db).

(** [session.query(Slot).filter(Slot.slot_id == slot_id,
    Slot.availability == True).first()] *)
Definition available_slot (db : Database) (slot_id : Z) : option Slot.t :=
  find (fun s => (Slot.slot_id s =? slot_id) && Bool.eqb (Slot.availability s) true)
       (slots db).

(** The slot a booking's [slot] relationship loads. *)
Definition slot_by_id (db : Database) (slot_id : Z) : option Slot.t :=
  find (fun s => Slot.slot_id s =? slot_id) (slots db).

(** [session.query(Booking).filter_by(booking_id=booking_id).first()] *)
Definition booking_by_id (db : Database) (booking_id : Z) : option Booking.t :=
  find (fun b => Booking.booking_id b =? booking_id) (bookings db).

(** ** Writes *)

(** [UPDATE slots SET availability = v WHERE slot_id = id], what the
    session flushes for an assignment to [slot.availability]. *)
Definition update_availability (db : Database) (id : Z) (v : bool) : Database :=
  mkDatabase (users db)
    (map (fun s => if Slot.slot_id s =? id then Slot.with_availability v s else s)
         (slots db))
    (bookings db).

(** [session.add(Slot(start_time=.., end_time=.., date=..))]; the column
    default makes the new slot available. *)
Definition add_slot (db : Database) (start_time end_time : time) (d : date)
  : Database :=
  mkDatabase (users db)
    (slots db ++ [Slot.mk (next_rowid (slot_ids db)) start_time end_time d true])
    (bookings db).

(** [session.add(Booking(user_id=.., slot_id=..))]; the column default
    confirms it. *)
Definition add_booking (db : Database) (user_id slot_id : Z) : Database :=
  mkDatabase (users db) (slots db)
    (bookings db ++ [Booking.mk (next_rowid (booking_ids db)) user_id slot_id true]).

(** [session.delete(booking)]: [DELETE FROM bookings WHERE booking_id = id]. *)
Definition delete_booking (db : Database) (id : Z) : Database :=
  mkDatabase (users db) (slots db)
    (filter (fun b => negb (Booking.booking_id b =? id)) (bookings db)).

(** ** Credential service *)

(** The two [bcrypt] calls the program makes, on a password that bcrypt
    accepts.  [gensalt()] is random, so the salt is an argument. *)
Class Bcrypt := {
  hashpw : string -> string -> string;
  checkpw : string -> string -> bool
}.

(** [bcrypt] works on the UTF-8 bytes of a password, which a [string]
    holds here, and refuses more than 72 of them with [ValueError],
    in [hashpw] and in [checkpw] alike. *)
Definition too_long (password : string) : bool :=
  (72 <? String.length password)%nat.

Section Services.

Context {bcrypt : Bcrypt}.

Definition hash_password (password salt : string) : result string :=
  if too_long password then Raise ValueError else Return (hashpw password salt).

Definition check_password (password hashed : string) : result bool :=
  if too_long password then Raise ValueError else Return (checkpw password hashed).

(** The password is hashed before anything is added to the session, and
    a [ValueError] of bcrypt is not caught.  The INSERT fails with
    [IntegrityError] when the email is taken (the only constraint a row
    built from five strings can break); the handler rolls back and
    answers [False]. *)
Definition register_user (db : Database) (salt : string)
    (name email phone password role : string) : Database * result bool :=
  match hash_password password salt with
  | Raise e => (db, Raise e)
  | Return hashed_pw =>
      match user_by_email db email with
      | Some _ => (db, Return false)
      | None =>
          (mkDatabase
             (users db
                ++ [User.mk (next_rowid (user_ids db)) name email phone hashed_pw role])
             (slots db) (bookings db),
           Return true)
      end
  end.

(** [user and check_password(...)]: the password is checked only when a
    user has the email. *)
Definition authenticate_user (db : Database) (email password : string)
  : result (option User.t) :=
  match user_by_email db email with
  | Some user =>
      match check_password password (User.password user) with
      | Return true => Return (Some user)
      | Return false => Return None
      | Raise e => Raise e
      end
  | None => Return None
  end.

(** ** Slot allocator *)

(** [range(24)] *)
Definition range (n : nat) : list Z := map Z.of_nat (seq 0 n).

Definition generate_slots_for_date (db : Database) (selected_date : date)
  : Database :=
  match slots_on db selected_date with
  | _ :: _ => db
  | [] =>
      fold_left
        (fun db hour =>
           add_slot db (mktime hour 0) (mktime ((hour + 1) mod 24) 0) selected_date)
        (range 24) db
  end.

Definition get_available_slots (db : Database) (selected_date : date)
  : Database * list Slot.t :=
  let db := generate_slots_for_date db selected_date in
  (db, slots_on db selected_date).

(** The row the loop inserts for an hour, when the first row of the
    batch gets the id [first_id]. *)
Definition hourly_slot (first_id : Z) (d : date) (hour : Z) : Slot.t :=
  Slot.mk (first_id + hour) (mktime hour 0) (mktime ((hour + 1) mod 24) 0) d true.

(** ** Notification stub *)

(** What the two f-strings interpolate. *)
Inductive message :=
| user_message (name : string) (d : date) (start_time end_time : time)
| owner_message (name : string) (d : date) (start_time end_time : time)
                (email phone : string).

(** One [st.write("Email sent to <recipient>: <message>")]. *)
Record email_sent := mkEmail { recipient : string; body : message }.

Definition send_notification (user : User.t) (slot : Slot.t) : list email_sent :=
  [ mkEmail (User.email user)
      (user_message (User.name user) (Slot.date slot)
         (Slot.start_time slot) (Slot.end_time slot));
    mkEmail "owner@example.com"
      (owner_message (User.name user) (Slot.date slot)
         (Slot.start_time slot) (Slot.end_time slot)
         (User.email user) (User.phone user)) ].

(** ** Booking service *)

(** One turn of the first loop of [book_slot].  The session flushes the
    pending flip and the pending booking before the next query, so the
    next turn reads the database this turn leaves. *)
Definition book_one (user_id : Z) (st : Database * list Slot.t) (slot_id : Z)
  : Database * list Slot.t :=
  let (db, successful_bookings) := st in
  match available_slot db slot_id with
  | Some slot =>
      (add_booking (update_availability db (Slot.slot_id slot) false) user_id slot_id,
       successful_bookings ++ [Slot.with_availability false slot])
  | None => st
  end.

Definition book_loop (db : Database) (user_id : Z) (slot_ids : list Z)
  : Database * list Slot.t :=
  fold_left (book_one user_id) slot_ids (db, []).

(** The second loop: the user is looked up again for every booked slot,
    and [send_notification] on [None] raises at [user.name]. *)
Fixpoint notify_all (db : Database) (user_id : Z) (successful_bookings : list Slot.t)
  : list email_sent * result unit :=
  match successful_bookings with
  | [] => ([], Return tt)
  | slot :: rest =>
      match user_by_id db user_id with
      | None => ([], Raise AttributeError)
      | Some user =>
          let (sent, r) := notify_all db user_id rest in
          (send_notification user slot ++ sent, r)
      end
  end.

(** [book_slot]: the database after the call, the emails written, and
    the list returned or the exception raised.  The commit comes before
    the notifications, so the bookings stay when they raise. *)
Definition book_slot (db : Database) (user_id : Z) (slot_ids : list Z)
  : Database * list email_sent * result (list Slot.t) :=
  let (db', successful_bookings) := book_loop db user_id slot_ids in
  let (sent, r) := notify_all db' user_id successful_bookings in
  (db', sent,
   match r with
   | Return _ => Return successful_bookings
   | Raise e => Raise e
   end).

(** [cancel_booking]; [booking.slot] is [None] when no slot has the
    booking's slot id, and assigning to its attribute raises. *)
Definition cancel_booking (db : Database) (booking_id : Z)
  : Database * result bool :=
  match booking_by_id db booking_id with
  | Some booking =>
      match slot_by_id db (Booking.slot_id booking) with
      | Some slot =>
          (delete_booking (update_availability db (Slot.slot_id slot) true) booking_id,
           Return true)
      | None => (db, Raise AttributeError)
      end
  | None => (db, Return false)
  end.

(** ** Owner actions (the two button handlers of the owner dashboard) *)

(** "Create Slot": [time(start_hour, 0)] raises [ValueError] outside
    0..23 (the number input only offers 0..23). *)
Definition create_slot (db : Database) (selected_date : date) (start_hour : Z)
  : Database * result bool :=
  if (0 <=? start_hour) && (start_hour <=? 23) then
    let end_hour := (start_hour + 1) mod 24 in
    match
      find (fun s => date_eqb (Slot.date s) selected_date
                     && time_eqb (Slot.start_time s) (mktime start_hour 0))
           (slots db)
    with
    | None => (add_slot db (mktime start_hour 0) (mktime end_hour 0) selected_date,
               Return true)
    | Some _ => (db, Return false)
    end
  else (db, Raise ValueError).

(** "Block Slot": the slot chosen in the select box, by its index in the
    slots of the date; the box only offers indices of that list, an
    index outside it selects nothing. *)
Definition block_slot (db : Database) (selected_date : date)
    (selected_slot_index : nat) : Database :=
  match nth_error (slots_on db selected_date) selected_slot_index with
  | Some selected_slot => update_availability db (Slot.slot_id selected_slot) false
  | None => db
  end.

(** ** The program as a transition system

    What a user or an owner can make the program do to the database.
    Logging in and listing bookings only read it. *)

Inductive action :=
| Register (salt name email phone password role : string)
| GetSlots (selected_date : date)
| Book (user_id : Z) (slot_ids : list Z)
| Cancel (booking_id : Z)
| CreateSlot (selected_date : date) (start_hour : Z)
| BlockSlot (selected_date : date) (selected_slot_index : nat).

Definition step (db : Database) (a : action) : Database :=
  match a with
  | Register salt name email phone password role =>
      fst (register_user db salt name email phone password role)
  | GetSlots d => fst (get_available_slots db d)
  | Book user_id slot_ids => fst (fst (book_slot db user_id slot_ids))
  | Cancel booking_id => fst (cancel_booking db booking_id)
  | CreateSlot d start_hour => fst (create_slot db d start_hour)
  | BlockSlot d i => block_slot db d i
  end.

Definition run (db : Database) (actions : list action) : Database :=
  fold_left step actions db.

Inductive reachable : Database -> Prop :=
| reachable_empty : reachable empty_db
| reachable_step db a : reachable db -> reachable (step db a).

(** ** Bookkeeping of slots and bookings *)

(** The number of booking rows that reference a slot id. *)
Definition references (db : Database) (slot_id : Z) : nat :=
  List.length (filter (fun b => Booking.slot_id b =? slot_id) (bookings db)).

(** The number of slots with a given id in a list of slots. *)
Definition occurrences (slot_id : Z) (l : list Slot.t) : nat :=
  List.length (filter (fun s => Slot.slot_id s =? slot_id) l).

Inductive slot_state := Available | Booked | Blocked.

(** Whether some booking row refers to a slot id. *)
Definition referenced (db : Database) (slot_id : Z) : bool :=
  existsb (fun b => Booking.slot_id b =? slot_id) (bookings db).

Definition state_of (db : Database) (s : Slot.t) : slot_state :=
  if Slot.availability s then Available
  else if referenced db (Slot.slot_id s) then Booked else Blocked.

(** The state of the slot with an id, as the queries of the program
    find it. *)
Definition status (db : Database) (slot_id : Z) : slot_state :=
  match available_slot db slot_id with
  | Some _ => Available
  | None => if referenced db slot_id then Booked else Blocked
  end.

(** The changes of state a slot can go through in one action. *)
Inductive transition (db : Database) (slot_id : Z)
  : action -> slot_state -> slot_state -> Prop :=
| stays a st : transition db slot_id a st st
| gets_booked user_id slot_ids :
    In slot_id slot_ids ->
    transition db slot_id (Book user_id slot_ids) Available Booked
| gets_cancelled booking_id b :
    booking_by_id db booking_id = Some b -> Booking.slot_id b = slot_id ->
    transition db slot_id (Cancel booking_id) Booked Available
| gets_blocked d i :
    transition db slot_id (BlockSlot d i) Available Blocked.

(** What the constraints of the schema and the code together keep true
    of the tables. *)
Record consistent (db : Database) : Prop := {
  slot_ids_unique : NoDup (slot_ids db);
  booking_ids_unique : NoDup (booking_ids db);
  emails_unique : NoDup (map User.email (users db));
  booked_once : NoDup (map Booking.slot_id (bookings db));
  booked_exists :
    forall b, In b (bookings db) -> In (Booking.slot_id b) (slot_ids db);
  booked_unavailable :
    forall b s, In b (bookings db) -> In s (slots db) ->
                Slot.slot_id s = Booking.slot_id b -> Slot.availability s = false
}.

End Services.

(** ** Queries of the dashboards *)

(** [session.query(Booking).filter_by(user_id=user.user_id).all()] *)
Definition bookings_of_user (db : Database) (user_id : Z) : list Booking.t :=
  filter (fun b => Booking.user_id b =? user_id) (bookings db).

(** [session.query(Booking).join(Slot).filter(Slot.date == selected_date).all()]:
    the bookings whose slot, joined on the foreign key, has the date. *)
Definition bookings_on (db : Database) (selected_date : date) : list Booking.t :=
  filter
    (fun b =>
       existsb (fun s => (Slot.slot_id s =? Booking.slot_id b)
                         && date_eqb (Slot.date s) selected_date)
               (slots db))
    (bookings db).

(** ** Pages of bookings ([render_bookings_as_cards]) *)

(** A bound of a slice, as Python clamps it for a list of [len] items. *)
Definition slice_bound (len i : Z) : Z :=
  if i <? 0 then Z.max (i + len) 0 else Z.min i len.

(** [l[start:stop]] *)
Definition slice {A : Type} (l : list A) (start stop : Z) : list A :=
  let len := Z.of_nat (List.length l) in
  let lo := slice_bound len start in
  let hi := slice_bound len stop in
  firstn (Z.to_nat (hi - lo)) (skipn (Z.to_nat lo) l).

(** [(len(bookings) - 1) // items_per_page + 1]; [items_per_page] is 3
    on both pages that compute it. *)
Definition total_pages (bookings : list Booking.t) (items_per_page : Z) : Z :=
  (Z.of_nat (List.length bookings) - 1) / items_per_page + 1.

(** What the markup of a card interpolates. *)
Record card := mkCard
  { card_booking_id : Z;
    card_date : date;
    card_start_time : time;
    card_end_time : time;
    card_user : string }.

(** The f-string of a card reads [booking.slot] and then [booking.user];
    a relationship whose row is missing loads as [None]. *)
Definition booking_card (db : Database) (booking : Booking.t) : result card :=
  match slot_by_id db (Booking.slot_id booking) with
  | None => Raise AttributeError
  | Some slot =>
      match user_by_id db (Booking.user_id booking) with
      | None => Raise AttributeError
      | Some user =>
          Return (mkCard (Booking.booking_id booking) (Slot.date slot)
                    (Slot.start_time slot) (Slot.end_time slot) (User.name user))
      end
  end.

(** The loop over [enumerate(bookings_on_page)] from index [i] on: the
    cards written, each with the column [i % 3] it is written to. *)
Fixpoint render_cards (db : Database) (i : nat) (bookings_on_page : list Booking.t)
  : list (nat * card) * result unit :=
  match bookings_on_page with
  | [] => ([], Return tt)
  | booking :: rest =>
      match booking_card db booking with
      | Raise e => ([], Raise e)
      | Return c =>
          let (written, r) := render_cards db (S i) rest in
          ((i mod 3, c)%nat :: written, r)
      end
  end.

Definition render_bookings_as_cards (db : Database) (bookings : list Booking.t)
    (page items_per_page : Z) : list (nat * card) * result unit :=
  let start := page * items_per_page in
  let end_ := start + items_per_page in
  let bookings_on_page := slice bookings start end_ in
  render_cards db 0 bookings_on_page.

(** ** The pages of the user dashboard *)

(** What a page answers with. *)
Inductive notice :=
| booking_confirmed (n : nat)
| already_booked
| no_available_slots
| booking_cancelled
| cancel_failed
| no_bookings_to_cancel
| other_dashboard.

(** An exception that leaves a page: one of a service function, the
    [IndexError] of a subscript, or the [DetachedInstanceError] of
    reading an expired object whose session is gone. *)
Inductive page_exn := Uncaught (e : exn) | IndexError | DetachedInstanceError.

(** The [User] object that a login leaves in [st.session_state], as a
    later run finds it.  Every run makes a new session, so the object
    is detached; its attributes are those loaded at the login, unless a
    commit later in the login run (the first listing of the day's
    slots) expired them, and then they cannot be read any more. *)
Inductive session_user := Readable (user : User.t) | Expired.

Inductive page_result (A : Type) :=
| Shown (a : A)
| Crashed (e : page_exn).
Arguments Shown {A} a.
Arguments Crashed {A} e.

(** [n] in two decimal digits, as [%H] and [%M] print it. *)
Definition two_digits (n : Z) : string :=
  String (Ascii.ascii_of_N (48 + Z.to_N (n / 10)))
    (String (Ascii.ascii_of_N (48 + Z.to_N (n mod 10))) EmptyString).

(** [t.strftime('%H:%M')] *)
Definition strftime (t : time) : string :=
  String.append (two_digits (hour t)) (String.append ":" (two_digits (minute t))).

(** The label of a slot in the multiselect. *)
Definition slot_option (s : Slot.t) : string :=
  String.append (strftime (Slot.start_time s))
    (String.append " to " (strftime (Slot.end_time s))).

(** [l.index(x)]; [None] is the [ValueError] of an absent [x]. *)
Fixpoint index (x : string) (l : list string) : option nat :=
  match l with
  | [] => None
  | y :: l => if String.eqb y x then Some 0%nat else option_map S (index x l)
  end.

(** [[slot_options.index(slot) for slot in selected_slots]] *)
Fixpoint selected_indices (slot_options selected_slots : list string)
  : result (list nat) :=
  match selected_slots with
  | [] => Return []
  | slot :: rest =>
      match index slot slot_options with
      | None => Raise ValueError
      | Some i =>
          match selected_indices slot_options rest with
          | Return l => Return (i :: l)
          | Raise e => Raise e
          end
      end
  end.

(** [[slot_ids[i] for i in selected_slot_indices]]; [None] is the
    [IndexError] of an index past the end. *)
Fixpoint subscripts (slot_ids : list Z) (selected_slot_indices : list nat)
  : option (list Z) :=
  match selected_slot_indices with
  | [] => Some []
  | i :: rest =>
      match nth_error slot_ids i with
      | None => None
      | Some id => option_map (cons id) (subscripts slot_ids rest)
      end
  end.

(** The "Book a Slot" page once the dashboard of the user is open, in
    the run in which "Book Now" is pressed with [selected_slots] chosen
    in the multiselect. *)
Definition book_now (db : Database) (user_id : Z) (selected_date : date)
    (selected_slots : list string)
  : Database * list email_sent * page_result notice :=
  let (db, slots) := get_available_slots db selected_date in
  let available_slots := filter Slot.availability slots in
  let slot_options := map slot_option available_slots in
  let slot_ids := map Slot.slot_id available_slots in
  match slot_options with
  | [] => (db, [], Shown no_available_slots)
  | _ :: _ =>
      match selected_indices slot_options selected_slots with
      | Raise e => (db, [], Crashed (Uncaught e))
      | Return selected_slot_indices =>
          match subscripts slot_ids selected_slot_indices with
          | None => (db, [], Crashed IndexError)
          | Some selected_slot_ids =>
              let '(db, sent, r) := book_slot db user_id selected_slot_ids in
              (db, sent,
               match r with
               | Raise e => Crashed (Uncaught e)
               | Return [] => Shown already_booked
               | Return ((_ :: _) as booked_slots) =>
                   Shown (booking_confirmed (List.length booked_slots))
               end)
          end
      end
  end.

(** The run from the dashboard on: the header reads [user.name] of the
    object in the session state, [user.role] chooses the dashboard, and
    the page books for [user.user_id]. *)
Definition book_a_slot (db : Database) (user : session_user) (selected_date : date)
    (selected_slots : list string)
  : Database * list email_sent * page_result notice :=
  match user with
  | Expired => (db, [], Crashed DetachedInstanceError)
  | Readable user =>
      if String.eqb (User.role user) "user"
      then book_now db (User.user_id user) selected_date selected_slots
      else (db, [], Shown other_dashboard)
  end.

(** "Cancel Booking" in the run in which the button is pressed with the
    booking at [selected_booking_index] chosen; the labels of the select
    box read [booking.slot] of every booking of the user. *)
Definition cancel_a_booking (db : Database) (user_id : Z)
    (selected_booking_index : nat) : Database * page_result notice :=
  match bookings_of_user db user_id with
  | [] => (db, Shown no_bookings_to_cancel)
  | (_ :: _) as bookings =>
      if forallb (fun b => match slot_by_id db (Booking.slot_id b) with
                           | Some _ => true
                           | None => false
                           end) bookings
      then
        match nth_error bookings selected_booking_index with
        | None => (db, Crashed IndexError)
        | Some selected_booking =>
            match cancel_booking db (Booking.booking_id selected_booking) with
            | (db, Return true) => (db, Shown booking_cancelled)
            | (db, Return false) => (db, Shown cancel_failed)
            | (db, Raise e) => (db, Crashed (Uncaught e))
            end
        end
      else (db, Crashed (Uncaught AttributeError))
  end.

(** ** The timetable

    What every action keeps of a slot: all of it but its availability. *)
Definition window (s : Slot.t) : Z * date * time * time :=
  (Slot.slot_id s, Slot.date s, Slot.start_time s, Slot.end_time s).

(** The day and hour a slot stands for. *)
Definition day_and_hour (s : Slot.t) : date * time :=
  (Slot.date s, Slot.start_time s).

Record timetable (db : Database) : Prop := {
  hours_unique : NoDup (map day_and_hour (slots db));
  one_hour :
    forall s, In s (slots db) ->
              exists h, 0 <= h <= 23
                        /\ Slot.start_time s = mktime h 0
                        /\ Slot.end_time s = mktime ((h + 1) mod 24) 0;
  slot_ids_increasing : StronglySorted Z.lt (slot_ids db);
  slot_ids_positive : forall i, In i (slot_ids db) -> 0 < i
}.

(** ** The rows of users and bookings

    What the rowids and the column default keep true of them. *)
Record ledger (db : Database) : Prop := {
  user_ids_increasing : StronglySorted Z.lt (user_ids db);
  user_ids_positive : forall i, In i (user_ids db) -> 0 < i;
  booking_ids_increasing : StronglySorted Z.lt (booking_ids db);
  booking_ids_positive : forall i, In i (booking_ids db) -> 0 < i;
  bookings_confirmed :
    forall b, In b (bookings db) -> Booking.confirmation_status b = true
}.

(** A stand-in for [bcrypt] to run the examples with: the salt is the
    first two characters of the hash, as a bcrypt hash starts with its
    salt, and a password checks when hashing it with the salt of the
    hash gives the hash. *)
Definition example_hashpw (password salt : string) : string :=
  String.append (substring 0 2 salt) password.

#[local] Instance example_bcrypt : Bcrypt :=
  {| hashpw := example_hashpw;
     checkpw := fun password hashed => String.eqb (example_hashpw password hashed) hashed |}.

(** A date and a database to run the examples on: one registered user
    and the 24 slots of the day. *)
Definition june_1 : date := mkdate 2024 6 1.

Definition example_db : Database :=
  run empty_db [Register "ab" "A" "a@x.org" "555" "secret1" "user"; GetSlots june_1].

(** The user of [example_db] and its slot for hour 10. *)
Definition example_user : User.t :=
  User.mk 1 "A" "a@x.org" "555" "absecret1" "user".

Definition hour_10 : Slot.t := Slot.mk 11 (mktime 10 0) (mktime 11 0) june_1 true.

(** A password of 73 bytes, one more than bcrypt takes. *)
Definition long_password : string :=
  "0123456789012345678901234567890123456789012345678901234567890123456789abc".

(** The user books hour 10, asking for it twice; the owner blocks hour 5. *)
Definition booked_db : Database := run example_db [Book 1 [11; 11]].

Definition blocked_db : Database := run example_db [BlockSlot june_1 5].

(** A date without slots, four bookings of the user (two pages of
    three), and a booking made under a user id that no user has between
    two of the user. *)
Definition june_2 : date := mkdate 2024 6 2.

Definition busy_db : Database := run example_db [Book 1 [1; 2; 3; 4]].

Definition stray_db : Database := run example_db [Book 1 [1]; Book 99 [2]; Book 1 [3]].

(** * Properties *)

(** ** Dates, times and lists *)

Lemma date_eqb_eq (a b : date) : date_eqb a b = true <-> a = b.
Proof.
  destruct a as [y1 m1 d1], b as [y2 m2 d2]; unfold date_eqb; simpl.
  rewrite !andb_true_iff, !Z.eqb_eq. split.
  - intros [[-> ->] ->]; reflexivity.
  - intros H; injection H as -> -> ->; auto.
Qed.

Lemma date_eqb_refl (a : date) : date_eqb a a = true.
Proof. apply date_eqb_eq; reflexivity. Qed.

Lemma time_eqb_eq (a b : time) : time_eqb a b = true <-> a = b.
Proof.
  destruct a as [h1 m1], b as [h2 m2]; unfold time_eqb; simpl.
  rewrite andb_true_iff, !Z.eqb_eq. split.
  - intros [-> ->]; reflexivity.
  - intros H; injection H as -> ->; auto.
Qed.


Lemma max_id_nonneg (ids : list Z) : 0 <= max_id ids.
Proof. induction ids as [|x ids IH]; simpl; lia. Qed.

Lemma max_id_ge (ids : list Z) (x : Z) : In x ids -> x <= max_id ids.
Proof.
  induction ids as [|y ids IH]; simpl; [tauto|].
  intros [->|H]; [lia|]. specialize (IH H). lia.
Qed.

Lemma next_rowid_fresh (ids : list Z) : ~ In (next_rowid ids) ids.
Proof. intros H. apply max_id_ge in H. unfold next_rowid in H. lia. Qed.

Lemma max_id_snoc (ids : list Z) (x : Z) :
  max_id (ids ++ [x]) = Z.max (max_id ids) x.
Proof.
  induction ids as [|y ids IH]; simpl.
  - lia.
  - fold (max_id (ids ++ [x])). fold (max_id ids). rewrite IH. lia.
Qed.

Lemma next_rowid_snoc (ids : list Z) :
  next_rowid (ids ++ [next_rowid ids]) = next_rowid ids + 1.
Proof.
  unfold next_rowid. rewrite max_id_snoc.
  pose proof (max_id_nonneg ids). lia.
Qed.

Lemma NoDup_snoc {A} (l : list A) (x : A) :
  NoDup l -> ~ In x l -> NoDup (l ++ [x]).
Proof.
  intros Hl Hx. induction Hl as [|y l Hy Hl IH]; simpl.
  - constructor; [tauto | constructor].
  - constructor.
    + rewrite in_app_iff. simpl. intros [H|[H|[]]]; [tauto|].
      subst. apply Hx. now left.
    + apply IH. intros H. apply Hx. now right.
Qed.

(** A key that is unique in a table is unique among the rows a
    [WHERE] keeps. *)
Lemma unique_key_filter {Row Key : Type} (key : Row -> Key) (keep : Row -> bool)
    (rows : list Row) (U : NoDup (map key rows)) :
  NoDup (map key (filter keep rows)).
Proof.
  induction rows as [|r rows IH]; cbn in *; [constructor|].
  apply NoDup_cons_iff in U as [Hr U].
  destruct (keep r); cbn; auto.
  apply NoDup_cons; auto.
  intros Hin. apply Hr. apply in_map_iff in Hin as (r' & E & Hin).
  apply filter_In in Hin as [Hin _]. rewrite <- E. now apply in_map.
Qed.

Lemma NoDup_map_eq {A B} (f : A -> B) (l : list A) (a b : A) :
  NoDup (map f l) -> In a l -> In b l -> f a = f b -> a = b.
Proof.
  induction l as [|x l IH]; simpl; [tauto|].
  intros H Ha Hb Hf. inversion H as [|? ? Hx Hl]; subst.
  destruct Ha as [->|Ha], Hb as [->|Hb]; auto.
  - exfalso. apply Hx. rewrite Hf. now apply in_map.
  - exfalso. apply Hx. rewrite <- Hf. now apply in_map.
Qed.

(** With a key that is unique in the table, [first()] on the key finds
    the row that has it. *)
Lemma find_by_key {A} (key : A -> Z) (l : list A) (k : Z) (a : A) :
  NoDup (map key l) -> In a l -> key a = k ->
  find (fun x => key x =? k) l = Some a.
Proof.
  intros Hnd Ha Hk.
  destruct (find (fun x => key x =? k) l) as [b|] eqn:E.
  - apply find_some in E as [Hb Hkb]. apply Z.eqb_eq in Hkb.
    f_equal. apply (NoDup_map_eq key l); auto. congruence.
  - apply (find_none _ _ E) in Ha. apply Z.eqb_neq in Ha. tauto.
Qed.

Lemma find_key_some {A} (key : A -> Z) (l : list A) (k : Z) (a : A) :
  find (fun x => key x =? k) l = Some a -> In a l /\ key a = k.
Proof. intros E. apply find_some in E as [H1 H2]. apply Z.eqb_eq in H2. auto. Qed.

Lemma find_key_none {A} (key : A -> Z) (l : list A) (k : Z) :
  find (fun x => key x =? k) l = None <-> ~ In k (map key l).
Proof.
  split.
  - intros E H. apply in_map_iff in H as (a & Hk & Ha).
    apply (find_none _ _ E) in Ha. apply Z.eqb_neq in Ha. tauto.
  - intros H. destruct (find (fun x => key x =? k) l) as [a|] eqn:E; [|reflexivity].
    apply find_key_some in E as [Ha Hk]. exfalso. apply H. subst. now apply in_map.
Qed.

Lemma filter_all {A} (p : A -> bool) (l : list A) :
  (forall x, In x l -> p x = true) -> filter p l = l.
Proof.
  induction l as [|a l IH]; simpl; intros H; [reflexivity|].
  rewrite (H a) by now left. f_equal. apply IH. intros x Hx. apply H. now right.
Qed.

(** ** Slot generation *)

Lemma slot_ids_add_slot db st et d :
  slot_ids (add_slot db st et d) = slot_ids db ++ [next_rowid (slot_ids db)].
Proof. unfold slot_ids, add_slot; simpl. now rewrite map_app. Qed.

Lemma add_hours_slots (d : date) (len a : nat) (db : Database) :
  slots (fold_left
           (fun db hour =>
              add_slot db (mktime hour 0) (mktime ((hour + 1) mod 24) 0) d)
           (map Z.of_nat (seq a len)) db)
  = slots db
    ++ map (hourly_slot (next_rowid (slot_ids db) - Z.of_nat a) d)
           (map Z.of_nat (seq a len)).
Proof.
  revert a db. induction len as [|len IH]; intros a db; simpl.
  - now rewrite app_nil_r.
  - rewrite IH. simpl. rewrite <- app_assoc. f_equal. simpl. f_equal.
    + unfold hourly_slot. f_equal. lia.
    + apply map_ext. intros h. unfold hourly_slot. f_equal.
      rewrite slot_ids_add_slot, next_rowid_snoc. lia.
Qed.

Lemma add_hours_others (d : date) (hours : list Z) (db : Database) :
  let db' := fold_left
               (fun db hour =>
                  add_slot db (mktime hour 0) (mktime ((hour + 1) mod 24) 0) d)
               hours db in
  users db' = users db /\ bookings db' = bookings db.
Proof.
  revert db. induction hours as [|h hours IH]; intros db; simpl; [auto|].
  destruct (IH (add_slot db (mktime h 0) (mktime ((h + 1) mod 24) 0) d)) as [-> ->].
  auto.
Qed.

Lemma generate_noop db d :
  slots_on db d <> [] -> generate_slots_for_date db d = db.
Proof. unfold generate_slots_for_date. destruct (slots_on db d); congruence. Qed.

Lemma generate_fresh_slots db d :
  slots_on db d = [] ->
  slots (generate_slots_for_date db d)
  = slots db ++ map (hourly_slot (next_rowid (slot_ids db)) d) (range 24).
Proof.
  intros E. unfold generate_slots_for_date. rewrite E.
  unfold range. rewrite add_hours_slots. do 3 f_equal. simpl. lia.
Qed.

Lemma generate_others db d :
  users (generate_slots_for_date db d) = users db /\
  bookings (generate_slots_for_date db d) = bookings db.
Proof.
  unfold generate_slots_for_date. destruct (slots_on db d); [|auto].
  apply add_hours_others.
Qed.

Lemma generate_fresh_slots_on db d :
  slots_on db d = [] ->
  slots_on (generate_slots_for_date db d) d
  = map (hourly_slot (next_rowid (slot_ids db)) d) (range 24).
Proof.
  intros E. unfold slots_on at 1. rewrite generate_fresh_slots by assumption.
  rewrite filter_app. fold (slots_on db d). rewrite E. cbn [app].
  apply filter_all. intros s Hs. apply in_map_iff in Hs as (h & <- & _).
  cbn [hourly_slot Slot.date]. apply date_eqb_refl.
Qed.

Lemma generate_twice db d :
  generate_slots_for_date (generate_slots_for_date db d) d
  = generate_slots_for_date db d.
Proof.
  destruct (slots_on db d) as [|s l] eqn:E.
  - apply generate_noop. rewrite generate_fresh_slots_on by assumption. discriminate.
  - rewrite (generate_noop db d) by congruence. apply generate_noop. congruence.
Qed.


Lemma NoDup_map_injective {A B} (f : A -> B) (l : list A) :
  (forall x y, f x = f y -> x = y) -> NoDup l -> NoDup (map f l).
Proof.
  intros Hf Hl. induction Hl as [|a l Ha Hl IH]; simpl; constructor; auto.
  rewrite in_map_iff. intros (b & Hb & Hin). apply Hf in Hb. now subst.
Qed.

Lemma range_NoDup (n : nat) : NoDup (range n).
Proof.
  unfold range. apply NoDup_map_injective; [apply Nat2Z.inj | apply seq_NoDup].
Qed.

Lemma range_length (n : nat) : List.length (range n) = n.
Proof. unfold range. now rewrite length_map, length_seq. Qed.

Lemma nth_error_range (n h : nat) (z : Z) :
  nth_error (range n) h = Some z -> z = Z.of_nat h /\ (h < n)%nat.
Proof.
  unfold range. rewrite nth_error_map, nth_error_seq.
  destruct (Nat.ltb_spec h n); simpl; [|discriminate].
  intros [= <-]. auto.
Qed.

(** C3: on a date [D] that has no slot yet, [generate_slots_for_date]
    followed by [get_available_slots] lists exactly 24 slots, in the
    order of their slot ids (consecutive, in insertion order): the one
    at position [h] starts at hour [h], ends at hour [(h + 1) mod 24] of
    the same date [D] and is available, so the last one runs from 23:00
    to 00:00 of [D]. *)
Theorem fresh_date_lists_24_hourly_slots (db : Database) (D : date) :
  slots_on db D = [] ->
  let first_id := next_rowid (slot_ids db) in
  let listed := snd (get_available_slots (generate_slots_for_date db D) D) in
  listed = map (fun h => Slot.mk (first_id + h) (mktime h 0)
                           (mktime ((h + 1) mod 24) 0) D true) (range 24)
  /\ List.length listed = 24%nat
  /\ (forall (h : nat) (s : Slot.t),
        nth_error listed h = Some s ->
        (h < 24)%nat
        /\ Slot.slot_id s = first_id + Z.of_nat h
        /\ Slot.start_time s = mktime (Z.of_nat h) 0
        /\ Slot.end_time s = mktime ((Z.of_nat h + 1) mod 24) 0
        /\ Slot.date s = D
        /\ Slot.availability s = true)
  /\ nth_error listed 23 = Some (Slot.mk (first_id + 23) (mktime 23 0) (mktime 0 0) D true).
Proof.
  intros E first_id listed.
  assert (EL : listed = map (hourly_slot first_id D) (range 24)).
  { unfold listed, get_available_slots. cbn [snd].
    rewrite generate_twice. now apply generate_fresh_slots_on. }
  split; [exact EL|]. split; [|split].
  - rewrite EL, length_map. apply range_length.
  - intros h s. rewrite EL, nth_error_map.
    destruct (nth_error (range 24) h) as [z|] eqn:Ez; simpl; [|discriminate].
    apply nth_error_range in Ez as [-> Hlt]. intros [= <-].
    unfold hourly_slot; cbn [Slot.slot_id Slot.start_time Slot.end_time Slot.date Slot.availability].
    repeat split; auto.
  - rewrite EL. reflexivity.
Qed.

(** C4: [generate_slots_for_date] is idempotent.  When a slot exists for
    the date the call leaves the database as it is; a second call in
    sequence always changes nothing; and on a date that had no slot the
    two calls leave the same 24 slots as one call, with distinct ids and
    distinct start hours, and no other row is added. *)
Theorem generate_slots_for_date_idempotent (db : Database) (D : date) :
  (slots_on db D <> [] -> generate_slots_for_date db D = db)
  /\ generate_slots_for_date (generate_slots_for_date db D) D
     = generate_slots_for_date db D
  /\ (slots_on db D = [] ->
      let twice := generate_slots_for_date (generate_slots_for_date db D) D in
      slots_on twice D = slots_on (generate_slots_for_date db D) D
      /\ List.length (slots_on twice D) = 24%nat
      /\ NoDup (map Slot.slot_id (slots_on twice D))
      /\ NoDup (map Slot.start_time (slots_on twice D))
      /\ List.length (slots twice) = (List.length (slots db) + 24)%nat).
Proof.
  split; [apply generate_noop|]. split; [apply generate_twice|].
  intros E twice. unfold twice. rewrite generate_twice.
  split; [reflexivity|].
  rewrite generate_fresh_slots_on, generate_fresh_slots by assumption.
  rewrite !map_map, length_app, !length_map, range_length.
  split; [reflexivity|]. split; [|split; [|reflexivity]].
  - apply NoDup_map_injective; [|apply range_NoDup].
    intros x y. unfold hourly_slot; cbn. lia.
  - apply NoDup_map_injective; [|apply range_NoDup].
    intros x y. unfold hourly_slot; cbn. congruence.
Qed.

(** ** Queries on the tables *)

Lemma available_slot_some db sid s :
  available_slot db sid = Some s ->
  In s (slots db) /\ Slot.slot_id s = sid /\ Slot.availability s = true.
Proof.
  unfold available_slot. intros E. apply find_some in E as [Hin H].
  apply andb_true_iff in H as [H1 H2]. apply Z.eqb_eq in H1.
  destruct (Slot.availability s); [auto | discriminate].
Qed.

Lemma available_slot_none db sid :
  available_slot db sid = None ->
  forall s, In s (slots db) -> Slot.slot_id s = sid -> Slot.availability s = false.
Proof.
  unfold available_slot. intros E s Hin Hid.
  apply (find_none _ _ E) in Hin. rewrite Hid, Z.eqb_refl in Hin.
  destruct (Slot.availability s); [discriminate | reflexivity].
Qed.

Lemma slot_by_id_some db sid s :
  slot_by_id db sid = Some s -> In s (slots db) /\ Slot.slot_id s = sid.
Proof. apply find_key_some. Qed.

Lemma slot_by_id_unique db sid s :
  NoDup (slot_ids db) -> In s (slots db) -> Slot.slot_id s = sid ->
  slot_by_id db sid = Some s.
Proof. apply find_by_key. Qed.

Lemma booking_by_id_some db bid b :
  booking_by_id db bid = Some b -> In b (bookings db) /\ Booking.booking_id b = bid.
Proof. apply find_key_some. Qed.

Lemma user_by_email_some db e u :
  user_by_email db e = Some u -> In u (users db) /\ User.email u = e.
Proof.
  unfold user_by_email. intros E. apply find_some in E as [Hin H].
  apply String.eqb_eq in H. auto.
Qed.

Lemma user_by_email_none db e :
  user_by_email db e = None <-> ~ In e (map User.email (users db)).
Proof.
  unfold user_by_email. split.
  - intros E H. apply in_map_iff in H as (u & Hu & Hin).
    apply (find_none _ _ E) in Hin. apply String.eqb_neq in Hin. tauto.
  - intros H. destruct (find _ (users db)) as [u|] eqn:E; [|reflexivity].
    apply find_some in E as [Hin Hu]. apply String.eqb_eq in Hu.
    exfalso. apply H. rewrite <- Hu. now apply in_map.
Qed.

(** ** What the writes do to the tables *)

Lemma slot_ids_update db i v : slot_ids (update_availability db i v) = slot_ids db.
Proof.
  unfold slot_ids, update_availability; cbn [slots]. rewrite map_map.
  apply map_ext. intros s. now destruct (Slot.slot_id s =? i).
Qed.

Lemma in_slots_update db i v s' :
  In s' (slots (update_availability db i v)) <->
  exists s, In s (slots db)
            /\ s' = if Slot.slot_id s =? i then Slot.with_availability v s else s.
Proof.
  unfold update_availability; cbn [slots]. rewrite in_map_iff.
  split; intros (s & H1 & H2); exists s; auto.
Qed.

Lemma slot_by_id_update db i v sid :
  slot_by_id (update_availability db i v) sid
  = if sid =? i then option_map (Slot.with_availability v) (slot_by_id db sid)
    else slot_by_id db sid.
Proof.
  unfold slot_by_id, update_availability; cbn [slots].
  induction (slots db) as [|s l IH]; cbn [map find option_map].
  - now destruct (sid =? i).
  - destruct (Slot.slot_id s =? i) eqn:Ei.
    + cbn [Slot.with_availability Slot.slot_id].
      destruct (Slot.slot_id s =? sid) eqn:Es.
      * apply Z.eqb_eq in Ei, Es. subst. now rewrite Z.eqb_refl.
      * exact IH.
    + destruct (Slot.slot_id s =? sid) eqn:Es.
      * apply Z.eqb_eq in Es. subst. rewrite Ei. reflexivity.
      * exact IH.
Qed.

Lemma slot_by_id_add_slot db st et d sid s :
  slot_by_id db sid = Some s -> slot_by_id (add_slot db st et d) sid = Some s.
Proof.
  unfold slot_by_id, add_slot; cbn [slots]. intros E.
  induction (slots db) as [|x l IH]; [discriminate|].
  cbn [find app] in *. destruct (Slot.slot_id x =? sid); auto.
Qed.

Lemma references_add_booking db uid sid i :
  references (add_booking db uid sid) i
  = (references db i + if (sid =? i)%Z then 1 else 0)%nat.
Proof.
  unfold references, add_booking; cbn [bookings].
  rewrite filter_app, length_app. cbn [filter Booking.slot_id].
  destruct (sid =? i); reflexivity.
Qed.

Lemma references_zero db i :
  references db i = 0%nat <-> ~ In i (map Booking.slot_id (bookings db)).
Proof.
  unfold references. induction (bookings db) as [|b l IH]; cbn [filter map].
  - simpl. tauto.
  - destruct (Booking.slot_id b =? i) eqn:E; cbn [List.length In].
    + apply Z.eqb_eq in E. split; [discriminate | tauto].
    + apply Z.eqb_neq in E. rewrite IH. tauto.
Qed.

Lemma references_le_1 db i :
  NoDup (map Booking.slot_id (bookings db)) -> (references db i <= 1)%nat.
Proof.
  unfold references. induction (bookings db) as [|b l IH]; cbn [filter map].
  - simpl. lia.
  - intros H. inversion H as [|? ? Hb Hl]; subst.
    destruct (Booking.slot_id b =? i) eqn:E; [|auto].
    apply Z.eqb_eq in E. subst. cbn [List.length].
    assert (Z : List.length (filter (fun b0 => Booking.slot_id b0 =? Booking.slot_id b) l) = 0%nat).
    { clear IH H Hl. induction l as [|c l IH]; [reflexivity|].
      cbn [filter map In] in *.
      destruct (Booking.slot_id c =? Booking.slot_id b) eqn:Ec.
      - apply Z.eqb_eq in Ec. tauto.
      - apply IH. tauto. }
    rewrite Z. lia.
Qed.

Lemma referenced_iff db i :
  referenced db i = true <-> In i (map Booking.slot_id (bookings db)).
Proof.
  unfold referenced. rewrite existsb_exists, in_map_iff.
  split; intros (b & H1 & H2); exists b.
  - apply Z.eqb_eq in H2. auto.
  - split; [tauto|]. apply Z.eqb_eq. tauto.
Qed.

(** ** The tables stay consistent *)

Lemma consistent_empty : consistent empty_db.
Proof.
  constructor; cbn; try constructor; intros; contradiction.
Qed.

Lemma consistent_add_slot db st et d :
  consistent db -> consistent (add_slot db st et d).
Proof.
  intros [H1 H2 H3 H4 H5 H6]. constructor; auto.
  - rewrite slot_ids_add_slot. apply NoDup_snoc; auto. apply next_rowid_fresh.
  - intros b Hb. rewrite slot_ids_add_slot, in_app_iff. left. now apply H5.
  - intros b s Hb Hs Hid. cbn [add_slot slots bookings] in Hb, Hs.
    apply in_app_iff in Hs as [Hs|[<-|[]]]; [eauto|].
    cbn [Slot.slot_id] in Hid. exfalso.
    apply (next_rowid_fresh (slot_ids db)). rewrite Hid. now apply H5.
Qed.

Lemma consistent_update_false db i :
  consistent db -> consistent (update_availability db i false).
Proof.
  intros [H1 H2 H3 H4 H5 H6]. constructor; auto.
  - now rewrite slot_ids_update.
  - intros b Hb. rewrite slot_ids_update. now apply H5.
  - intros b s' Hb Hs Hid. apply in_slots_update in Hs as (s & Hs & ->).
    destruct (Slot.slot_id s =? i); [reflexivity | eauto].
Qed.

Lemma available_unreferenced db sid slot :
  consistent db -> available_slot db sid = Some slot ->
  ~ In sid (map Booking.slot_id (bookings db)).
Proof.
  intros C E H. apply available_slot_some in E as (Hin & Hid & Hav).
  apply in_map_iff in H as (b & Hb & Hbin).
  rewrite (booked_unavailable db C b slot) in Hav; [discriminate | auto | auto | congruence].
Qed.

Lemma consistent_book db uid sid slot :
  consistent db -> available_slot db sid = Some slot ->
  consistent (add_booking (update_availability db (Slot.slot_id slot) false) uid sid).
Proof.
  intros C E. pose proof (available_unreferenced db sid slot C E) as Hfresh.
  apply available_slot_some in E as (Hin & Hid & Hav).
  destruct (consistent_update_false db (Slot.slot_id slot) C) as [H1 H2 H3 H4 H5 H6].
  constructor; auto.
  - unfold booking_ids, add_booking; cbn [bookings]. rewrite map_app.
    apply NoDup_snoc; [exact H2 | apply next_rowid_fresh].
  - unfold add_booking; cbn [bookings]. rewrite map_app.
    apply NoDup_snoc; [exact H4 | exact Hfresh].
  - intros b Hb. unfold add_booking in Hb; cbn [bookings] in Hb.
    apply in_app_iff in Hb as [Hb|[<-|[]]]; [now apply H5|].
    cbn [Booking.slot_id]. change (In sid (slot_ids (update_availability db (Slot.slot_id slot) false))).
    rewrite slot_ids_update, <- Hid. now apply in_map.
  - intros b s' Hb Hs Hid'. unfold add_booking in Hb, Hs; cbn [bookings slots] in Hb, Hs.
    apply in_app_iff in Hb as [Hb|[<-|[]]]; [eauto|].
    cbn [Booking.slot_id] in Hid'.
    apply in_slots_update in Hs as (s & Hs & ->).
    destruct (Slot.slot_id s =? Slot.slot_id slot) eqn:Es; [reflexivity|].
    apply Z.eqb_neq in Es. congruence.
Qed.

Lemma consistent_cancel db bid b :
  consistent db -> booking_by_id db bid = Some b ->
  consistent (delete_booking (update_availability db (Booking.slot_id b) true) bid).
Proof.
  intros [H1 H2 H3 H4 H5 H6] E. apply booking_by_id_some in E as [Hb Hbid].
  constructor; auto.
  - change (NoDup (slot_ids (update_availability db (Booking.slot_id b) true))).
    now rewrite slot_ids_update.
  - unfold booking_ids, delete_booking; cbn [bookings]. now apply unique_key_filter.
  - unfold delete_booking; cbn [bookings]. now apply unique_key_filter.
  - intros b' Hb'. unfold delete_booking in Hb'; cbn [bookings] in Hb'.
    apply filter_In in Hb' as [Hb' _].
    change (In (Booking.slot_id b') (slot_ids (update_availability db (Booking.slot_id b) true))).
    rewrite slot_ids_update. now apply H5.
  - intros b' s' Hb' Hs Hid. unfold delete_booking in Hb', Hs; cbn [bookings slots] in Hb', Hs.
    apply filter_In in Hb' as [Hb' Hne].
    apply in_slots_update in Hs as (s & Hs & ->).
    destruct (Slot.slot_id s =? Booking.slot_id b) eqn:Es; [|eauto].
    apply Z.eqb_eq in Es. cbn [Slot.with_availability Slot.slot_id] in Hid.
    assert (b' = b) by (apply (NoDup_map_eq Booking.slot_id (bookings db)); auto; congruence).
    subst b'. rewrite Hbid, Z.eqb_refl in Hne. discriminate.
Qed.

Lemma consistent_add_hours d hours db :
  consistent db ->
  consistent (fold_left
                (fun db hour =>
                   add_slot db (mktime hour 0) (mktime ((hour + 1) mod 24) 0) d)
                hours db).
Proof.
  revert db. induction hours as [|h hours IH]; intros db C; cbn [fold_left]; auto.
  apply IH. now apply consistent_add_slot.
Qed.

Lemma consistent_generate db d :
  consistent db -> consistent (generate_slots_for_date db d).
Proof.
  intros C. unfold generate_slots_for_date.
  destruct (slots_on db d); [now apply consistent_add_hours | exact C].
Qed.

Lemma consistent_book_one uid db ok sid :
  consistent db -> consistent (fst (book_one uid (db, ok) sid)).
Proof.
  intros C. unfold book_one. destruct (available_slot db sid) as [slot|] eqn:E; cbn [fst]; auto.
  now apply consistent_book.
Qed.

Lemma consistent_book_loop uid ids db ok :
  consistent db -> consistent (fst (fold_left (book_one uid) ids (db, ok))).
Proof.
  revert db ok. induction ids as [|sid ids IH]; intros db ok C; cbn [fold_left fst]; auto.
  pose proof (consistent_book_one uid db ok sid C) as C'.
  destruct (book_one uid (db, ok) sid) as [db' ok']. now apply IH.
Qed.

Lemma consistent_create_slot db d h :
  consistent db -> consistent (fst (create_slot db d h)).
Proof.
  intros C. unfold create_slot.
  destruct ((0 <=? h) && (h <=? 23)); [|exact C].
  destruct (find _ (slots db)); cbn [fst]; auto using consistent_add_slot.
Qed.

Lemma consistent_block_slot db d i :
  consistent db -> consistent (block_slot db d i).
Proof.
  intros C. unfold block_slot.
  destruct (nth_error (slots_on db d) i); auto using consistent_update_false.
Qed.

Lemma too_long_false (password : string) :
  (String.length password <= 72)%nat -> too_long password = false.
Proof. intros H. unfold too_long. now apply Nat.ltb_ge. Qed.

Lemma too_long_true (password : string) :
  (72 < String.length password)%nat -> too_long password = true.
Proof. intros H. unfold too_long. now apply Nat.ltb_lt. Qed.

Section Reachability.

Context {bcrypt : Bcrypt}.

(** The three ways a registration ends: bcrypt refuses the password,
    the email is taken, or a row is appended. *)
Lemma register_user_cases db salt name email phone password role :
  (too_long password = true
   /\ register_user db salt name email phone password role = (db, Raise ValueError))
  \/ (too_long password = false
      /\ register_user db salt name email phone password role = (db, Return false))
  \/ (too_long password = false
      /\ user_by_email db email = None
      /\ register_user db salt name email phone password role
         = (mkDatabase
              (users db ++ [User.mk (next_rowid (user_ids db)) name email phone
                              (hashpw password salt) role])
              (slots db) (bookings db),
            Return true)).
Proof.
  unfold register_user, hash_password.
  destruct (too_long password); [now left|]. right.
  destruct (user_by_email db email); [now left | now right].
Qed.

Lemma register_user_tables db salt name email phone password role :
  slots (fst (register_user db salt name email phone password role)) = slots db
  /\ bookings (fst (register_user db salt name email phone password role))
     = bookings db.
Proof.
  now destruct (register_user_cases db salt name email phone password role)
    as [[_ ->]|[[_ ->]|(_ & _ & ->)]].
Qed.

Lemma consistent_register db salt name email phone password role :
  consistent db ->
  consistent (fst (register_user db salt name email phone password role)).
Proof.
  intros C.
  destruct (register_user_cases db salt name email phone password role)
    as [[_ ->]|[[_ ->]|(_ & E & ->)]]; cbn [fst]; [exact C|exact C|].
  destruct C as [H1 H2 H3 H4 H5 H6]. constructor; auto.
  cbn [users]. rewrite map_app. apply NoDup_snoc; [exact H3|].
  now apply user_by_email_none.
Qed.

Lemma consistent_cancel_booking db bid :
  consistent db -> consistent (fst (cancel_booking db bid)).
Proof.
  intros C. unfold cancel_booking.
  destruct (booking_by_id db bid) as [b|] eqn:E; [|exact C].
  destruct (slot_by_id db (Booking.slot_id b)) as [s|] eqn:Es; [|exact C].
  cbn [fst]. apply slot_by_id_some in Es as [_ ->]. now apply consistent_cancel.
Qed.

Lemma consistent_book_slot db uid ids :
  consistent db -> consistent (fst (fst (book_slot db uid ids))).
Proof.
  intros C. unfold book_slot, book_loop.
  pose proof (consistent_book_loop uid ids db [] C) as C'.
  destruct (fold_left (book_one uid) ids (db, [])) as [db' ok].
  destruct (notify_all db' uid ok). exact C'.
Qed.

Lemma consistent_step db a : consistent db -> consistent (step db a).
Proof.
  intros C. destruct a; cbn [step].
  - now apply consistent_register.
  - now apply consistent_generate.
  - now apply consistent_book_slot.
  - now apply consistent_cancel_booking.
  - now apply consistent_create_slot.
  - now apply consistent_block_slot.
Qed.

Lemma reachable_consistent db : reachable db -> consistent db.
Proof.
  induction 1 as [|db a _ IH]; [apply consistent_empty | now apply consistent_step].
Qed.

Lemma reachable_run db actions : reachable db -> reachable (run db actions).
Proof.
  revert db. induction actions as [|a actions IH]; intros db R; cbn; auto.
  apply IH. now constructor.
Qed.

End Reachability.

(** ** Cancelling *)

Lemma user_by_email_unique db e u :
  NoDup (map User.email (users db)) -> In u (users db) -> User.email u = e ->
  user_by_email db e = Some u.
Proof.
  intros Hnd Hin He. destruct (user_by_email db e) as [v|] eqn:E.
  - apply user_by_email_some in E as [Hv Hve]. f_equal.
    apply (NoDup_map_eq User.email (users db)); auto. congruence.
  - apply user_by_email_none in E. exfalso. apply E. rewrite <- He. now apply in_map.
Qed.

Lemma cancel_booking_found db bid b :
  consistent db -> In b (bookings db) -> Booking.booking_id b = bid ->
  exists slot,
    slot_by_id db (Booking.slot_id b) = Some slot
    /\ cancel_booking db bid
       = (delete_booking (update_availability db (Booking.slot_id b) true) bid,
          Return true).
Proof.
  intros C Hb Hbid.
  assert (Eb : booking_by_id db bid = Some b)
    by (apply find_by_key; auto; apply (booking_ids_unique db C)).
  pose proof (booked_exists db C b Hb) as Hs.
  apply in_map_iff in Hs as (slot & Hid & Hin).
  exists slot. split.
  - apply slot_by_id_unique; auto. apply (slot_ids_unique db C).
  - unfold cancel_booking. rewrite Eb.
    rewrite (slot_by_id_unique db (Booking.slot_id b) slot); auto.
    + now rewrite Hid.
    + apply (slot_ids_unique db C).
Qed.

Lemma cancel_booking_missing db bid :
  (forall b, In b (bookings db) -> Booking.booking_id b <> bid) ->
  cancel_booking db bid = (db, Return false).
Proof.
  intros H. unfold cancel_booking.
  destruct (booking_by_id db bid) as [b|] eqn:E; [|reflexivity].
  apply booking_by_id_some in E as [Hb Hbid]. now apply H in Hb.
Qed.

Lemma slot_after_cancel db i bid sid :
  slot_by_id (delete_booking (update_availability db i true) bid) sid
  = if sid =? i then option_map (Slot.with_availability true) (slot_by_id db sid)
    else slot_by_id db sid.
Proof. apply slot_by_id_update. Qed.

Lemma bookings_after_cancel db i bid b :
  consistent db -> In b (bookings db) -> Booking.booking_id b = bid ->
  forall b', In b' (bookings (delete_booking (update_availability db i true) bid))
             <-> In b' (bookings db) /\ b' <> b.
Proof.
  intros C Hb Hbid b'. unfold delete_booking, update_availability; cbn [bookings].
  rewrite filter_In, negb_true_iff, Z.eqb_neq. split; intros [H1 H2]; split; auto.
  - congruence.
  - intros E. apply H2.
    apply (NoDup_map_eq Booking.booking_id (bookings db)); auto.
    + apply (booking_ids_unique db C).
    + congruence.
Qed.

Lemma with_availability_twice v w s :
  Slot.with_availability v (Slot.with_availability w s) = Slot.with_availability v s.
Proof. reflexivity. Qed.

Lemma with_availability_same s :
  Slot.with_availability (Slot.availability s) s = s.
Proof. now destruct s. Qed.

(** * The claims about credentials, cancelling and blocking *)

Section Claims.

Context {bcrypt : Bcrypt}.

(** C6 (amended): registering with an email that an existing user
    already has and a password of at most 72 bytes fails:
    [register_user] answers [False] and leaves the database, and with it
    the users table, exactly as it was; with an email no user has it
    succeeds and appends the row, whatever the other fields are.  The
    length of the password is the one thing checked besides the email:
    bcrypt refuses a longer one and [register_user] raises its
    [ValueError], changing nothing. *)
Theorem register_user_duplicate_email
    (db : Database) (salt name email phone password role : string) :
  In email (map User.email (users db)) ->
  (String.length password <= 72)%nat ->
  register_user db salt name email phone password role = (db, Return false)
  /\ (forall email',
        ~ In email' (map User.email (users db)) ->
        register_user db salt name email' phone password role
        = (mkDatabase
             (users db ++ [User.mk (next_rowid (user_ids db)) name email' phone
                             (hashpw password salt) role])
             (slots db) (bookings db),
           Return true))
  /\ (forall long_password email',
        (72 < String.length long_password)%nat ->
        register_user db salt name email' phone long_password role
        = (db, Raise ValueError)).
Proof.
  intros Hin Hlen. apply too_long_false in Hlen. split; [|split].
  - unfold register_user, hash_password. rewrite Hlen.
    destruct (user_by_email db email) eqn:E; [reflexivity|].
    apply user_by_email_none in E. contradiction.
  - intros email' Hnew. apply user_by_email_none in Hnew.
    unfold register_user, hash_password. now rewrite Hlen, Hnew.
  - intros long_password email' Hlong.
    unfold register_user, hash_password. now rewrite (too_long_true _ Hlong).
Qed.

(** C7 (amended): for a password of at most 72 bytes,
    [authenticate_user] returns a user record exactly when that user has
    the email and the password checks against the user's stored hash;
    with an email no user has, and with a password that does not check
    for the user who has the email, it returns the same [None]; and it
    raises nothing. *)
Theorem authenticate_user_match (db : Database) (email password : string) :
  reachable db ->
  (String.length password <= 72)%nat ->
  (forall u,
      authenticate_user db email password = Return (Some u) <->
      In u (users db) /\ User.email u = email
      /\ check_password password (User.password u) = Return true)
  /\ (~ In email (map User.email (users db)) ->
      authenticate_user db email password = Return None)
  /\ (forall u,
        In u (users db) -> User.email u = email ->
        check_password password (User.password u) = Return false ->
        authenticate_user db email password = Return None)
  /\ exists r, authenticate_user db email password = Return r.
Proof.
  intros R Hlen. apply reachable_consistent in R. apply too_long_false in Hlen.
  pose proof (emails_unique db R) as Hnd.
  unfold authenticate_user, check_password. rewrite Hlen. split; [|split; [|split]].
  - intros u. destruct (user_by_email db email) as [v|] eqn:E.
    + pose proof (user_by_email_some _ _ _ E) as [Hv Hve].
      destruct (checkpw password (User.password v)) eqn:Ec.
      * split.
        -- intros [= <-]. rewrite Ec. auto.
        -- intros (Hu & Hue & _). do 2 f_equal.
           apply (NoDup_map_eq User.email (users db)); auto. congruence.
      * split; [discriminate|]. intros (Hu & Hue & Hc).
        assert (u = v)
          by (apply (NoDup_map_eq User.email (users db)); auto; congruence).
        subst. congruence.
    + split; [discriminate|]. intros (Hu & Hue & _).
      apply user_by_email_none in E. exfalso. apply E.
      rewrite <- Hue. now apply in_map.
  - intros Hnone. apply user_by_email_none in Hnone. now rewrite Hnone.
  - intros u Hu Hue Hc.
    rewrite (user_by_email_unique db email u); auto.
    injection Hc as ->. reflexivity.
  - destruct (user_by_email db email) as [v|]; [|eauto].
    destruct (checkpw password (User.password v)); eauto.
Qed.

(** C2: when a booking has the id, [cancel_booking] returns [True], the
    slot the booking refers to, which was unavailable, is available
    afterwards (and otherwise as it was), the booking row is gone and
    nothing else has changed; when no booking has the id, it returns
    [False] and the database is what it was. *)
Theorem cancel_booking_spec (db : Database) (booking_id : Z) :
  reachable db ->
  (forall b,
      In b (bookings db) -> Booking.booking_id b = booking_id ->
      exists slot,
        slot_by_id db (Booking.slot_id b) = Some slot
        /\ Slot.availability slot = false
        /\ snd (cancel_booking db booking_id) = Return true
        /\ let db' := fst (cancel_booking db booking_id) in
           slot_by_id db' (Booking.slot_id b)
           = Some (Slot.with_availability true slot)
           /\ (forall s, In s (slots db') -> Slot.slot_id s = Booking.slot_id b ->
                         Slot.availability s = true)
           /\ (forall sid, sid <> Booking.slot_id b ->
                           slot_by_id db' sid = slot_by_id db sid)
           /\ (forall b', In b' (bookings db') <-> In b' (bookings db) /\ b' <> b)
           /\ booking_by_id db' booking_id = None
           /\ users db' = users db)
  /\ ((forall b, In b (bookings db) -> Booking.booking_id b <> booking_id) ->
      cancel_booking db booking_id = (db, Return false)).
Proof.
  intros R. apply reachable_consistent in R. split.
  - intros b Hb Hbid.
    destruct (cancel_booking_found db booking_id b R Hb Hbid) as (slot & Es & Ec).
    exists slot. rewrite Ec. cbn [fst snd]. repeat split.
    + exact Es.
    + apply slot_by_id_some in Es as [Hs Eid].
      now apply (booked_unavailable db R b slot).
    + rewrite slot_after_cancel, Z.eqb_refl, Es. reflexivity.
    + intros s Hs Eid. unfold delete_booking in Hs; cbn [slots] in Hs.
      apply in_slots_update in Hs as (s0 & _ & ->).
      destruct (Slot.slot_id s0 =? Booking.slot_id b) eqn:E0; [reflexivity|].
      apply Z.eqb_neq in E0. contradiction.
    + intros sid Hne. rewrite slot_after_cancel.
      apply Z.eqb_neq in Hne. now rewrite Hne.
    + now apply (bookings_after_cancel db (Booking.slot_id b) booking_id b R Hb Hbid).
    + now apply (bookings_after_cancel db (Booking.slot_id b) booking_id b R Hb Hbid).
    + intros [H1 H2].
      now apply (bookings_after_cancel db (Booking.slot_id b) booking_id b R Hb Hbid).
    + apply find_key_none. intros H. apply in_map_iff in H as (b' & Hid & Hin).
      unfold delete_booking in Hin; cbn [bookings] in Hin.
      apply filter_In in Hin as [_ Hne]. rewrite Hid, Z.eqb_refl in Hne. discriminate.
  - apply cancel_booking_missing.
Qed.

(** C5 (amended): in every reachable state at most one booking row
    refers to any slot id; a slot that is not available has zero or one
    booking that refers to it, and a slot that is available has none.
    (The converse of the second part fails: an available slot also has
    zero bookings.) *)
Theorem unavailable_slot_has_at_most_one_booking (db : Database) :
  reachable db ->
  (forall slot_id, (references db slot_id <= 1)%nat)
  /\ (forall s, In s (slots db) ->
        (Slot.availability s = false ->
         references db (Slot.slot_id s) = 0%nat
         \/ references db (Slot.slot_id s) = 1%nat)
        /\ (Slot.availability s = true ->
            references db (Slot.slot_id s) = 0%nat)).
Proof.
  intros R. apply reachable_consistent in R.
  assert (Hle : forall i, (references db i <= 1)%nat)
    by (intros i; apply references_le_1, (booked_once db R)).
  split; [exact Hle|]. intros s Hs. split.
  - intros _. specialize (Hle (Slot.slot_id s)). lia.
  - intros Hav. apply references_zero. intros H.
    apply in_map_iff in H as (b & Hid & Hb).
    rewrite (booked_unavailable db R b s) in Hav; [discriminate | auto | auto | congruence].
Qed.

(** C10: blocking makes the selected slot unavailable whatever its
    state, also when a booking refers to it, and changes no booking; and
    when a booking refers to the blocked slot, cancelling that booking
    succeeds and makes the slot available again. *)
Theorem block_does_not_outlast_cancel
    (db : Database) (selected_date : date) (selected_slot_index : nat) (s : Slot.t) :
  reachable db ->
  nth_error (slots_on db selected_date) selected_slot_index = Some s ->
  let db1 := block_slot db selected_date selected_slot_index in
  slot_by_id db1 (Slot.slot_id s) = Some (Slot.with_availability false s)
  /\ bookings db1 = bookings db
  /\ (forall b,
        In b (bookings db) -> Booking.slot_id b = Slot.slot_id s ->
        state_of db1 (Slot.with_availability false s) = Booked
        /\ snd (cancel_booking db1 (Booking.booking_id b)) = Return true
        /\ let db2 := fst (cancel_booking db1 (Booking.booking_id b)) in
           slot_by_id db2 (Slot.slot_id s) = Some (Slot.with_availability true s)
           /\ state_of db2 (Slot.with_availability true s) = Available).
Proof.
  intros R Hsel db1.
  assert (C : consistent db) by now apply reachable_consistent.
  assert (C1 : consistent db1) by now apply consistent_block_slot.
  assert (Hs : In s (slots db)).
  { apply nth_error_In in Hsel. unfold slots_on in Hsel.
    now apply filter_In in Hsel as [Hs _]. }
  assert (E1 : db1 = update_availability db (Slot.slot_id s) false)
    by (unfold db1, block_slot; now rewrite Hsel).
  assert (Es : slot_by_id db1 (Slot.slot_id s) = Some (Slot.with_availability false s)).
  { rewrite E1, slot_by_id_update, Z.eqb_refl.
    rewrite (slot_by_id_unique db (Slot.slot_id s) s); auto.
    apply (slot_ids_unique db C). }
  split; [exact Es|]. split; [now rewrite E1|].
  intros b Hb Hid.
  assert (Hb1 : In b (bookings db1)) by now rewrite E1.
  split.
  - unfold state_of. cbn [Slot.with_availability Slot.availability Slot.slot_id].
    assert (H : referenced db1 (Slot.slot_id s) = true).
    { apply referenced_iff. rewrite <- Hid. now apply in_map. }
    now rewrite H.
  - destruct (cancel_booking_found db1 (Booking.booking_id b) b C1 Hb1 eq_refl)
      as (slot & Eslot & Ec).
    rewrite Ec. cbn [fst snd]. split; [reflexivity|]. split.
    + rewrite slot_after_cancel, Hid, Z.eqb_refl, Es. reflexivity.
    + reflexivity.
Qed.

End Claims.

(** * Booking *)

(** ** One requested slot id *)

Lemma available_slot_update_false db sid i :
  available_slot (update_availability db sid false) i
  = if i =? sid then None else available_slot db i.
Proof.
  unfold available_slot, update_availability; cbn [slots].
  induction (slots db) as [|s l IH]; cbn [map find].
  - now destruct (i =? sid).
  - destruct (Slot.slot_id s =? sid) eqn:Es.
    + cbn [Slot.with_availability Slot.slot_id Slot.availability Bool.eqb].
      rewrite andb_false_r. rewrite IH.
      destruct (i =? sid) eqn:Ei; [reflexivity|].
      apply Z.eqb_eq in Es. apply Z.eqb_neq in Ei.
      assert (En : (Slot.slot_id s =? i) = false) by (apply Z.eqb_neq; congruence).
      now rewrite En.
    + rewrite IH. destruct (i =? sid) eqn:Ei; [|reflexivity].
      apply Z.eqb_eq in Ei. subst i. now rewrite Es.
Qed.

Lemma occurrences_snoc sid l s :
  occurrences sid (l ++ [s])
  = (occurrences sid l + if (Slot.slot_id s =? sid)%Z then 1 else 0)%nat.
Proof.
  unfold occurrences. rewrite filter_app, length_app. cbn [filter].
  now destruct (Slot.slot_id s =? sid).
Qed.

Lemma book_one_hit uid db ok sid slot :
  available_slot db sid = Some slot ->
  book_one uid (db, ok) sid
  = (add_booking (update_availability db sid false) uid sid,
     ok ++ [Slot.with_availability false slot]).
Proof.
  intros E. unfold book_one. rewrite E.
  apply available_slot_some in E as (_ & -> & _). reflexivity.
Qed.

Lemma book_one_miss uid db ok sid :
  available_slot db sid = None -> book_one uid (db, ok) sid = (db, ok).
Proof. intros E. unfold book_one. now rewrite E. Qed.

(** A turn for another id leaves a slot id as it is. *)
Lemma book_one_frame uid db ok j sid :
  j <> sid ->
  let r := book_one uid (db, ok) j in
  available_slot (fst r) sid = available_slot db sid
  /\ references (fst r) sid = references db sid
  /\ occurrences sid (snd r) = occurrences sid ok.
Proof.
  intros Hne r. unfold r.
  destruct (available_slot db j) as [slot|] eqn:E.
  - rewrite (book_one_hit uid db ok j slot E). cbn [fst snd].
    assert (E1 : (sid =? j) = false) by (apply Z.eqb_neq; congruence).
    assert (E2 : (j =? sid) = false) by now apply Z.eqb_neq.
    split; [|split].
    + change (available_slot (update_availability db j false) sid = available_slot db sid).
      now rewrite available_slot_update_false, E1.
    + rewrite references_add_booking, E2.
      change (references (update_availability db j false) sid) with (references db sid).
      lia.
    + rewrite occurrences_snoc. cbn [Slot.with_availability Slot.slot_id].
      apply available_slot_some in E as (_ & -> & _). rewrite E2. lia.
  - rewrite (book_one_miss uid db ok j E). auto.
Qed.

(** A turn for an available slot books it, once. *)
Lemma book_one_books uid db ok sid slot :
  available_slot db sid = Some slot ->
  let r := book_one uid (db, ok) sid in
  available_slot (fst r) sid = None
  /\ references (fst r) sid = S (references db sid)
  /\ occurrences sid (snd r) = S (occurrences sid ok).
Proof.
  intros E r. unfold r. rewrite (book_one_hit uid db ok sid slot E). cbn [fst snd].
  split; [|split].
  - change (available_slot (update_availability db sid false) sid = None).
    now rewrite available_slot_update_false, Z.eqb_refl.
  - rewrite references_add_booking, Z.eqb_refl.
    change (references (update_availability db sid false) sid) with (references db sid).
    lia.
  - rewrite occurrences_snoc. cbn [Slot.with_availability Slot.slot_id].
    apply available_slot_some in E as (_ & -> & _). rewrite Z.eqb_refl. lia.
Qed.

(** ** The whole request *)

Lemma book_loop_unavailable uid sid ids : forall db ok,
  available_slot db sid = None ->
  let r := fold_left (book_one uid) ids (db, ok) in
  available_slot (fst r) sid = None
  /\ references (fst r) sid = references db sid
  /\ occurrences sid (snd r) = occurrences sid ok.
Proof.
  induction ids as [|j ids IH]; intros db ok E; cbn [fold_left]; [auto|].
  destruct (Z.eq_dec j sid) as [->|Hne].
  - rewrite (book_one_miss uid db ok sid E). now apply IH.
  - destruct (book_one_frame uid db ok j sid Hne) as (H1 & H2 & H3).
    destruct (book_one uid (db, ok) j) as [db1 ok1]. cbn [fst snd] in *.
    rewrite <- H2, <- H3. apply IH. congruence.
Qed.

Lemma book_loop_not_requested uid sid ids : forall db ok,
  ~ In sid ids ->
  let r := fold_left (book_one uid) ids (db, ok) in
  available_slot (fst r) sid = available_slot db sid
  /\ references (fst r) sid = references db sid
  /\ occurrences sid (snd r) = occurrences sid ok.
Proof.
  induction ids as [|j ids IH]; intros db ok Hn; cbn [fold_left]; [auto|].
  assert (Hne : j <> sid) by (intros ->; apply Hn; now left).
  destruct (book_one_frame uid db ok j sid Hne) as (H1 & H2 & H3).
  destruct (book_one uid (db, ok) j) as [db1 ok1]. cbn [fst snd] in *.
  rewrite <- H1, <- H2, <- H3. apply IH. intros H. apply Hn. now right.
Qed.

Lemma book_loop_requested uid sid ids : forall db ok slot,
  available_slot db sid = Some slot -> In sid ids ->
  let r := fold_left (book_one uid) ids (db, ok) in
  available_slot (fst r) sid = None
  /\ references (fst r) sid = S (references db sid)
  /\ occurrences sid (snd r) = S (occurrences sid ok).
Proof.
  induction ids as [|j ids IH]; intros db ok slot E Hin; [contradiction|].
  cbn [fold_left]. destruct (Z.eq_dec j sid) as [->|Hne].
  - destruct (book_one_books uid db ok sid slot E) as (H1 & H2 & H3).
    destruct (book_one uid (db, ok) sid) as [db1 ok1]. cbn [fst snd] in *.
    rewrite <- H2, <- H3. now apply book_loop_unavailable.
  - destruct Hin as [Hj|Hin]; [contradiction|].
    destruct (book_one_frame uid db ok j sid Hne) as (H1 & H2 & H3).
    destruct (book_one uid (db, ok) j) as [db1 ok1]. cbn [fst snd] in *.
    rewrite <- H2, <- H3. apply (IH db1 ok1 slot); [congruence | exact Hin].
Qed.

Lemma book_loop_users uid ids : forall db ok,
  users (fst (fold_left (book_one uid) ids (db, ok))) = users db.
Proof.
  induction ids as [|j ids IH]; intros db ok; cbn [fold_left]; [reflexivity|].
  unfold book_one at 2. destruct (available_slot db j); now rewrite IH.
Qed.

Lemma book_loop_snoc db uid pre sid :
  book_loop db uid (pre ++ [sid]) = book_one uid (book_loop db uid pre) sid.
Proof. unfold book_loop. now rewrite fold_left_app. Qed.

(** ** Notifications *)

Lemma notify_all_found db uid user ok :
  user_by_id db uid = Some user ->
  notify_all db uid ok = (flat_map (send_notification user) ok, Return tt).
Proof.
  intros E. induction ok as [|s ok IH]; cbn [notify_all flat_map]; [reflexivity|].
  now rewrite E, IH.
Qed.

Lemma notify_all_missing db uid s ok :
  user_by_id db uid = None ->
  notify_all db uid (s :: ok) = ([], Raise AttributeError).
Proof. intros E. cbn [notify_all]. now rewrite E. Qed.

Lemma book_slot_found db uid ids user :
  user_by_id db uid = Some user ->
  book_slot db uid ids
  = (fst (book_loop db uid ids),
     flat_map (send_notification user) (snd (book_loop db uid ids)),
     Return (snd (book_loop db uid ids))).
Proof.
  intros E. unfold book_slot.
  pose proof (book_loop_users uid ids db []) as Hu. fold (book_loop db uid ids) in Hu.
  destruct (book_loop db uid ids) as [db' ok]. cbn [fst snd] in *.
  assert (E' : user_by_id db' uid = Some user) by (unfold user_by_id; now rewrite Hu).
  now rewrite (notify_all_found db' uid user ok E').
Qed.

Lemma send_notification_length user l :
  List.length (flat_map (send_notification user) l) = (2 * List.length l)%nat.
Proof.
  induction l as [|s l IH]; cbn [flat_map List.length]; [reflexivity|].
  rewrite length_app, IH. cbn [send_notification List.length]. lia.
Qed.

(** ** The two claims about [book_slot] *)

(** C1 (amended): for a call [book_slot user_id slot_ids] in which
    [user_id] is the id of an existing user.  Each requested id is
    checked against the database as the turns before it left it: when a
    slot with the id is then available, every slot with the id is made
    unavailable, one booking row for the user and the id is appended and
    the slot joins the list of successes, and nothing else changes for
    the other ids; when none is, the turn changes nothing and raises
    nothing.  The call returns that list of successes and writes the two
    emails of [send_notification] once for each slot in it, in order.
    Over the whole call a slot id is in the list exactly when it was
    available before the call and is among the requested ids, and then
    it is in it once and has one more booking row. *)
Theorem book_slot_books_available_slots
    (db : Database) (user_id : Z) (slot_ids : list Z) (user : User.t) :
  user_by_id db user_id = Some user ->
  let db' := fst (fst (book_slot db user_id slot_ids)) in
  let sent := snd (fst (book_slot db user_id slot_ids)) in
  let booked := snd (book_loop db user_id slot_ids) in
  snd (book_slot db user_id slot_ids) = Return booked
  /\ sent = flat_map (send_notification user) booked
  /\ List.length sent = (2 * List.length booked)%nat
  /\ users db' = users db
  /\ (forall pre sid post,
        slot_ids = pre ++ sid :: post ->
        let before := book_loop db user_id pre in
        let after := book_loop db user_id (pre ++ [sid]) in
        match available_slot (fst before) sid with
        | Some slot =>
            available_slot (fst after) sid = None
            /\ (forall s, In s (slots (fst after)) -> Slot.slot_id s = sid ->
                          Slot.availability s = false)
            /\ bookings (fst after)
               = bookings (fst before)
                   ++ [Booking.mk (next_rowid (booking_ids (fst before)))
                         user_id sid true]
            /\ snd after = snd before ++ [Slot.with_availability false slot]
            /\ (forall i, i <> sid ->
                          available_slot (fst after) i = available_slot (fst before) i
                          /\ slot_by_id (fst after) i = slot_by_id (fst before) i)
        | None => after = before
        end)
  /\ (forall sid,
        match available_slot db sid with
        | Some slot =>
            (In sid slot_ids ->
             occurrences sid booked = 1%nat
             /\ references db' sid = S (references db sid)
             /\ available_slot db' sid = None)
            /\ (~ In sid slot_ids ->
                occurrences sid booked = 0%nat
                /\ references db' sid = references db sid
                /\ available_slot db' sid = Some slot)
        | None =>
            occurrences sid booked = 0%nat
            /\ references db' sid = references db sid
            /\ available_slot db' sid = None
        end).
Proof.
  intros E db' sent booked. unfold db', sent.
  rewrite (book_slot_found db user_id slot_ids user E). cbn [fst snd]. fold booked.
  split; [reflexivity|]. split; [reflexivity|].
  split; [apply send_notification_length|].
  split; [apply book_loop_users|]. split.
  - intros pre sid post _. rewrite book_loop_snoc.
    destruct (book_loop db user_id pre) as [db1 ok1]. cbn [fst snd].
    destruct (available_slot db1 sid) as [slot|] eqn:Ea.
    + rewrite (book_one_hit user_id db1 ok1 sid slot Ea). cbn [fst snd].
      split; [|split; [|split; [|split]]].
      * change (available_slot (update_availability db1 sid false) sid = None).
        now rewrite available_slot_update_false, Z.eqb_refl.
      * intros s Hs Hid. cbn [add_booking slots] in Hs.
        apply in_slots_update in Hs as (s0 & _ & ->).
        destruct (Slot.slot_id s0 =? sid) eqn:E0; [reflexivity|].
        apply Z.eqb_neq in E0. contradiction.
      * reflexivity.
      * reflexivity.
      * intros i Hne. apply Z.eqb_neq in Hne. split.
        -- change (available_slot (update_availability db1 sid false) i
                   = available_slot db1 i).
           now rewrite available_slot_update_false, Hne.
        -- change (slot_by_id (update_availability db1 sid false) i = slot_by_id db1 i).
           now rewrite slot_by_id_update, Hne.
    + now rewrite (book_one_miss user_id db1 ok1 sid Ea).
  - intros sid. unfold booked, book_loop.
    destruct (available_slot db sid) as [slot|] eqn:Ea.
    + split.
      * intros Hin.
        destruct (book_loop_requested user_id sid slot_ids db [] slot Ea Hin)
          as (H1 & H2 & H3). auto.
      * intros Hn.
        destruct (book_loop_not_requested user_id sid slot_ids db [] Hn)
          as (H1 & H2 & H3). rewrite <- Ea. auto.
    + destruct (book_loop_unavailable user_id sid slot_ids db [] Ea)
        as (H1 & H2 & H3). auto.
Qed.

(** C9 (amended): for a call [book_slot user_id slot_ids] in which
    [user_id] is the id of an existing user, a slot id that is requested
    more than once and whose slot is available before the call is booked
    once: the call leaves exactly one more booking row for the id, the
    list it returns holds the slot once, and a later turn for the same id
    finds the slot unavailable and changes nothing. *)
Theorem duplicate_slot_id_is_booked_once
    (db : Database) (user_id : Z) (slot_ids : list Z) (sid : Z)
    (user : User.t) (slot : Slot.t) :
  user_by_id db user_id = Some user ->
  available_slot db sid = Some slot ->
  (2 <= count_occ Z.eq_dec slot_ids sid)%nat ->
  let db' := fst (fst (book_slot db user_id slot_ids)) in
  references db' sid = S (references db sid)
  /\ available_slot db' sid = None
  /\ (exists booked,
         snd (book_slot db user_id slot_ids) = Return booked
         /\ occurrences sid booked = 1%nat)
  /\ (forall pre post,
        slot_ids = pre ++ sid :: post -> In sid pre ->
        available_slot (fst (book_loop db user_id pre)) sid = None
        /\ book_loop db user_id (pre ++ [sid]) = book_loop db user_id pre).
Proof.
  intros E Ea Hcount db'. unfold db'.
  assert (Hin : In sid slot_ids)
    by (apply (count_occ_In Z.eq_dec); lia).
  rewrite (book_slot_found db user_id slot_ids user E). cbn [fst snd].
  destruct (book_loop_requested user_id sid slot_ids db [] slot Ea Hin)
    as (H1 & H2 & H3). fold (book_loop db user_id slot_ids) in H1, H2, H3.
  split; [exact H2|]. split; [exact H1|]. split.
  - exists (snd (book_loop db user_id slot_ids)). split; [reflexivity | exact H3].
  - intros pre post _ Hpre.
    destruct (book_loop_requested user_id sid pre db [] slot Ea Hpre) as (Hp & _ & _).
    fold (book_loop db user_id pre) in Hp. split; [exact Hp|].
    rewrite book_loop_snoc. destruct (book_loop db user_id pre) as [db1 ok1].
    now apply book_one_miss.
Qed.

(** * The life cycle of a slot *)

Lemma referenced_references db i :
  referenced db i = false <-> references db i = 0%nat.
Proof.
  rewrite references_zero, <- referenced_iff.
  destruct (referenced db i); split; congruence.
Qed.

Lemma referenced_same_count db db' i :
  references db' i = references db i -> referenced db' i = referenced db i.
Proof.
  intros E. destruct (referenced db i) eqn:Er.
  - destruct (referenced db' i) eqn:Er'; [reflexivity|].
    apply referenced_references in Er'. rewrite E in Er'.
    apply referenced_references in Er'. congruence.
  - apply referenced_references. rewrite E. now apply referenced_references.
Qed.

Lemma state_of_status db s :
  consistent db -> In s (slots db) -> state_of db s = status db (Slot.slot_id s).
Proof.
  intros C Hs. unfold state_of, status.
  destruct (Slot.availability s) eqn:Ea.
  - destruct (available_slot db (Slot.slot_id s)) eqn:E; [reflexivity|].
    rewrite (available_slot_none _ _ E s Hs eq_refl) in Ea. discriminate.
  - destruct (available_slot db (Slot.slot_id s)) as [s'|] eqn:E; [|reflexivity].
    apply available_slot_some in E as (Hs' & Hid & Hav).
    assert (s' = s).
    { apply (NoDup_map_eq Slot.slot_id (slots db)); auto.
      apply (slot_ids_unique db C). }
    subst. congruence.
Qed.

Lemma status_ext db db' sid :
  slots db' = slots db -> bookings db' = bookings db -> status db' sid = status db sid.
Proof. intros E1 E2. unfold status, available_slot, referenced. now rewrite E1, E2. Qed.

Lemma find_snoc {A} (p : A -> bool) (l : list A) (x : A) :
  find p (l ++ [x])
  = match find p l with
    | Some a => Some a
    | None => if p x then Some x else None
    end.
Proof.
  induction l as [|a l IH]; cbn [app find]; [reflexivity|].
  destruct (p a); [reflexivity | exact IH].
Qed.

Lemma status_add_slot db st et d sid :
  In sid (slot_ids db) -> status (add_slot db st et d) sid = status db sid.
Proof.
  intros Hin.
  assert (E : available_slot (add_slot db st et d) sid = available_slot db sid).
  { unfold available_slot, add_slot; cbn [slots]. rewrite find_snoc.
    destruct (find _ (slots db)); [reflexivity|]. cbn [Slot.slot_id].
    assert (En : (next_rowid (slot_ids db) =? sid) = false).
    { apply Z.eqb_neq. intros E. apply (next_rowid_fresh (slot_ids db)). now rewrite E. }
    now rewrite En. }
  unfold status. now rewrite E.
Qed.

Lemma status_add_hours d hours : forall db sid,
  In sid (slot_ids db) ->
  let db' := fold_left
               (fun db hour =>
                  add_slot db (mktime hour 0) (mktime ((hour + 1) mod 24) 0) d)
               hours db in
  In sid (slot_ids db') /\ status db' sid = status db sid.
Proof.
  induction hours as [|h hours IH]; intros db sid Hin; cbn [fold_left]; [auto|].
  set (db1 := add_slot db (mktime h 0) (mktime ((h + 1) mod 24) 0) d).
  assert (Hin1 : In sid (slot_ids db1)).
  { unfold db1. rewrite slot_ids_add_slot, in_app_iff. now left. }
  destruct (IH db1 sid Hin1) as [H1 H2]. split; [exact H1|].
  rewrite H2. now apply status_add_slot.
Qed.

Lemma status_generate db d sid :
  In sid (slot_ids db) ->
  In sid (slot_ids (generate_slots_for_date db d))
  /\ status (generate_slots_for_date db d) sid = status db sid.
Proof.
  intros Hin. unfold generate_slots_for_date.
  destruct (slots_on db d); [now apply status_add_hours | auto].
Qed.

Lemma status_create_slot db d h sid :
  In sid (slot_ids db) ->
  In sid (slot_ids (fst (create_slot db d h)))
  /\ status (fst (create_slot db d h)) sid = status db sid.
Proof.
  intros Hin. unfold create_slot.
  destruct ((0 <=? h) && (h <=? 23)); [|auto].
  destruct (find _ (slots db)); cbn [fst]; [auto|]. split.
  - rewrite slot_ids_add_slot, in_app_iff. now left.
  - now apply status_add_slot.
Qed.

Lemma transition_update_false db sid j d i :
  consistent db ->
  transition db sid (BlockSlot d i)
    (status db sid) (status (update_availability db j false) sid).
Proof.
  intros C. unfold status at 2. rewrite available_slot_update_false.
  change (referenced (update_availability db j false) sid) with (referenced db sid).
  unfold status. destruct (sid =? j).
  - destruct (available_slot db sid) as [slot|] eqn:Ea; [|apply stays].
    assert (Er : referenced db sid = false).
    { destruct (referenced db sid) eqn:Er; [|reflexivity].
      apply referenced_iff in Er. exfalso.
      now apply (available_unreferenced db sid slot C Ea). }
    rewrite Er. apply gets_blocked.
  - apply stays.
Qed.

Lemma transition_block_slot db sid d i :
  consistent db ->
  transition db sid (BlockSlot d i) (status db sid) (status (block_slot db d i) sid).
Proof.
  intros C. unfold block_slot.
  destruct (nth_error (slots_on db d) i); [now apply transition_update_false | apply stays].
Qed.

Lemma available_slot_update_true db j sid :
  available_slot (update_availability db j true) sid
  = if sid =? j then option_map (Slot.with_availability true) (slot_by_id db sid)
    else available_slot db sid.
Proof.
  unfold available_slot, slot_by_id, update_availability; cbn [slots].
  induction (slots db) as [|s l IH]; cbn [map find option_map].
  - now destruct (sid =? j).
  - destruct (Slot.slot_id s =? j) eqn:Es.
    + cbn [Slot.with_availability Slot.slot_id Slot.availability Bool.eqb].
      rewrite andb_true_r. destruct (Slot.slot_id s =? sid) eqn:Ei.
      * apply Z.eqb_eq in Es, Ei. subst. now rewrite Z.eqb_refl.
      * exact IH.
    + destruct (sid =? j) eqn:Ej.
      * apply Z.eqb_eq in Ej. subst sid. rewrite Es. cbn [andb]. exact IH.
      * rewrite IH. reflexivity.
Qed.

Lemma referenced_after_cancel db j bid b sid :
  consistent db -> In b (bookings db) -> Booking.booking_id b = bid ->
  referenced (delete_booking (update_availability db j true) bid) sid
  = if sid =? Booking.slot_id b then false else referenced db sid.
Proof.
  intros C Hb Hbid. unfold referenced, delete_booking, update_availability; cbn [bookings].
  destruct (sid =? Booking.slot_id b) eqn:E.
  - apply Z.eqb_eq in E. apply not_true_is_false. intros H.
    apply existsb_exists in H as (b' & Hin & Hs). apply Z.eqb_eq in Hs.
    apply filter_In in Hin as [Hin Hne].
    assert (b' = b).
    { apply (NoDup_map_eq Booking.slot_id (bookings db)); auto; [|congruence].
      apply (booked_once db C). }
    subst b'. rewrite Hbid, Z.eqb_refl in Hne. discriminate.
  - apply Z.eqb_neq in E. apply eq_iff_eq_true. rewrite !existsb_exists.
    split; intros (b' & Hin & Hs); exists b'.
    + apply filter_In in Hin. tauto.
    + split; [|exact Hs]. apply filter_In. split; [exact Hin|].
      apply negb_true_iff, Z.eqb_neq. intros Eid. apply Z.eqb_eq in Hs.
      assert (b' = b).
      { apply (NoDup_map_eq Booking.booking_id (bookings db)); auto; [|congruence].
        apply (booking_ids_unique db C). }
      subst b'. congruence.
Qed.

Lemma transition_cancel db bid sid :
  consistent db -> In sid (slot_ids db) ->
  transition db sid (Cancel bid)
    (status db sid) (status (fst (cancel_booking db bid)) sid).
Proof.
  intros C Hin. destruct (booking_by_id db bid) as [b|] eqn:Eb.
  - pose proof (booking_by_id_some db bid b Eb) as [Hb Hbid].
    destruct (cancel_booking_found db bid b C Hb Hbid) as (slot & Es & Ec).
    rewrite Ec. cbn [fst]. unfold status at 2.
    change (available_slot (delete_booking (update_availability db (Booking.slot_id b) true) bid) sid)
      with (available_slot (update_availability db (Booking.slot_id b) true) sid).
    rewrite available_slot_update_true,
            (referenced_after_cancel db (Booking.slot_id b) bid b sid C Hb Hbid).
    destruct (sid =? Booking.slot_id b) eqn:E; [|apply stays].
    apply Z.eqb_eq in E. subst sid. rewrite Es. cbn [option_map].
    assert (Er : referenced db (Booking.slot_id b) = true)
      by (apply referenced_iff; now apply in_map).
    unfold status. destruct (available_slot db (Booking.slot_id b)) as [s0|] eqn:Ea.
    + exfalso. apply referenced_iff in Er.
      now apply (available_unreferenced db (Booking.slot_id b) s0 C Ea).
    + rewrite Er. now apply (gets_cancelled db (Booking.slot_id b) bid b).
  - unfold cancel_booking. rewrite Eb. apply stays.
Qed.

Lemma transition_book db uid ids sid :
  transition db sid (Book uid ids)
    (status db sid) (status (fst (book_loop db uid ids)) sid).
Proof.
  unfold status, book_loop. destruct (available_slot db sid) as [slot|] eqn:Ea.
  - destruct (in_dec Z.eq_dec sid ids) as [Hin|Hn].
    + destruct (book_loop_requested uid sid ids db [] slot Ea Hin) as (H1 & H2 & _).
      rewrite H1.
      destruct (referenced (fst (fold_left (book_one uid) ids (db, []))) sid) eqn:Er.
      * now apply gets_booked.
      * apply referenced_references in Er. congruence.
    + destruct (book_loop_not_requested uid sid ids db [] Hn) as (H1 & _ & _).
      rewrite H1, Ea. apply stays.
  - destruct (book_loop_unavailable uid sid ids db [] Ea) as (H1 & H2 & _).
    rewrite H1, (referenced_same_count _ _ _ H2). apply stays.
Qed.

Lemma book_loop_slot_ids uid ids : forall db ok,
  slot_ids (fst (fold_left (book_one uid) ids (db, ok))) = slot_ids db.
Proof.
  induction ids as [|j ids IH]; intros db ok; cbn [fold_left]; [reflexivity|].
  unfold book_one at 2. destruct (available_slot db j); rewrite IH; [|reflexivity].
  change (slot_ids (add_booking (update_availability db (Slot.slot_id t) false) uid j))
    with (slot_ids (update_availability db (Slot.slot_id t) false)).
  apply slot_ids_update.
Qed.

Lemma book_slot_database db uid ids :
  fst (fst (book_slot db uid ids)) = fst (book_loop db uid ids).
Proof.
  unfold book_slot. destruct (book_loop db uid ids) as [db' ok].
  now destruct (notify_all db' uid ok).
Qed.

Lemma cancel_booking_slot_ids db bid :
  slot_ids (fst (cancel_booking db bid)) = slot_ids db.
Proof.
  unfold cancel_booking. destruct (booking_by_id db bid); [|reflexivity].
  destruct (slot_by_id db (Booking.slot_id t)); [|reflexivity]. cbn [fst].
  change (slot_ids (delete_booking (update_availability db (Slot.slot_id t0) true) bid))
    with (slot_ids (update_availability db (Slot.slot_id t0) true)).
  apply slot_ids_update.
Qed.

Lemma block_slot_slot_ids db d i : slot_ids (block_slot db d i) = slot_ids db.
Proof.
  unfold block_slot. destruct (nth_error (slots_on db d) i); [|reflexivity].
  apply slot_ids_update.
Qed.

Lemma slot_by_id_exists db sid :
  In sid (slot_ids db) -> exists s, slot_by_id db sid = Some s.
Proof.
  intros Hin. destruct (slot_by_id db sid) as [s|] eqn:E; [now exists s|].
  apply find_key_none in E. contradiction.
Qed.

Lemma slot_by_id_in_ids db sid s :
  slot_by_id db sid = Some s -> In sid (slot_ids db).
Proof.
  intros E. apply slot_by_id_some in E as [Hin <-]. now apply in_map.
Qed.

Section LifeCycle.

Context {bcrypt : Bcrypt}.

Lemma step_keeps_slot db a sid :
  In sid (slot_ids db) -> In sid (slot_ids (step db a)).
Proof.
  intros Hin. destruct a; cbn [step].
  - unfold slot_ids. now rewrite (proj1 (register_user_tables db _ _ _ _ _ _)).
  - now apply status_generate.
  - rewrite book_slot_database. unfold book_loop. now rewrite book_loop_slot_ids.
  - now rewrite cancel_booking_slot_ids.
  - now apply status_create_slot.
  - now rewrite block_slot_slot_ids.
Qed.

Lemma step_transition db a sid :
  consistent db -> In sid (slot_ids db) ->
  transition db sid a (status db sid) (status (step db a) sid).
Proof.
  intros C Hin. destruct a; cbn [step].
  - assert (E : status (fst (register_user db salt name email phone password role)) sid
               = status db sid)
      by (apply status_ext; apply register_user_tables).
    rewrite E. apply stays.
  - cbn [get_available_slots fst].
    destruct (status_generate db selected_date sid Hin) as [_ ->]. apply stays.
  - rewrite book_slot_database. apply transition_book.
  - now apply transition_cancel.
  - destruct (status_create_slot db selected_date start_hour sid Hin) as [_ ->].
    apply stays.
  - now apply transition_block_slot.
Qed.

Lemma blocked_step db a sid :
  consistent db -> In sid (slot_ids db) ->
  status db sid = Blocked -> status (step db a) sid = Blocked.
Proof.
  intros C Hin Hb. pose proof (step_transition db a sid C Hin) as T.
  rewrite Hb in T. inversion T; congruence.
Qed.

Lemma blocked_run actions : forall db sid,
  consistent db -> In sid (slot_ids db) -> status db sid = Blocked ->
  consistent (run db actions) /\ In sid (slot_ids (run db actions))
  /\ status (run db actions) sid = Blocked.
Proof.
  induction actions as [|a actions IH]; intros db sid C Hin Hb; cbn [run fold_left]; [auto|].
  apply IH.
  - now apply consistent_step.
  - now apply step_keeps_slot.
  - now apply blocked_step.
Qed.

(** C8: in a reachable state, one action takes a slot from its state to
    the same state or along one of three changes: from Available to
    Booked by a booking that requests its id, from Booked to Available
    by cancelling the booking that refers to it, from Available to
    Blocked by the owner's block; the slot is never removed.  So a slot
    that is Blocked (unavailable, no booking refers to it) is Blocked,
    and unavailable, after any sequence of actions. *)
Theorem blocked_slot_stays_blocked (db : Database) :
  reachable db ->
  (forall a sid s,
      slot_by_id db sid = Some s ->
      exists s',
        slot_by_id (step db a) sid = Some s'
        /\ transition db sid a (state_of db s) (state_of (step db a) s'))
  /\ (forall actions sid s,
        slot_by_id db sid = Some s -> state_of db s = Blocked ->
        exists s',
          slot_by_id (run db actions) sid = Some s'
          /\ state_of (run db actions) s' = Blocked
          /\ Slot.availability s' = false).
Proof.
  intros R. apply reachable_consistent in R. split.
  - intros a sid s Es.
    pose proof (slot_by_id_in_ids db sid s Es) as Hin.
    destruct (slot_by_id_exists _ _ (step_keeps_slot db a sid Hin)) as [s' Es'].
    exists s'. split; [exact Es'|].
    apply slot_by_id_some in Es as [Hs Hid], Es' as [Hs' Hid'].
    rewrite (state_of_status db s R Hs), Hid.
    rewrite (state_of_status (step db a) s' (consistent_step db a R) Hs'), Hid'.
    now apply step_transition.
  - intros actions sid s Es Hb.
    pose proof (slot_by_id_in_ids db sid s Es) as Hin.
    apply slot_by_id_some in Es as [Hs Hid].
    rewrite (state_of_status db s R Hs), Hid in Hb.
    destruct (blocked_run actions db sid R Hin Hb) as (C' & Hin' & Hb').
    destruct (slot_by_id_exists _ _ Hin') as [s' Es'].
    exists s'. split; [exact Es'|].
    apply slot_by_id_some in Es' as [Hs' Hid'].
    assert (E : state_of (run db actions) s' = Blocked)
      by (rewrite (state_of_status _ s' C' Hs'), Hid'; exact Hb').
    split; [exact E|].
    unfold state_of in E. destruct (Slot.availability s'); [discriminate | reflexivity].
Qed.

End LifeCycle.

(** * The claims on the example database *)

Lemma example_db_reachable : reachable example_db.
Proof. unfold example_db. apply reachable_run, reachable_empty. Qed.

Lemma booked_db_reachable : reachable booked_db.
Proof. unfold booked_db. apply reachable_run, example_db_reachable. Qed.

Lemma blocked_db_reachable : reachable blocked_db.
Proof. unfold blocked_db. apply reachable_run, example_db_reachable. Qed.

Lemma fresh_date_lists_24_hourly_slots_witness :
  slots_on empty_db june_1 = []
  /\ List.length
       (snd (get_available_slots (generate_slots_for_date empty_db june_1) june_1))
     = 24%nat
  /\ nth_error
       (snd (get_available_slots (generate_slots_for_date empty_db june_1) june_1)) 23
     = Some (Slot.mk 24 (mktime 23 0) (mktime 0 0) june_1 true).
Proof.
  split; [reflexivity|].
  destruct (fresh_date_lists_24_hourly_slots empty_db june_1 eq_refl)
    as (_ & H2 & _ & H4).
  split; [exact H2 | exact H4].
Defined.

Lemma generate_slots_for_date_idempotent_witness :
  slots_on example_db june_1 <> []
  /\ generate_slots_for_date example_db june_1 = example_db
  /\ slots_on empty_db june_1 = []
  /\ List.length
       (slots_on (generate_slots_for_date (generate_slots_for_date empty_db june_1) june_1)
          june_1)
     = 24%nat.
Proof.
  assert (H : slots_on example_db june_1 <> []) by (vm_compute; discriminate).
  destruct (generate_slots_for_date_idempotent example_db june_1) as (H1 & _ & _).
  destruct (generate_slots_for_date_idempotent empty_db june_1) as (_ & _ & H3).
  destruct (H3 eq_refl) as (_ & H4 & _).
  split; [exact H|]. split; [exact (H1 H)|]. split; [reflexivity | exact H4].
Defined.

Lemma register_user_duplicate_email_witness :
  In "a@x.org"%string (map User.email (users example_db))
  /\ (String.length "hunter22" <= 72)%nat
  /\ register_user example_db "cd" "B" "a@x.org" "777" "hunter22" "owner"
     = (example_db, Return false).
Proof.
  assert (H : In "a@x.org"%string (map User.email (users example_db)))
    by (vm_compute; left; reflexivity).
  assert (L : (String.length "hunter22" <= 72)%nat) by (apply Nat.leb_le; reflexivity).
  split; [exact H|]. split; [exact L|].
  exact (proj1 (register_user_duplicate_email example_db
                  "cd" "B" "a@x.org" "777" "hunter22" "owner" H L)).
Defined.

Lemma authenticate_user_match_witness :
  reachable example_db
  /\ (String.length "secret1" <= 72)%nat
  /\ authenticate_user example_db "a@x.org" "secret1" = Return (Some example_user)
  /\ authenticate_user example_db "a@x.org" "wrong" = Return None
  /\ authenticate_user example_db "b@x.org" "secret1" = Return None.
Proof.
  assert (L : (String.length "secret1" <= 72)%nat) by (apply Nat.leb_le; reflexivity).
  assert (L' : (String.length "wrong" <= 72)%nat) by (apply Nat.leb_le; reflexivity).
  split; [exact example_db_reachable|]. split; [exact L|]. split; [|split].
  - destruct (authenticate_user_match example_db "a@x.org" "secret1"
                example_db_reachable L) as (H1 & _ & _).
    apply H1. vm_compute. auto.
  - destruct (authenticate_user_match example_db "a@x.org" "wrong"
                example_db_reachable L') as (_ & _ & H3 & _).
    apply (H3 example_user); vm_compute; auto.
  - destruct (authenticate_user_match example_db "b@x.org" "secret1"
                example_db_reachable L) as (_ & H2 & _).
    apply H2. vm_compute. intros [H|[]]. discriminate.
Defined.

Lemma cancel_booking_spec_witness :
  reachable booked_db
  /\ In (Booking.mk 1 1 11 true) (bookings booked_db)
  /\ (exists slot,
         slot_by_id booked_db 11 = Some slot
         /\ Slot.availability slot = false
         /\ snd (cancel_booking booked_db 1) = Return true
         /\ slot_by_id (fst (cancel_booking booked_db 1)) 11
            = Some (Slot.with_availability true slot)
         /\ booking_by_id (fst (cancel_booking booked_db 1)) 1 = None)
  /\ cancel_booking booked_db 7 = (booked_db, Return false).
Proof.
  assert (Hb : In (Booking.mk 1 1 11 true) (bookings booked_db))
    by (vm_compute; left; reflexivity).
  destruct (cancel_booking_spec booked_db 1 booked_db_reachable) as (H1 & _).
  destruct (cancel_booking_spec booked_db 7 booked_db_reachable) as (_ & H2).
  split; [exact booked_db_reachable|]. split; [exact Hb|]. split.
  - destruct (H1 (Booking.mk 1 1 11 true) Hb eq_refl)
      as (slot & Es & Eu & Er & Ea & _ & _ & _ & En & _).
    exists slot. split; [exact Es|]. split; [exact Eu|]. split; [exact Er|].
    split; [exact Ea | exact En].
  - apply H2. vm_compute. intros b [<-|[]]. discriminate.
Defined.

Lemma unavailable_slot_has_at_most_one_booking_witness :
  reachable booked_db
  /\ In (Slot.with_availability false hour_10) (slots booked_db)
  /\ (references booked_db 11 = 0%nat \/ references booked_db 11 = 1%nat)
  /\ (forall slot_id, (references booked_db slot_id <= 1)%nat).
Proof.
  assert (Hs : In (Slot.with_availability false hour_10) (slots booked_db))
    by (vm_compute; do 10 right; left; reflexivity).
  destruct (unavailable_slot_has_at_most_one_booking booked_db booked_db_reachable)
    as (H1 & H2).
  split; [exact booked_db_reachable|]. split; [exact Hs|]. split; [|exact H1].
  exact (proj1 (H2 _ Hs) eq_refl).
Defined.

Lemma blocked_slot_stays_blocked_witness :
  reachable blocked_db
  /\ slot_by_id blocked_db 6
     = Some (Slot.mk 6 (mktime 5 0) (mktime 6 0) june_1 false)
  /\ state_of blocked_db (Slot.mk 6 (mktime 5 0) (mktime 6 0) june_1 false) = Blocked
  /\ exists s',
       slot_by_id (run blocked_db [Book 1 [6]; Cancel 1; GetSlots june_1]) 6 = Some s'
       /\ state_of (run blocked_db [Book 1 [6]; Cancel 1; GetSlots june_1]) s' = Blocked
       /\ Slot.availability s' = false.
Proof.
  destruct (blocked_slot_stays_blocked blocked_db blocked_db_reachable) as (_ & H).
  split; [exact blocked_db_reachable|]. split; [reflexivity|]. split; [reflexivity|].
  apply (H _ 6 (Slot.mk 6 (mktime 5 0) (mktime 6 0) june_1 false)); reflexivity.
Defined.

Lemma block_does_not_outlast_cancel_witness :
  reachable booked_db
  /\ nth_error (slots_on booked_db june_1) 10
     = Some (Slot.with_availability false hour_10)
  /\ In (Booking.mk 1 1 11 true) (bookings booked_db)
  /\ snd (cancel_booking (block_slot booked_db june_1 10) 1) = Return true
  /\ slot_by_id (fst (cancel_booking (block_slot booked_db june_1 10) 1)) 11
     = Some hour_10.
Proof.
  assert (Hb : In (Booking.mk 1 1 11 true) (bookings booked_db))
    by (vm_compute; left; reflexivity).
  assert (Hn : nth_error (slots_on booked_db june_1) 10
               = Some (Slot.with_availability false hour_10)) by reflexivity.
  destruct (block_does_not_outlast_cancel booked_db june_1 10 _ booked_db_reachable Hn)
    as (_ & _ & H).
  destruct (H (Booking.mk 1 1 11 true) Hb eq_refl) as (_ & Hr & Hs & _).
  split; [exact booked_db_reachable|]. split; [exact Hn|]. split; [exact Hb|].
  split; [exact Hr | exact Hs].
Defined.

Lemma book_slot_books_available_slots_witness :
  user_by_id example_db 1 = Some example_user
  /\ snd (book_slot example_db 1 [11; 11; 99])
     = Return (snd (book_loop example_db 1 [11; 11; 99]))
  /\ List.length (snd (fst (book_slot example_db 1 [11; 11; 99])))
     = (2 * List.length (snd (book_loop example_db 1 [11; 11; 99]%Z)))%nat.
Proof.
  split; [reflexivity|].
  destruct (book_slot_books_available_slots example_db 1 [11; 11; 99] example_user eq_refl)
    as (H1 & _ & H3 & _).
  split; [exact H1 | exact H3].
Defined.

Lemma duplicate_slot_id_is_booked_once_witness :
  user_by_id example_db 1 = Some example_user
  /\ available_slot example_db 11 = Some hour_10
  /\ (2 <= count_occ Z.eq_dec [11; 11; 99]%Z 11%Z)%nat
  /\ references (fst (fst (book_slot example_db 1 [11; 11; 99]))) 11
     = S (references example_db 11)
  /\ exists booked,
       snd (book_slot example_db 1 [11; 11; 99]) = Return booked
       /\ occurrences 11 booked = 1%nat.
Proof.
  assert (Hc : (2 <= count_occ Z.eq_dec [11; 11; 99]%Z 11%Z)%nat)
    by (vm_compute; apply le_n).
  destruct (duplicate_slot_id_is_booked_once example_db 1 [11; 11; 99] 11
              example_user hour_10 eq_refl eq_refl Hc) as (H1 & _ & H3 & _).
  split; [reflexivity|]. split; [reflexivity|]. split; [exact Hc|].
  split; [exact H1 | exact H3].
Defined.

(** ** Where three claims fail as they were stated *)

(** C1 as stated, for every call: with a user id that no user has and an
    available slot, [book_slot] books the slot and then raises in
    [send_notification]; it returns no list and writes no email. *)
Lemma book_slot_unknown_user_raises :
  user_by_id example_db 99 = None
  /\ available_slot example_db 11 = Some hour_10
  /\ snd (book_slot example_db 99 [11]) = Raise AttributeError
  /\ snd (fst (book_slot example_db 99 [11])) = []
  /\ bookings (fst (fst (book_slot example_db 99 [11]))) = [Booking.mk 1 99 11 true]
  /\ ~ (exists booked, snd (book_slot example_db 99 [11]) = Return booked).
Proof.
  repeat split; try reflexivity.
  intros (booked & H). vm_compute in H. discriminate.
Qed.

(** C9 as stated, for every call: the same call with the slot id
    requested twice books the slot once and raises, so no list is
    returned that holds the slot. *)
Lemma duplicate_request_unknown_user_raises :
  available_slot example_db 11 = Some hour_10
  /\ count_occ Z.eq_dec [11; 11] 11 = 2%nat
  /\ references (fst (fst (book_slot example_db 99 [11; 11]))) 11 = 1%nat
  /\ snd (book_slot example_db 99 [11; 11]) = Raise AttributeError
  /\ ~ (exists booked,
           snd (book_slot example_db 99 [11; 11]) = Return booked
           /\ occurrences 11 booked = 1%nat).
Proof.
  repeat split; try reflexivity.
  intros (booked & H & _). vm_compute in H. discriminate.
Qed.

(** C5 as stated, with "if and only if": a slot that was just generated
    is available and no booking refers to it. *)
Lemma available_slot_has_no_booking :
  reachable example_db
  /\ In hour_10 (slots example_db)
  /\ Slot.availability hour_10 = true
  /\ references example_db (Slot.slot_id hour_10) = 0%nat
  /\ ~ (Slot.availability hour_10 = false
        <-> references example_db (Slot.slot_id hour_10) = 0%nat
            \/ references example_db (Slot.slot_id hour_10) = 1%nat).
Proof.
  split; [exact example_db_reachable|].
  split; [vm_compute; do 10 right; left; reflexivity|].
  split; [reflexivity|]. split; [reflexivity|].
  intros [_ H]. assert (E : Slot.availability hour_10 = false) by (apply H; left; reflexivity).
  discriminate.
Qed.

(** C6 as stated, for every request: with the email of an existing user
    and a password of 73 bytes, [register_user] answers neither [True]
    nor [False]: bcrypt raises [ValueError] and nothing catches it. *)
Lemma register_user_long_password_raises :
  In "a@x.org"%string (map User.email (users example_db))
  /\ String.length long_password = 73%nat
  /\ register_user example_db "cd" "B" "a@x.org" "777" long_password "owner"
     = (example_db, Raise ValueError)
  /\ ~ (exists answer : bool,
           snd (register_user example_db "cd" "B" "a@x.org" "777" long_password "owner")
           = Return answer).
Proof.
  split; [vm_compute; left; reflexivity|]. split; [reflexivity|].
  split; [vm_compute; reflexivity|].
  intros (answer & H). vm_compute in H. discriminate.
Qed.

(** C7 as stated, for every password: with a password of 73 bytes the
    two failures differ, [ValueError] for the email of an existing user
    and [None] for an email that no user has. *)
Lemma authenticate_user_long_password_differs :
  In "a@x.org"%string (map User.email (users example_db))
  /\ ~ In "b@x.org"%string (map User.email (users example_db))
  /\ authenticate_user example_db "a@x.org" long_password = Raise ValueError
  /\ authenticate_user example_db "b@x.org" long_password = Return None
  /\ authenticate_user example_db "a@x.org" long_password
     <> authenticate_user example_db "b@x.org" long_password.
Proof.
  split; [vm_compute; left; reflexivity|].
  split; [vm_compute; intros [H|[]]; discriminate|].
  split; [vm_compute; reflexivity|]. split; [vm_compute; reflexivity|].
  vm_compute. discriminate.
Qed.

(** * The timetable *)

Lemma window_with_availability v s :
  window (Slot.with_availability v s) = window s.
Proof. reflexivity. Qed.

Lemma windows_update db i v :
  map window (slots (update_availability db i v)) = map window (slots db).
Proof.
  unfold update_availability; cbn [slots]. rewrite map_map.
  apply map_ext. intros s. now destruct (Slot.slot_id s =? i).
Qed.

Lemma windows_book_loop uid ids : forall db ok,
  map window (slots (fst (fold_left (book_one uid) ids (db, ok))))
  = map window (slots db).
Proof.
  induction ids as [|sid ids IH]; intros db ok; [reflexivity|].
  cbn [fold_left]. unfold book_one at 2.
  destruct (available_slot db sid) as [slot|]; [|apply IH].
  rewrite IH. unfold add_booking; cbn [slots]. apply windows_update.
Qed.

Lemma windows_book_slot db uid ids :
  map window (slots (fst (fst (book_slot db uid ids)))) = map window (slots db).
Proof.
  unfold book_slot, book_loop.
  pose proof (windows_book_loop uid ids db []) as H.
  destruct (fold_left (book_one uid) ids (db, [])) as [db' ok]; cbn [fst] in H.
  destruct (notify_all db' uid ok) as [sent r]. exact H.
Qed.

Lemma windows_cancel_booking db bid :
  map window (slots (fst (cancel_booking db bid))) = map window (slots db).
Proof.
  unfold cancel_booking.
  destruct (booking_by_id db bid) as [b|]; [|reflexivity].
  destruct (slot_by_id db (Booking.slot_id b)) as [s|]; [|reflexivity].
  cbn [fst]. unfold delete_booking; cbn [slots]. apply windows_update.
Qed.

Lemma windows_block_slot db d i :
  map window (slots (block_slot db d i)) = map window (slots db).
Proof.
  unfold block_slot. destruct (nth_error (slots_on db d) i); [|reflexivity].
  apply windows_update.
Qed.

Lemma slots_on_none db d :
  slots_on db d = [] -> forall s, In s (slots db) -> Slot.date s <> d.
Proof.
  unfold slots_on. intros E s Hs Hd.
  assert (H : In s (filter (fun s => date_eqb (Slot.date s) d) (slots db))).
  { apply filter_In. split; [exact Hs|]. now apply date_eqb_eq. }
  rewrite E in H. destruct H.
Qed.

(** The timetable reads the slots through their windows only. *)
Lemma timetable_windows db db' :
  map window (slots db') = map window (slots db) -> timetable db -> timetable db'.
Proof.
  intros E [U H S P].
  assert (Ek : forall l, map day_and_hour l
                         = map (fun w : Z * date * time * time =>
                                  let '(_, d, st, _) := w in (d, st)) (map window l)).
  { intros l. rewrite map_map. apply map_ext. now intros []. }
  assert (Ei : forall l, map Slot.slot_id l
                         = map (fun w : Z * date * time * time =>
                                  let '(i, _, _, _) := w in i) (map window l)).
  { intros l. rewrite map_map. apply map_ext. now intros []. }
  split.
  - rewrite Ek, E, <- Ek. exact U.
  - intros s Hs. apply (in_map window) in Hs. rewrite E in Hs.
    apply in_map_iff in Hs as (s0 & E0 & H0).
    destruct (H s0 H0) as (h & Hh & Hst & Het). exists h.
    unfold window in E0. injection E0 as _ _ Est Eet.
    rewrite <- Est, <- Eet. auto.
  - unfold slot_ids in *. rewrite Ei, E, <- Ei. exact S.
  - unfold slot_ids in *. rewrite Ei, E, <- Ei. exact P.
Qed.

Lemma sorted_snoc (ids : list Z) (x : Z) :
  StronglySorted Z.lt ids -> (forall i, In i ids -> i < x) ->
  StronglySorted Z.lt (ids ++ [x]).
Proof.
  induction 1 as [|a ids S IH Ha]; intros Hx; cbn.
  - repeat constructor.
  - constructor.
    + apply IH. intros i Hi. apply Hx. now right.
    + apply Forall_app. split; [exact Ha|]. constructor; [|constructor].
      apply Hx. now left.
Qed.

Lemma timetable_add_slot db d h :
  0 <= h <= 23 ->
  ~ In (d, mktime h 0) (map day_and_hour (slots db)) ->
  timetable db ->
  timetable (add_slot db (mktime h 0) (mktime ((h + 1) mod 24) 0) d).
Proof.
  intros Hh Hnew [U H S P]. split.
  - unfold add_slot; cbn [slots]. rewrite map_app. cbn [map day_and_hour Slot.date Slot.start_time].
    now apply NoDup_snoc.
  - unfold add_slot; cbn [slots]. intros s Hs. apply in_app_or in Hs as [Hs|[<-|[]]].
    + now apply H.
    + exists h. cbn. auto.
  - rewrite slot_ids_add_slot. apply sorted_snoc; [exact S|].
    intros i Hi. apply max_id_ge in Hi. unfold next_rowid. lia.
  - rewrite slot_ids_add_slot. intros i Hi. apply in_app_or in Hi as [Hi|[<-|[]]].
    + now apply P.
    + unfold next_rowid. pose proof (max_id_nonneg (slot_ids db)). lia.
Qed.

Lemma timetable_add_hours d : forall hours db,
  NoDup hours -> (forall h, In h hours -> 0 <= h <= 23) ->
  (forall s h, In s (slots db) -> In h hours -> day_and_hour s <> (d, mktime h 0)) ->
  timetable db ->
  timetable (fold_left
               (fun db hour =>
                  add_slot db (mktime hour 0) (mktime ((hour + 1) mod 24) 0) d)
               hours db).
Proof.
  induction hours as [|h hours IH]; intros db N R F T; [exact T|].
  cbn [fold_left]. apply NoDup_cons_iff in N as [Hh N]. apply IH.
  - exact N.
  - intros h' Hh'. apply R. now right.
  - unfold add_slot; cbn [slots]. intros s h' Hs Hh'.
    apply in_app_or in Hs as [Hs|[<-|[]]].
    + apply F; [exact Hs | now right].
    + cbn. intros E. injection E as E. subst h'. contradiction.
  - apply timetable_add_slot; [apply R; now left| |exact T].
    intros Hin. apply in_map_iff in Hin as (s & Es & Hs).
    apply (F s h Hs); [now left | exact Es].
Qed.

Lemma range_bounds (n : nat) (h : Z) : In h (range n) -> 0 <= h < Z.of_nat n.
Proof.
  unfold range. intros H. apply in_map_iff in H as (k & <- & Hk).
  apply in_seq in Hk. lia.
Qed.

Lemma timetable_generate db d : timetable db -> timetable (generate_slots_for_date db d).
Proof.
  intros T. unfold generate_slots_for_date.
  destruct (slots_on db d) as [|x l] eqn:E; [|exact T].
  apply timetable_add_hours.
  - apply range_NoDup.
  - intros h Hh. apply range_bounds in Hh. lia.
  - intros s h Hs _ Ek. apply (slots_on_none db d E s Hs).
    unfold day_and_hour in Ek. now injection Ek.
  - exact T.
Qed.

Lemma timetable_create_slot db d h : timetable db -> timetable (fst (create_slot db d h)).
Proof.
  intros T. unfold create_slot.
  destruct ((0 <=? h) && (h <=? 23)) eqn:Eh; [|exact T].
  apply andb_true_iff in Eh as [H0 H23]. apply Z.leb_le in H0, H23.
  destruct (find _ (slots db)) as [s|] eqn:Ef; [exact T|]. cbn [fst].
  apply timetable_add_slot; [lia| |exact T].
  intros Hin. apply in_map_iff in Hin as (s & Es & Hs).
  apply (find_none _ _ Ef) in Hs. unfold day_and_hour in Es. injection Es as Ed Et.
  apply andb_false_iff in Hs as [Hs|Hs].
  - apply (proj2 (date_eqb_eq _ _)) in Ed. congruence.
  - apply (proj2 (time_eqb_eq _ _)) in Et. congruence.
Qed.

Lemma timetable_empty : timetable empty_db.
Proof. split; cbn; try constructor; intros ? []. Qed.

Section Timetable.

Context {bcrypt : Bcrypt}.

Lemma windows_register db salt name email phone password role :
  slots (fst (register_user db salt name email phone password role)) = slots db.
Proof. apply register_user_tables. Qed.

Lemma timetable_step db a : timetable db -> timetable (step db a).
Proof.
  intros T. destruct a; cbn [step].
  - apply (timetable_windows db); [|exact T]. now rewrite windows_register.
  - unfold get_available_slots; cbn [fst]. now apply timetable_generate.
  - apply (timetable_windows db); [|exact T]. apply windows_book_slot.
  - apply (timetable_windows db); [|exact T]. apply windows_cancel_booking.
  - now apply timetable_create_slot.
  - apply (timetable_windows db); [|exact T]. apply windows_block_slot.
Qed.

Lemma reachable_timetable db : reachable db -> timetable db.
Proof.
  induction 1 as [|db a R IH]; [apply timetable_empty | now apply timetable_step].
Qed.

End Timetable.

Lemma sorted_filter {Row : Type} (key : Row -> Z) (keep : Row -> bool) (rows : list Row) :
  StronglySorted Z.lt (map key rows) -> StronglySorted Z.lt (map key (filter keep rows)).
Proof.
  induction rows as [|r rows IH]; cbn; intros S; [constructor|].
  apply StronglySorted_inv in S as [S Hr].
  destruct (keep r); cbn; auto.
  constructor; [auto|].
  apply Forall_forall. intros k Hk. apply in_map_iff in Hk as (r' & <- & Hin).
  apply filter_In in Hin as [Hin _].
  rewrite Forall_forall in Hr. apply Hr. now apply in_map.
Qed.

Lemma generate_lists_some db d : slots_on (generate_slots_for_date db d) d <> [].
Proof.
  destruct (slots_on db d) as [|s l] eqn:E.
  - rewrite (generate_fresh_slots_on db d E). discriminate.
  - rewrite generate_noop; rewrite E; discriminate.
Qed.

Section TimetableProperties.

Context {bcrypt : Bcrypt}.

(** X1: no action deletes a slot or changes the id, the date or the
    times of one: after any action the slots table is the rows it held,
    in their order and up to availability, followed by the rows the
    action added; only listing the slots of a date and creating a slot
    add rows, for that date, and every added row is available. *)
Theorem step_keeps_every_slot (db : Database) (a : action) :
  exists kept added,
    slots (step db a) = kept ++ added
    /\ map window kept = map window (slots db)
    /\ (forall s, In s added -> Slot.availability s = true)
    /\ match a with
       | GetSlots d | CreateSlot d _ => forall s, In s added -> Slot.date s = d
       | _ => added = []
       end.
Proof.
  assert (Same : forall db', map window (slots db') = map window (slots db) ->
                             exists kept added,
                               slots db' = kept ++ added
                               /\ map window kept = map window (slots db)
                               /\ (forall s, In s added -> Slot.availability s = true)
                               /\ added = []).
  { intros db' E. exists (slots db'), []. rewrite app_nil_r.
    repeat split; [exact E | intros s []]. }
  assert (Unchanged : forall d : date,
             exists kept added,
               slots db = kept ++ added
               /\ map window kept = map window (slots db)
               /\ (forall s, In s added -> Slot.availability s = true)
               /\ (forall s, In s added -> Slot.date s = d)).
  { intros d. exists (slots db), []. rewrite app_nil_r. repeat split; intros s []. }
  destruct a as [salt name email phone password role|d|uid ids|bid|d h|d i];
    cbn [step].
  - apply Same. now rewrite windows_register.
  - unfold get_available_slots; cbn [fst].
    destruct (slots_on db d) as [|x l] eqn:E.
    + exists (slots db), (map (hourly_slot (next_rowid (slot_ids db)) d) (range 24)).
      split; [now apply generate_fresh_slots|]. split; [reflexivity|].
      split; intros s Hs; apply in_map_iff in Hs as (h & <- & _); reflexivity.
    + rewrite generate_noop by (rewrite E; discriminate). apply Unchanged.
  - apply Same, windows_book_slot.
  - apply Same, windows_cancel_booking.
  - unfold create_slot.
    destruct ((0 <=? h) && (h <=? 23)); [|apply Unchanged].
    destruct (find _ (slots db)); [apply Unchanged|].
    exists (slots db), [Slot.mk (next_rowid (slot_ids db)) (mktime h 0)
                          (mktime ((h + 1) mod 24) 0) d true].
    cbn [fst]. unfold add_slot; cbn [slots].
    repeat split; intros s [<-|[]]; reflexivity.
  - apply Same, windows_block_slot.
Qed.

(** X2: in every reachable state a date and a start time name at most
    one slot, although no constraint of the schema says so: listing a
    date adds its 24 hours only when the date has no slot, and the owner
    can create a slot only for a date and hour that have none. *)
Theorem one_slot_per_date_and_start_time (db : Database) (s1 s2 : Slot.t) :
  reachable db ->
  In s1 (slots db) -> In s2 (slots db) ->
  Slot.date s1 = Slot.date s2 -> Slot.start_time s1 = Slot.start_time s2 ->
  s1 = s2.
Proof.
  intros R H1 H2 Ed Et. apply reachable_timetable in R.
  apply (NoDup_map_eq day_and_hour (slots db)); auto using hours_unique.
  unfold day_and_hour. now rewrite Ed, Et.
Qed.

(** X3: in every reachable state every slot starts on a full hour from
    0 to 23 and ends on the next full hour, the slot of hour 23 at 00:00. *)
Theorem every_slot_lasts_one_hour (db : Database) (s : Slot.t) :
  reachable db -> In s (slots db) ->
  exists h, 0 <= h <= 23
            /\ Slot.start_time s = mktime h 0
            /\ Slot.end_time s = mktime ((h + 1) mod 24) 0.
Proof. intros R. apply reachable_timetable in R. now apply one_hour. Qed.

(** X4: in every reachable state [get_available_slots] returns at least
    one slot, all of the date asked for, in strictly increasing order of
    their slot ids, which are positive. *)
Theorem get_available_slots_in_id_order (db : Database) (selected_date : date) :
  reachable db ->
  let listed := snd (get_available_slots db selected_date) in
  listed <> []
  /\ StronglySorted Z.lt (map Slot.slot_id listed)
  /\ (forall s, In s listed -> Slot.date s = selected_date /\ 0 < Slot.slot_id s).
Proof.
  intros R. unfold get_available_slots; cbn [snd].
  assert (T : timetable (generate_slots_for_date db selected_date))
    by now apply timetable_generate, reachable_timetable.
  split; [apply generate_lists_some|]. split.
  - unfold slots_on. apply sorted_filter, (slot_ids_increasing _ T).
  - intros s Hs. unfold slots_on in Hs. apply filter_In in Hs as [Hs Hd].
    split; [now apply date_eqb_eq|].
    apply (slot_ids_positive _ T). unfold slot_ids. now apply in_map.
Qed.

End TimetableProperties.

(** * Creating and blocking slots *)

Lemma slots_on_add_slot db st et d d' :
  slots_on (add_slot db st et d) d'
  = slots_on db d'
    ++ (if date_eqb d d' then [Slot.mk (next_rowid (slot_ids db)) st et d true] else []).
Proof.
  unfold slots_on, add_slot; cbn [slots]. rewrite filter_app. cbn [filter Slot.date].
  now destruct (date_eqb d d').
Qed.

Lemma create_slot_taken db d h s :
  0 <= h <= 23 -> In s (slots db) -> Slot.date s = d -> Slot.start_time s = mktime h 0 ->
  create_slot db d h = (db, Return false).
Proof.
  intros Hh Hs Ed Et. unfold create_slot.
  replace ((0 <=? h) && (h <=? 23)) with true
    by (symmetry; apply andb_true_iff; split; apply Z.leb_le; lia).
  destruct (find _ (slots db)) eqn:Ef; [reflexivity|].
  apply (find_none _ _ Ef) in Hs.
  rewrite (proj2 (date_eqb_eq _ _) Ed), (proj2 (time_eqb_eq _ _) Et) in Hs.
  discriminate.
Qed.

Lemma create_slot_free db d h :
  0 <= h <= 23 ->
  (forall s, In s (slots db) -> Slot.date s = d -> Slot.start_time s <> mktime h 0) ->
  create_slot db d h
  = (add_slot db (mktime h 0) (mktime ((h + 1) mod 24) 0) d, Return true).
Proof.
  intros Hh Hfree. unfold create_slot.
  replace ((0 <=? h) && (h <=? 23)) with true
    by (symmetry; apply andb_true_iff; split; apply Z.leb_le; lia).
  destruct (find _ (slots db)) as [s|] eqn:Ef; [|reflexivity].
  apply find_some in Ef as [Hs Hk]. apply andb_true_iff in Hk as [Hd Ht].
  apply date_eqb_eq in Hd. apply time_eqb_eq in Ht. now destruct (Hfree s Hs Hd).
Qed.

(** X5: for an hour from 0 to 23, "Create Slot" adds a slot exactly when
    no slot has the date and the start time: then one available slot of
    one hour is appended under a new id, the largest of the table; when
    a slot has them, the answer is "already exists" and nothing changes.
    Creating the same slot again right away is always refused. *)
Theorem create_slot_refuses_duplicates (db : Database) (selected_date : date)
    (start_hour : Z) :
  0 <= start_hour <= 23 ->
  let taken s := Slot.date s = selected_date
                 /\ Slot.start_time s = mktime start_hour 0 in
  let db' := fst (create_slot db selected_date start_hour) in
  ((forall s, In s (slots db) -> ~ taken s) ->
   create_slot db selected_date start_hour
   = (mkDatabase (users db)
        (slots db ++ [Slot.mk (next_rowid (slot_ids db)) (mktime start_hour 0)
                        (mktime ((start_hour + 1) mod 24) 0) selected_date true])
        (bookings db),
      Return true)
   /\ forall i, In i (slot_ids db) -> i < next_rowid (slot_ids db))
  /\ ((exists s, In s (slots db) /\ taken s) ->
      create_slot db selected_date start_hour = (db, Return false))
  /\ create_slot db' selected_date start_hour = (db', Return false).
Proof.
  intros Hh taken db'. split; [|split].
  - intros Hfree. split.
    + apply create_slot_free; [exact Hh|].
      intros s Hs Ed Et. now apply (Hfree s Hs).
    + intros i Hi. apply max_id_ge in Hi. unfold next_rowid. lia.
  - intros (s & Hs & Ed & Et). now apply (create_slot_taken db _ _ s).
  - subst db'.
    destruct (find (fun s => date_eqb (Slot.date s) selected_date
                             && time_eqb (Slot.start_time s) (mktime start_hour 0))
                (slots db)) as [s|] eqn:Ef.
    + apply find_some in Ef as [Hs Hk]. apply andb_true_iff in Hk as [Hd Ht].
      apply date_eqb_eq in Hd. apply time_eqb_eq in Ht.
      rewrite (create_slot_taken db _ _ s Hh Hs Hd Ht). cbn [fst].
      now apply (create_slot_taken db _ _ s).
    + rewrite (create_slot_free db selected_date start_hour); [cbn [fst]|exact Hh|].
      2:{ intros s Hs Ed Et. apply (find_none _ _ Ef) in Hs.
          rewrite (proj2 (date_eqb_eq _ _) Ed), (proj2 (time_eqb_eq _ _) Et) in Hs.
          discriminate. }
      apply (create_slot_taken _ _ _
               (Slot.mk (next_rowid (slot_ids db)) (mktime start_hour 0)
                  (mktime ((start_hour + 1) mod 24) 0) selected_date true));
        [exact Hh| |reflexivity|reflexivity].
      unfold add_slot; cbn [slots]. apply in_or_app. right. now left.
Qed.

(** X6: a slot the owner creates on a date that has no slot yet keeps
    the 24 hourly slots of that date from being generated: listing the
    date afterwards changes nothing and returns the created slot alone. *)
Theorem created_slot_stops_generation (db : Database) (selected_date : date)
    (start_hour : Z) :
  0 <= start_hour <= 23 -> slots_on db selected_date = [] ->
  let db' := fst (create_slot db selected_date start_hour) in
  snd (create_slot db selected_date start_hour) = Return true
  /\ get_available_slots db' selected_date
     = (db', [Slot.mk (next_rowid (slot_ids db)) (mktime start_hour 0)
                (mktime ((start_hour + 1) mod 24) 0) selected_date true]).
Proof.
  intros Hh E db'. subst db'.
  rewrite create_slot_free; [cbn [fst snd]|exact Hh|].
  - split; [reflexivity|]. unfold get_available_slots.
    assert (Es : slots_on (add_slot db (mktime start_hour 0)
                             (mktime ((start_hour + 1) mod 24) 0) selected_date)
                   selected_date
                 = [Slot.mk (next_rowid (slot_ids db)) (mktime start_hour 0)
                      (mktime ((start_hour + 1) mod 24) 0) selected_date true]).
    { rewrite slots_on_add_slot, E, date_eqb_refl. reflexivity. }
    rewrite generate_noop by (rewrite Es; discriminate). now rewrite Es.
  - intros s Hs Ed. now destruct (slots_on_none db selected_date E s Hs).
Qed.

Lemma slots_on_update db i v d :
  slots_on (update_availability db i v) d
  = map (fun s => if Slot.slot_id s =? i then Slot.with_availability v s else s)
        (slots_on db d).
Proof.
  unfold slots_on, update_availability; cbn [slots].
  induction (slots db) as [|s l IH]; [reflexivity|]. cbn [map filter].
  assert (E : Slot.date (if Slot.slot_id s =? i then Slot.with_availability v s else s)
              = Slot.date s) by now destruct (Slot.slot_id s =? i).
  rewrite E. destruct (date_eqb (Slot.date s) d); cbn [map]; now rewrite IH.
Qed.

Lemma update_availability_twice db i v :
  update_availability (update_availability db i v) i v = update_availability db i v.
Proof.
  unfold update_availability; cbn [users slots bookings]. f_equal.
  rewrite map_map. apply map_ext. intros s.
  destruct (Slot.slot_id s =? i) eqn:E; cbn [Slot.with_availability Slot.slot_id];
    rewrite E; reflexivity.
Qed.

(** X7: "Block Slot" touches nothing but the availability of the slot
    with the id of the selected one: users and bookings stay, every slot
    keeps its id, date and times, and the slots of other ids stay as
    they are; blocking the same selection again changes nothing more. *)
Theorem block_slot_only_blocks (db : Database) (selected_date : date)
    (selected_slot_index : nat) :
  let db' := block_slot db selected_date selected_slot_index in
  users db' = users db
  /\ bookings db' = bookings db
  /\ map window (slots db') = map window (slots db)
  /\ (forall selected_slot,
        nth_error (slots_on db selected_date) selected_slot_index = Some selected_slot ->
        nth_error (slots_on db' selected_date) selected_slot_index
        = Some (Slot.with_availability false selected_slot)
        /\ forall sid, sid <> Slot.slot_id selected_slot ->
                       slot_by_id db' sid = slot_by_id db sid)
  /\ block_slot db' selected_date selected_slot_index = db'.
Proof.
  intros db'. subst db'.
  split; [unfold block_slot; now destruct (nth_error _ _)|].
  split; [unfold block_slot; now destruct (nth_error _ _)|].
  split; [apply windows_block_slot|].
  unfold block_slot.
  destruct (nth_error (slots_on db selected_date) selected_slot_index) as [s|] eqn:E.
  - assert (En : nth_error (slots_on (update_availability db (Slot.slot_id s) false)
                              selected_date) selected_slot_index
                 = Some (Slot.with_availability false s)).
    { rewrite slots_on_update, nth_error_map, E. cbn [option_map].
      now rewrite Z.eqb_refl. }
    split.
    + intros s' Es. injection Es as <-. split; [exact En|].
      intros sid Hne. rewrite slot_by_id_update.
      apply Z.eqb_neq in Hne. now rewrite Hne.
    + rewrite En. cbn [Slot.with_availability Slot.slot_id].
      apply update_availability_twice.
  - split; [discriminate|]. now rewrite E.
Qed.

(** * Booking and cancelling *)

Lemma book_loop_nothing uid ids : forall db ok,
  (forall sid, In sid ids -> available_slot db sid = None) ->
  fold_left (book_one uid) ids (db, ok) = (db, ok).
Proof.
  induction ids as [|sid ids IH]; intros db ok H; [reflexivity|].
  cbn [fold_left]. rewrite book_one_miss by (apply H; now left).
  apply IH. intros i Hi. apply H. now right.
Qed.

(** X8: when none of the requested ids is the id of an available slot,
    and so also for an empty request, [book_slot] returns the empty
    list, writes no email and leaves the database as it was; it raises
    nothing, even for a user id that no user has. *)
Theorem book_slot_nothing_available (db : Database) (user_id : Z) (slot_ids : list Z) :
  (forall sid, In sid slot_ids -> available_slot db sid = None) ->
  book_slot db user_id slot_ids = (db, [], Return []).
Proof.
  intros H. unfold book_slot, book_loop. now rewrite book_loop_nothing.
Qed.

Lemma book_loop_all uid ids : forall db ok,
  NoDup ids ->
  (forall sid, In sid ids -> available_slot db sid <> None) ->
  let r := fold_left (book_one uid) ids (db, ok) in
  map Slot.slot_id (snd r) = map Slot.slot_id ok ++ ids
  /\ (forall s, In s (snd r) -> In s ok \/ Slot.availability s = false)
  /\ exists added,
       bookings (fst r) = bookings db ++ added
       /\ map Booking.slot_id added = ids
       /\ forall b, In b added -> Booking.user_id b = uid.
Proof.
  induction ids as [|sid ids IH]; intros db ok N A; cbn [fold_left].
  - rewrite app_nil_r. cbn [fst snd]. split; [reflexivity|]. split; [auto|].
    exists []. rewrite app_nil_r. repeat split. intros b [].
  - apply NoDup_cons_iff in N as [Hsid N].
    destruct (available_slot db sid) as [slot|] eqn:E;
      [|now destruct (A sid (or_introl eq_refl))].
    rewrite (book_one_hit uid db ok sid slot E).
    destruct (IH (add_booking (update_availability db sid false) uid sid)
                (ok ++ [Slot.with_availability false slot]) N)
      as (H1 & H2 & added & H3 & H4 & H5).
    { intros i Hi. unfold add_booking.
      change (available_slot (update_availability db sid false) i <> None).
      rewrite available_slot_update_false.
      destruct (i =? sid) eqn:Ei; [apply Z.eqb_eq in Ei; now subst|].
      apply A. now right. }
    apply available_slot_some in E as (_ & Eid & _).
    split; [|split].
    + rewrite H1, map_app, <- app_assoc. cbn [map app Slot.with_availability Slot.slot_id].
      now rewrite Eid.
    + intros s Hs. apply H2 in Hs as [Hs|Hs]; [|now right].
      apply in_app_or in Hs as [Hs|[<-|[]]]; [now left | now right].
    + exists (Booking.mk (next_rowid (booking_ids db)) uid sid true :: added).
      rewrite H3. unfold add_booking, update_availability; cbn [bookings].
      rewrite <- app_assoc. split; [reflexivity|]. split; [cbn; now rewrite H4|].
      intros b [<-|Hb]; [reflexivity | now apply H5].
Qed.

(** X9: when the requested ids are distinct and each is the id of an
    available slot, an existing user gets all of them: the list returned
    holds the requested slots in the order of the request, now
    unavailable, one booking row of the user per requested id is
    appended in that order, and the bookings the user's pages list are
    the former ones followed by the new ones. *)
Theorem book_slot_books_every_available_slot
    (db : Database) (user_id : Z) (slot_ids : list Z) (user : User.t) :
  user_by_id db user_id = Some user ->
  NoDup slot_ids ->
  (forall sid, In sid slot_ids -> available_slot db sid <> None) ->
  let db' := fst (fst (book_slot db user_id slot_ids)) in
  exists booked added,
    snd (book_slot db user_id slot_ids) = Return booked
    /\ map Slot.slot_id booked = slot_ids
    /\ (forall s, In s booked -> Slot.availability s = false)
    /\ bookings db' = bookings db ++ added
    /\ map Booking.slot_id added = slot_ids
    /\ bookings_of_user db' user_id = bookings_of_user db user_id ++ added.
Proof.
  intros Hu N A db'. subst db'. rewrite (book_slot_found db user_id slot_ids user Hu).
  cbn [fst snd]. unfold book_loop.
  destruct (book_loop_all user_id slot_ids db [] N A) as (H1 & H2 & added & H3 & H4 & H5).
  exists (snd (fold_left (book_one user_id) slot_ids (db, []))), added.
  split; [reflexivity|]. split; [exact H1|]. split.
  - intros s Hs. now destruct (H2 s Hs) as [[]|].
  - split; [exact H3|]. split; [exact H4|].
    unfold bookings_of_user. rewrite H3, filter_app. f_equal.
    apply filter_all. intros b Hb. apply Z.eqb_eq. now apply H5.
Qed.

Lemma update_availability_restores db sid slot :
  NoDup (slot_ids db) -> available_slot db sid = Some slot ->
  map (fun s => if Slot.slot_id s =? sid then Slot.with_availability true s else s)
      (map (fun s => if Slot.slot_id s =? sid then Slot.with_availability false s else s)
           (slots db))
  = slots db.
Proof.
  intros U E. apply available_slot_some in E as (Hin & Eid & Eav).
  rewrite map_map. rewrite <- (map_id (slots db)) at 2. apply map_ext_in.
  intros s Hs. destruct (Slot.slot_id s =? sid) eqn:Es.
  - cbn [Slot.with_availability Slot.slot_id]. rewrite Es.
    apply Z.eqb_eq in Es.
    assert (s = slot) as ->.
    { apply (NoDup_map_eq Slot.slot_id (slots db)); auto. congruence. }
    destruct slot; cbn in *; now subst.
  - now rewrite Es.
Qed.

Section BookingProperties.

Context {bcrypt : Bcrypt}.

(** X10: booking one available slot and cancelling the booking made
    gives back the database as it was before the booking, row for row:
    the booking gets the id after the largest in the table, cancelling
    that id succeeds, and the same id is given out again by the next
    booking. *)
Theorem book_then_cancel_restores (db : Database) (user_id sid : Z) (slot : Slot.t) :
  reachable db -> available_slot db sid = Some slot ->
  let booking_id := next_rowid (booking_ids db) in
  let db' := fst (fst (book_slot db user_id [sid])) in
  bookings db' = bookings db ++ [Booking.mk booking_id user_id sid true]
  /\ cancel_booking db' booking_id = (db, Return true)
  /\ next_rowid (booking_ids (fst (cancel_booking db' booking_id))) = booking_id.
Proof.
  intros R E. apply reachable_consistent in R. cbn zeta.
  cut (bookings (fst (fst (book_slot db user_id [sid])))
       = bookings db ++ [Booking.mk (next_rowid (booking_ids db)) user_id sid true]
       /\ cancel_booking (fst (fst (book_slot db user_id [sid])))
            (next_rowid (booking_ids db)) = (db, Return true)).
  { intros [H1 H2]. rewrite H2. auto. }
  rewrite book_slot_database. unfold book_loop. cbn [fold_left].
  rewrite (book_one_hit user_id db [] sid slot E). cbn [fst].
  split; [reflexivity|].
  set (b := Booking.mk (next_rowid (booking_ids db)) user_id sid true).
  set (db1 := add_booking (update_availability db sid false) user_id sid).
  assert (C1 : consistent db1).
  { pose proof (consistent_book db user_id sid slot R E) as C.
    apply available_slot_some in E as (_ & Eid & _). now rewrite Eid in C. }
  assert (Hb : In b (bookings db1)).
  { unfold db1, add_booking; cbn [bookings]. apply in_or_app. right. now left. }
  destruct (cancel_booking_found db1 (next_rowid (booking_ids db)) b C1 Hb eq_refl)
    as (s1 & _ & Ec).
  rewrite Ec. f_equal.
  unfold delete_booking, db1, add_booking, b.
  cbn [users slots bookings Booking.slot_id Booking.booking_id].
  unfold update_availability, booking_ids. cbn [users slots bookings].
  rewrite (update_availability_restores db sid slot (slot_ids_unique db R) E).
  rewrite filter_app. cbn [filter Booking.booking_id]. rewrite Z.eqb_refl. cbn [negb].
  rewrite app_nil_r, filter_all; [now destruct db|].
  intros b' Hb'. apply negb_true_iff, Z.eqb_neq. intros Eb.
  apply (next_rowid_fresh (booking_ids db)). unfold booking_ids. rewrite <- Eb.
  now apply in_map.
Qed.

(** X11: in every reachable state, cancelling a booking id a second
    time answers [False] and changes nothing: after [cancel_booking] no
    booking has the id, whether one had it before or not. *)
Theorem cancel_booking_twice (db : Database) (booking_id : Z) :
  reachable db ->
  let db' := fst (cancel_booking db booking_id) in
  booking_by_id db' booking_id = None
  /\ cancel_booking db' booking_id = (db', Return false).
Proof.
  intros R. apply reachable_consistent in R. cbn zeta.
  assert (H : forall b, In b (bookings (fst (cancel_booking db booking_id))) ->
                        Booking.booking_id b <> booking_id).
  { destruct (booking_by_id db booking_id) as [b|] eqn:E.
    - apply booking_by_id_some in E as [Hb Eb].
      destruct (cancel_booking_found db booking_id b R Hb Eb) as (s & _ & Ec).
      rewrite Ec. cbn [fst]. unfold delete_booking; cbn [bookings].
      intros b' Hb'. apply filter_In in Hb' as [_ Hb'].
      now apply negb_true_iff, Z.eqb_neq in Hb'.
    - unfold cancel_booking. rewrite E. cbn [fst].
      intros b Hb Eb. apply (proj1 (find_key_none Booking.booking_id _ _) E).
      rewrite <- Eb. now apply in_map. }
  split; [|now apply cancel_booking_missing].
  apply find_key_none. intros Hin. apply in_map_iff in Hin as (b & Eb & Hb).
  now apply (H b Hb).
Qed.

End BookingProperties.

(** * Accounts *)

Section Accounts.

Context {bcrypt : Bcrypt}.

Lemma register_user_new db salt name email phone password role hashed :
  ~ In email (map User.email (users db)) ->
  hash_password password salt = Return hashed ->
  register_user db salt name email phone password role
  = (mkDatabase
       (users db ++ [User.mk (next_rowid (user_ids db)) name email phone hashed role])
       (slots db) (bookings db),
     Return true).
Proof.
  intros H Hh. unfold register_user.
  now rewrite Hh, (proj2 (user_by_email_none db email) H).
Qed.

(** X12: a registration that succeeds can log in: when no user has the
    email, bcrypt hashes the password and the hash verifies the
    password, which is what bcrypt is for, [register_user] answers
    [True] and [authenticate_user] with the same email and password
    returns the row just stored, under a user id above all others; a
    password that the stored hash does not verify is turned down. *)
Theorem register_then_authenticate
    (db : Database) (salt name email phone password role hashed : string) :
  ~ In email (map User.email (users db)) ->
  hash_password password salt = Return hashed ->
  check_password password hashed = Return true ->
  let db' := fst (register_user db salt name email phone password role) in
  let user := User.mk (next_rowid (user_ids db)) name email phone hashed role in
  snd (register_user db salt name email phone password role) = Return true
  /\ authenticate_user db' email password = Return (Some user)
  /\ (forall u, In u (users db) -> User.user_id u < User.user_id user)
  /\ (forall other,
        check_password other hashed = Return false ->
        authenticate_user db' email other = Return None).
Proof.
  intros Hnew Hh Hck. cbn zeta.
  rewrite (register_user_new db salt name email phone password role hashed Hnew Hh).
  cbn [fst snd].
  assert (E : user_by_email
                (mkDatabase
                   (users db ++ [User.mk (next_rowid (user_ids db)) name email phone
                                   hashed role])
                   (slots db) (bookings db)) email
              = Some (User.mk (next_rowid (user_ids db)) name email phone hashed role)).
  { unfold user_by_email at 1; cbn [users]. rewrite find_snoc.
    fold (user_by_email db email).
    rewrite (proj2 (user_by_email_none db email) Hnew).
    cbn [User.email]. now rewrite String.eqb_refl. }
  split; [reflexivity|]. split; [|split].
  - unfold authenticate_user. rewrite E. cbn [User.password]. now rewrite Hck.
  - intros u Hu. cbn [User.user_id]. unfold next_rowid.
    assert (User.user_id u <= max_id (user_ids db))
      by (apply max_id_ge; unfold user_ids; now apply in_map).
    lia.
  - intros other Hno. unfold authenticate_user. rewrite E. cbn [User.password].
    now rewrite Hno.
Qed.

(** X13: a registration, whether it succeeds or fails, changes no login
    of another email: [authenticate_user] answers for every email other
    than the one registered, and for every email that already had an
    account, what it answered before; and it changes no slot and no
    booking. *)
Theorem register_keeps_other_logins
    (db : Database) (salt name email phone password role : string)
    (email' password' : string) :
  email' <> email \/ In email' (map User.email (users db)) ->
  let db' := fst (register_user db salt name email phone password role) in
  authenticate_user db' email' password' = authenticate_user db email' password'
  /\ slots db' = slots db
  /\ bookings db' = bookings db.
Proof.
  intros H. cbn zeta.
  destruct (register_user_tables db salt name email phone password role) as [Es Eb].
  split; [|auto].
  destruct (register_user_cases db salt name email phone password role)
    as [[_ ->]|[[_ ->]|(_ & E & ->)]]; cbn [fst]; [reflexivity|reflexivity|].
  unfold authenticate_user.
  replace (user_by_email _ email') with (user_by_email db email'); [reflexivity|].
  unfold user_by_email at 2; cbn [users]. rewrite find_snoc.
  fold (user_by_email db email').
  destruct (user_by_email db email') as [u'|] eqn:E'; [reflexivity|].
  cbn [User.email]. destruct (String.eqb email email') eqn:Ee; [|reflexivity].
  apply String.eqb_eq in Ee. subst email'. destruct H as [H|H]; [now destruct H|].
  now apply user_by_email_none in E'.
Qed.

End Accounts.

(** * Pages of bookings *)

Lemma slice_page {A : Type} (l : list A) (page items_per_page : Z) :
  0 <= page -> 0 < items_per_page ->
  slice l (page * items_per_page) (page * items_per_page + items_per_page)
  = firstn (Z.to_nat items_per_page) (skipn (Z.to_nat (page * items_per_page)) l).
Proof.
  intros Hp Hk. unfold slice, slice_bound.
  set (len := Z.of_nat (List.length l)).
  set (start := page * items_per_page).
  assert (Hs : 0 <= start) by (subst start; nia).
  assert (Hlen : 0 <= len) by (subst len; lia).
  destruct (Z.ltb_spec start 0) as [|_]; [lia|].
  destruct (Z.ltb_spec (start + items_per_page) 0) as [|_]; [lia|].
  destruct (Z.le_gt_cases len start) as [Hge|Hlt].
  - rewrite (Z.min_r start len), (Z.min_r (start + items_per_page) len) by lia.
    rewrite Z.sub_diag. cbn [Z.to_nat firstn].
    rewrite (skipn_all2 l) by (subst len; lia). now rewrite firstn_nil.
  - rewrite (Z.min_l start len) by lia.
    destruct (Z.le_gt_cases (start + items_per_page) len) as [Hfull|Hpart].
    + rewrite Z.min_l by lia. f_equal. f_equal. lia.
    + rewrite Z.min_r by lia.
      rewrite !firstn_all2; [reflexivity| |]; rewrite length_skipn; subst len; lia.
Qed.

Lemma nth_error_page {A : Type} (l : list A) (k start j : nat) :
  (j < k)%nat ->
  nth_error (firstn k (skipn start l)) j = nth_error l (start + j).
Proof.
  intros Hj. rewrite nth_error_firstn.
  destruct (Nat.ltb_spec j k) as [_|]; [|lia].
  apply nth_error_skipn.
Qed.

(** X14: for a page number from 0 on and a positive page size, the page
    [render_bookings_as_cards] cuts out holds at most [items_per_page]
    bookings, and the booking at position [j] of page [page] is the one
    at position [page * items_per_page + j] of the list: the pages
    follow one another through the list without gap or overlap. *)
Theorem page_of_bookings (bookings : list Booking.t) (page items_per_page : Z)
    (j : nat) :
  0 <= page -> 0 < items_per_page -> Z.of_nat j < items_per_page ->
  let start := page * items_per_page in
  let bookings_on_page := slice bookings start (start + items_per_page) in
  nth_error bookings_on_page j = nth_error bookings (Z.to_nat start + j)
  /\ Z.of_nat (List.length bookings_on_page) <= items_per_page
  /\ forall db,
       render_bookings_as_cards db bookings page items_per_page
       = render_cards db 0 bookings_on_page.
Proof.
  intros Hp Hk Hj. cbn zeta. rewrite slice_page by assumption. split; [|split].
  - apply nth_error_page. lia.
  - rewrite length_firstn. lia.
  - intros db. unfold render_bookings_as_cards. now rewrite slice_page.
Qed.

Lemma total_pages_spec (bookings : list Booking.t) (items_per_page page : Z) :
  0 < items_per_page ->
  (page < total_pages bookings items_per_page
   <-> page * items_per_page < Z.of_nat (List.length bookings)).
Proof.
  intros Hk. unfold total_pages.
  set (n := Z.of_nat (List.length bookings)).
  pose proof (Z.div_mod (n - 1) items_per_page ltac:(lia)) as D.
  pose proof (Z.mod_pos_bound (n - 1) items_per_page Hk) as M.
  split; intros H; nia.
Qed.

(** X15: the number of pages the two listing pages compute is the
    number of pages that show something: for a positive page size, page
    [page] (from 0) holds a booking exactly when [page < total_pages];
    every page before the last is full, and a list without bookings has
    no page. *)
Theorem total_pages_counts_the_pages (bookings : list Booking.t)
    (page items_per_page : Z) :
  0 <= page -> 0 < items_per_page ->
  let bookings_on_page :=
    slice bookings (page * items_per_page) (page * items_per_page + items_per_page) in
  (bookings_on_page <> [] <-> page < total_pages bookings items_per_page)
  /\ (page < total_pages bookings items_per_page - 1 ->
      Z.of_nat (List.length bookings_on_page) = items_per_page)
  /\ (bookings = [] <-> total_pages bookings items_per_page = 0)
  /\ 0 <= total_pages bookings items_per_page.
Proof.
  intros Hp Hk. cbn zeta. rewrite slice_page by assumption.
  pose proof (total_pages_spec bookings items_per_page page Hk) as T.
  pose proof (total_pages_spec bookings items_per_page (page + 1) Hk) as T1.
  pose proof (total_pages_spec bookings items_per_page 0 Hk) as T0.
  pose proof (total_pages_spec bookings items_per_page (-1) Hk) as Tm.
  assert (L : List.length (firstn (Z.to_nat items_per_page)
                             (skipn (Z.to_nat (page * items_per_page)) bookings))
              = Nat.min (Z.to_nat items_per_page)
                  (List.length bookings - Z.to_nat (page * items_per_page)))
    by now rewrite length_firstn, length_skipn.
  assert (Hs : 0 <= page * items_per_page) by nia.
  split; [|split; [|split]].
  - rewrite T. split.
    + intros H. destruct (Z.lt_ge_cases (page * items_per_page)
                            (Z.of_nat (List.length bookings))); [assumption|].
      destruct H. apply length_zero_iff_nil. rewrite L. lia.
    + intros H E. apply (f_equal (@List.length _)) in E. rewrite L in E.
      cbn [List.length] in E. lia.
  - intros H. rewrite L. lia.
  - split.
    + intros ->. cbn [List.length] in *. lia.
    + intros E. destruct bookings as [|b l]; [reflexivity|].
      cbn [List.length] in *. lia.
  - lia.
Qed.

Lemma render_cards_all db : forall bookings_on_page i,
  (forall b, In b bookings_on_page -> exists c, booking_card db b = Return c) ->
  exists cards,
    render_cards db i bookings_on_page
    = (combine (map (fun j => (j mod 3)%nat) (seq i (List.length bookings_on_page)))
         cards,
       Return tt)
    /\ List.length cards = List.length bookings_on_page
    /\ forall j b, nth_error bookings_on_page j = Some b ->
                   exists c, nth_error cards j = Some c /\ booking_card db b = Return c.
Proof.
  induction bookings_on_page as [|b l IH]; intros i H.
  - exists []. repeat split. intros [|j] b; discriminate.
  - destruct (H b (or_introl eq_refl)) as (c & Ec).
    destruct (IH (S i) (fun b' Hb' => H b' (or_intror Hb'))) as (cards & E & Hl & Hn).
    exists (c :: cards). cbn [render_cards]. rewrite Ec, E. cbn.
    split; [reflexivity|]. split; [now rewrite Hl|].
    intros [|j] b' Hb'; cbn in *.
    + injection Hb' as <-. now exists c.
    + now apply Hn.
Qed.

Lemma render_cards_raises db : forall before i booking after,
  (forall b, In b before -> exists c, booking_card db b = Return c) ->
  booking_card db booking = Raise AttributeError ->
  exists cards,
    render_cards db i (before ++ booking :: after)
    = (combine (map (fun j => (j mod 3)%nat) (seq i (List.length before))) cards,
       Raise AttributeError)
    /\ List.length cards = List.length before.
Proof.
  induction before as [|b l IH]; intros i booking after H E.
  - exists []. cbn [app render_cards]. now rewrite E.
  - destruct (H b (or_introl eq_refl)) as (c & Ec).
    destruct (IH (S i) booking after (fun b' Hb' => H b' (or_intror Hb')) E)
      as (cards & Er & Hl).
    exists (c :: cards). cbn [app render_cards]. rewrite Ec, Er. cbn.
    split; [reflexivity | now rewrite Hl].
Qed.

Lemma nth_error_zip {A B : Type} (l : list A) (l' : list B) : forall j,
  nth_error (combine l l') j
  = match nth_error l j, nth_error l' j with
    | Some a, Some b => Some (a, b)
    | _, _ => None
    end.
Proof.
  revert l'. induction l as [|a l IH]; intros [|b l'] [|j]; cbn; try reflexivity.
  - now destruct (nth_error l j).
  - apply IH.
Qed.

Section Cards.

Context {bcrypt : Bcrypt}.

Lemma booking_card_found db b user :
  consistent db -> In b (bookings db) -> user_by_id db (Booking.user_id b) = Some user ->
  exists slot,
    slot_by_id db (Booking.slot_id b) = Some slot
    /\ booking_card db b
       = Return (mkCard (Booking.booking_id b) (Slot.date slot) (Slot.start_time slot)
                   (Slot.end_time slot) (User.name user)).
Proof.
  intros C Hb Hu.
  destruct (slot_by_id_exists db (Booking.slot_id b) (booked_exists db C b Hb))
    as (slot & Es).
  exists slot. split; [exact Es|]. unfold booking_card. now rewrite Es, Hu.
Qed.

(** X16: in every reachable state, a page of bookings of the table
    whose users all exist is rendered in full and raises nothing: one
    card per booking of the page, in order, the card at position [j]
    written to column [j mod 3] with the id of the booking, the date and
    the times of its slot and the name of its user. *)
Theorem render_bookings_as_cards_writes_the_page
    (db : Database) (shown : list Booking.t) (page items_per_page : Z) :
  reachable db -> 0 <= page -> 0 < items_per_page ->
  let bookings_on_page :=
    slice shown (page * items_per_page) (page * items_per_page + items_per_page) in
  (forall b, In b bookings_on_page ->
             In b (bookings db) /\ user_by_id db (Booking.user_id b) <> None) ->
  let written := fst (render_bookings_as_cards db shown page items_per_page) in
  snd (render_bookings_as_cards db shown page items_per_page) = Return tt
  /\ List.length written = List.length bookings_on_page
  /\ forall j b,
       nth_error bookings_on_page j = Some b ->
       exists slot user,
         slot_by_id db (Booking.slot_id b) = Some slot
         /\ user_by_id db (Booking.user_id b) = Some user
         /\ nth_error written j
            = Some ((j mod 3)%nat,
                    mkCard (Booking.booking_id b) (Slot.date slot)
                      (Slot.start_time slot) (Slot.end_time slot) (User.name user)).
Proof.
  intros R Hp Hk bookings_on_page H. apply reachable_consistent in R.
  unfold render_bookings_as_cards. fold bookings_on_page.
  destruct (render_cards_all db bookings_on_page 0%nat) as (cards & E & Hl & Hn).
  { intros b Hb. destruct (H b Hb) as [Hin Hu].
    destruct (user_by_id db (Booking.user_id b)) as [user|] eqn:Eu; [|now destruct Hu].
    destruct (booking_card_found db b user R Hin Eu) as (slot & _ & Ec). eauto. }
  cbn zeta. rewrite E. cbn [fst snd].
  split; [reflexivity|]. split.
  - rewrite length_combine, length_map, length_seq, Hl. apply Nat.min_id.
  - intros j b Hb. destruct (H b (nth_error_In _ _ Hb)) as [Hin Hu].
    destruct (user_by_id db (Booking.user_id b)) as [user|] eqn:Eu; [|now destruct Hu].
    destruct (booking_card_found db b user R Hin Eu) as (slot & Es & Ec).
    exists slot, user. split; [exact Es|]. split; [reflexivity|].
    destruct (Hn j b Hb) as (c & Hc & Ec'). rewrite Ec in Ec'. injection Ec' as <-.
    assert (Hj : (j < List.length bookings_on_page)%nat)
      by (apply nth_error_Some; now rewrite Hb).
    rewrite nth_error_zip, nth_error_map, nth_error_seq, Hc.
    destruct (Nat.ltb_spec j (List.length bookings_on_page)); [reflexivity|lia].
Qed.

(** X17: a booking whose user row does not exist, as [book_slot] leaves
    one behind when it is called with an unknown user id, breaks the page
    it is on: the cards of the bookings before it on the page are
    written, then [AttributeError] is raised and the bookings after it
    are not shown. *)
Theorem render_bookings_as_cards_stops_at_missing_user
    (db : Database) (shown : list Booking.t) (page items_per_page : Z)
    (before after : list Booking.t) (booking : Booking.t) :
  reachable db ->
  slice shown (page * items_per_page) (page * items_per_page + items_per_page)
  = before ++ booking :: after ->
  (forall b, In b before ->
             In b (bookings db) /\ user_by_id db (Booking.user_id b) <> None) ->
  user_by_id db (Booking.user_id booking) = None ->
  snd (render_bookings_as_cards db shown page items_per_page) = Raise AttributeError
  /\ List.length (fst (render_bookings_as_cards db shown page items_per_page))
     = List.length before.
Proof.
  intros R Es H Hu. apply reachable_consistent in R.
  unfold render_bookings_as_cards. cbn zeta. rewrite Es.
  destruct (render_cards_raises db before 0%nat booking after) as (cards & E & Hl).
  - intros b Hb. destruct (H b Hb) as [Hin Hb'].
    destruct (user_by_id db (Booking.user_id b)) as [user|] eqn:Eu; [|now destruct Hb'].
    destruct (booking_card_found db b user R Hin Eu) as (slot & _ & Ec). eauto.
  - unfold booking_card. rewrite Hu. now destruct (slot_by_id db _).
  - rewrite E. cbn [fst snd]. split; [reflexivity|].
    rewrite length_combine, length_map, length_seq, Hl. apply Nat.min_id.
Qed.

End Cards.

(** * The pages of the user and the owner *)

Lemma filter_absorbs {A : Type} (p q : A -> bool) (l : list A) :
  (forall x, In x l -> p x = true -> q x = true) ->
  filter p (filter q l) = filter p l.
Proof.
  induction l as [|a l IH]; intros H; [reflexivity|]. cbn [filter].
  assert (IH' : filter p (filter q l) = filter p l)
    by (apply IH; intros x Hx; apply H; now right).
  destruct (p a) eqn:Ep.
  - rewrite (H a (or_introl eq_refl) Ep). cbn [filter]. now rewrite Ep, IH'.
  - destruct (q a); cbn [filter]; now rewrite ?Ep, IH'.
Qed.

Lemma cancel_a_booking_found db uid idx b :
  consistent db ->
  nth_error (bookings_of_user db uid) idx = Some b ->
  In b (bookings db) /\ Booking.user_id b = uid
  /\ cancel_a_booking db uid idx
     = (delete_booking (update_availability db (Booking.slot_id b) true)
          (Booking.booking_id b),
        Shown booking_cancelled).
Proof.
  intros C Hn.
  assert (Hb : In b (bookings db) /\ Booking.user_id b = uid).
  { apply nth_error_In in Hn. unfold bookings_of_user in Hn.
    apply filter_In in Hn as [Hb Hu]. now apply Z.eqb_eq in Hu. }
  split; [apply Hb|]. split; [apply Hb|].
  unfold cancel_a_booking.
  assert (F : forallb (fun b => match slot_by_id db (Booking.slot_id b) with
                                | Some _ => true
                                | None => false
                                end) (bookings_of_user db uid) = true).
  { apply forallb_forall. intros x Hx. unfold bookings_of_user in Hx.
    apply filter_In in Hx as [Hx _].
    destruct (slot_by_id_exists db (Booking.slot_id x) (booked_exists db C x Hx))
      as (s & ->).
    reflexivity. }
  destruct (bookings_of_user db uid) as [|b0 l]; [destruct idx; discriminate|].
  rewrite F, Hn.
  destruct (cancel_booking_found db (Booking.booking_id b) b C (proj1 Hb) eq_refl)
    as (s & _ & ->).
  reflexivity.
Qed.

Section Pages.

Context {bcrypt : Bcrypt}.

(** X18: in every reachable state the "Cancel Booking" page cancels the
    booking selected in the list of the user's bookings and answers that
    it is cancelled, never that cancelling failed: the booking leaves
    the table and the user's list, every other booking stays, the lists
    of the other users are what they were, and the slot of the booking
    is available again. *)
Theorem cancel_a_booking_cancels_the_selection
    (db : Database) (user_id : Z) (selected_booking_index : nat)
    (selected_booking : Booking.t) :
  reachable db ->
  nth_error (bookings_of_user db user_id) selected_booking_index
  = Some selected_booking ->
  let db' := fst (cancel_a_booking db user_id selected_booking_index) in
  snd (cancel_a_booking db user_id selected_booking_index) = Shown booking_cancelled
  /\ (forall b, In b (bookings db') <-> In b (bookings db) /\ b <> selected_booking)
  /\ ~ In selected_booking (bookings_of_user db' user_id)
  /\ (forall u, u <> user_id -> bookings_of_user db' u = bookings_of_user db u)
  /\ exists slot,
       slot_by_id db (Booking.slot_id selected_booking) = Some slot
       /\ slot_by_id db' (Booking.slot_id selected_booking)
          = Some (Slot.with_availability true slot).
Proof.
  intros R Hn. apply reachable_consistent in R.
  destruct (cancel_a_booking_found db user_id selected_booking_index selected_booking
              R Hn) as (Hb & Hu & E).
  cbn zeta. rewrite E. cbn [fst snd].
  pose proof (bookings_after_cancel db (Booking.slot_id selected_booking)
                (Booking.booking_id selected_booking) selected_booking R Hb eq_refl)
    as Hafter.
  split; [reflexivity|]. split; [exact Hafter|]. split; [|split].
  - unfold bookings_of_user. intros Hin. apply filter_In in Hin as [Hin _].
    apply Hafter in Hin. now destruct Hin.
  - intros u Hne. unfold bookings_of_user, delete_booking, update_availability.
    cbn [bookings]. apply filter_absorbs.
    intros x Hx Hxu. apply negb_true_iff, Z.eqb_neq. intros Eid.
    assert (x = selected_booking)
      by (apply (NoDup_map_eq Booking.booking_id (bookings db));
          [apply (booking_ids_unique db R)|exact Hx|exact Hb|exact Eid]).
    subst x. apply Z.eqb_eq in Hxu. congruence.
  - destruct (slot_by_id_exists db (Booking.slot_id selected_booking)
                (booked_exists db R _ Hb)) as (slot & Es).
    exists slot. split; [exact Es|].
    now rewrite slot_after_cancel, Z.eqb_refl, Es.
Qed.

(** X19: in every reachable state every booking has its slot, which is
    unavailable, and the owner's "Check Bookings" query lists the booking
    for the date of that slot and for no other date. *)
Theorem booking_is_listed_on_the_date_of_its_slot (db : Database) (b : Booking.t) :
  reachable db -> In b (bookings db) ->
  exists slot,
    slot_by_id db (Booking.slot_id b) = Some slot
    /\ Slot.availability slot = false
    /\ forall selected_date,
         In b (bookings_on db selected_date) <-> selected_date = Slot.date slot.
Proof.
  intros R Hb. apply reachable_consistent in R.
  destruct (slot_by_id_exists db (Booking.slot_id b) (booked_exists db R b Hb))
    as (slot & Es).
  exists slot. split; [exact Es|].
  apply slot_by_id_some in Es as [Hs Eid].
  split; [now apply (booked_unavailable db R b slot)|].
  intros d. unfold bookings_on. rewrite filter_In, existsb_exists. split.
  - intros (_ & s & Hin & Hk). apply andb_true_iff in Hk as [Hi Hd].
    apply Z.eqb_eq in Hi. apply date_eqb_eq in Hd.
    assert (s = slot)
      by (apply (NoDup_map_eq Slot.slot_id (slots db));
          [apply (slot_ids_unique db R)|exact Hin|exact Hs|congruence]).
    now subst.
  - intros ->. split; [exact Hb|]. exists slot. split; [exact Hs|].
    now rewrite Eid, Z.eqb_refl, date_eqb_refl.
Qed.

End Pages.

(** * The rows of users and bookings *)

Lemma ledger_same_rows db db' :
  users db' = users db -> bookings db' = bookings db -> ledger db -> ledger db'.
Proof.
  intros Eu Eb [U1 U2 B1 B2 B3].
  split; unfold user_ids, booking_ids in *; rewrite ?Eu, ?Eb; assumption.
Qed.

Lemma ledger_add_booking db uid sid : ledger db -> ledger (add_booking db uid sid).
Proof.
  intros [U1 U2 B1 B2 B3].
  assert (E : booking_ids (add_booking db uid sid)
              = booking_ids db ++ [next_rowid (booking_ids db)])
    by (unfold booking_ids, add_booking; cbn [bookings]; now rewrite map_app).
  split; try assumption.
  - rewrite E. apply sorted_snoc; [exact B1|].
    intros i Hi. apply max_id_ge in Hi. unfold next_rowid. lia.
  - rewrite E. intros i Hi. apply in_app_or in Hi as [Hi|[<-|[]]]; [now apply B2|].
    unfold next_rowid. pose proof (max_id_nonneg (booking_ids db)). lia.
  - unfold add_booking; cbn [bookings]. intros b Hb.
    apply in_app_or in Hb as [Hb|[<-|[]]]; [now apply B3 | reflexivity].
Qed.

Lemma ledger_delete_booking db bid : ledger db -> ledger (delete_booking db bid).
Proof.
  intros [U1 U2 B1 B2 B3]. split; try assumption.
  - unfold booking_ids, delete_booking; cbn [bookings]. now apply sorted_filter.
  - unfold booking_ids, delete_booking; cbn [bookings]. intros i Hi.
    apply in_map_iff in Hi as (b & <- & Hb). apply filter_In in Hb as [Hb _].
    apply B2. unfold booking_ids. now apply in_map.
  - unfold delete_booking; cbn [bookings]. intros b Hb.
    apply filter_In in Hb as [Hb _]. now apply B3.
Qed.

Lemma ledger_book_loop uid ids : forall db ok,
  ledger db -> ledger (fst (fold_left (book_one uid) ids (db, ok))).
Proof.
  induction ids as [|sid ids IH]; intros db ok L; [exact L|].
  cbn [fold_left]. unfold book_one at 2.
  destruct (available_slot db sid) as [slot|]; [|now apply IH].
  apply IH, ledger_add_booking.
  now apply (ledger_same_rows db).
Qed.

Lemma sorted_NoDup (ids : list Z) : StronglySorted Z.lt ids -> NoDup ids.
Proof.
  induction 1 as [|a ids S IH Ha]; constructor; [|exact IH].
  intros Hin. rewrite Forall_forall in Ha. specialize (Ha a Hin). lia.
Qed.

Section Ledger.

Context {bcrypt : Bcrypt}.

Lemma ledger_register db salt name email phone password role :
  ledger db -> ledger (fst (register_user db salt name email phone password role)).
Proof.
  intros L.
  destruct (register_user_cases db salt name email phone password role)
    as [[_ ->]|[[_ ->]|(_ & _ & ->)]]; cbn [fst]; [exact L|exact L|].
  destruct L as [U1 U2 B1 B2 B3].
  assert (E : user_ids (mkDatabase
                          (users db ++ [User.mk (next_rowid (user_ids db)) name email
                                          phone (hashpw password salt) role])
                          (slots db) (bookings db))
              = user_ids db ++ [next_rowid (user_ids db)])
    by (unfold user_ids; cbn [users]; now rewrite map_app).
  split; try assumption.
  - rewrite E. apply sorted_snoc; [exact U1|].
    intros i Hi. apply max_id_ge in Hi. unfold next_rowid. lia.
  - rewrite E. intros i Hi. apply in_app_or in Hi as [Hi|[<-|[]]]; [now apply U2|].
    unfold next_rowid. pose proof (max_id_nonneg (user_ids db)). lia.
Qed.

Lemma ledger_step db a : ledger db -> ledger (step db a).
Proof.
  intros L. destruct a as [salt name email phone password role|d|uid ids|bid|d h|d i];
    cbn [step].
  - now apply ledger_register.
  - unfold get_available_slots; cbn [fst].
    destruct (generate_others db d) as [Eu Eb]. now apply (ledger_same_rows db).
  - rewrite book_slot_database. unfold book_loop. now apply ledger_book_loop.
  - unfold cancel_booking. destruct (booking_by_id db bid) as [b|]; [|exact L].
    destruct (slot_by_id db (Booking.slot_id b)) as [s|]; [|exact L]. cbn [fst].
    apply ledger_delete_booking. now apply (ledger_same_rows db).
  - unfold create_slot. destruct ((0 <=? h) && (h <=? 23)); [|exact L].
    destruct (find _ (slots db)); [exact L|]. now apply (ledger_same_rows db).
  - unfold block_slot. destruct (nth_error (slots_on db d) i); [|exact L].
    now apply (ledger_same_rows db).
Qed.

Lemma reachable_ledger db : reachable db -> ledger db.
Proof.
  induction 1 as [|db a R IH]; [|now apply ledger_step].
  split; cbn; try constructor; intros ? [].
Qed.

(** X20: in every reachable state the booking rows are in strictly
    increasing order of their ids, which are positive, so that the
    bookings a page lists for a user come in the order of their ids;
    every booking is confirmed, and a new booking gets an id above all
    those in the table. *)
Theorem bookings_are_confirmed_and_in_id_order (db : Database) (user_id : Z) :
  reachable db ->
  StronglySorted Z.lt (map Booking.booking_id (bookings_of_user db user_id))
  /\ (forall b, In b (bookings db) ->
                Booking.confirmation_status b = true
                /\ 0 < Booking.booking_id b < next_rowid (booking_ids db)).
Proof.
  intros R. apply reachable_ledger in R. destruct R as [_ _ B1 B2 B3]. split.
  - unfold bookings_of_user. now apply sorted_filter.
  - intros b Hb. split; [now apply B3|].
    assert (Hi : In (Booking.booking_id b) (booking_ids db))
      by (unfold booking_ids; now apply in_map).
    split; [now apply B2|]. apply max_id_ge in Hi. unfold next_rowid. lia.
Qed.

(** X21: in every reachable state the two lookups of a user find each
    user of the table back: by its user id, as [book_slot] and the cards
    look it up, and by its email, as a login does; user ids are positive
    and no two users share one. *)
Theorem user_lookups_find_the_user (db : Database) (u : User.t) :
  reachable db -> In u (users db) ->
  user_by_id db (User.user_id u) = Some u
  /\ user_by_email db (User.email u) = Some u
  /\ 0 < User.user_id u
  /\ NoDup (user_ids db).
Proof.
  intros R Hu. pose proof (reachable_ledger db R) as [U1 U2 _ _ _].
  apply reachable_consistent in R.
  assert (N : NoDup (user_ids db)) by now apply sorted_NoDup.
  split; [|split; [|split]].
  - now apply (find_by_key User.user_id (users db)).
  - apply user_by_email_unique; [apply (emails_unique db R)|exact Hu|reflexivity].
  - apply U2. unfold user_ids. now apply in_map.
  - exact N.
Qed.

End Ledger.

(** * The "Book a Slot" page *)

Lemma two_digits_inj (a b : Z) :
  0 <= a < 100 -> 0 <= b < 100 -> two_digits a = two_digits b -> a = b.
Proof.
  intros Ha Hb E. unfold two_digits in E. injection E as E1 E2.
  assert (D : forall n, 0 <= n < 100 ->
                        (48 + Z.to_N (n / 10) < 256)%N /\ (48 + Z.to_N (n mod 10) < 256)%N).
  { intros n Hn.
    pose proof (Z.mod_pos_bound n 10 ltac:(lia)).
    assert (0 <= n / 10 < 10)
      by (split; [apply Z.div_pos; lia | apply Z.div_lt_upper_bound; lia]).
    lia. }
  assert (F : forall x y, (x < 256)%N -> (y < 256)%N ->
                          ascii_of_N x = ascii_of_N y -> x = y).
  { intros x y Hx Hy H. apply (f_equal N_of_ascii) in H.
    now rewrite !N_ascii_embedding in H. }
  destruct (D a Ha) as [A1 A2], (D b Hb) as [B1 B2].
  apply (F _ _ A1 B1) in E1. apply (F _ _ A2 B2) in E2.
  assert (0 <= a / 10) by (apply Z.div_pos; lia).
  assert (0 <= b / 10) by (apply Z.div_pos; lia).
  pose proof (Z.mod_pos_bound a 10 ltac:(lia)).
  pose proof (Z.mod_pos_bound b 10 ltac:(lia)).
  rewrite (Z.div_mod a 10), (Z.div_mod b 10) by lia. lia.
Qed.

Lemma slot_option_start (s1 s2 : Slot.t) (h1 h2 : Z) :
  0 <= h1 <= 23 -> 0 <= h2 <= 23 ->
  Slot.start_time s1 = mktime h1 0 -> Slot.start_time s2 = mktime h2 0 ->
  slot_option s1 = slot_option s2 -> Slot.start_time s1 = Slot.start_time s2.
Proof.
  intros H1 H2 E1 E2 E.
  assert (P : forall s h, Slot.start_time s = mktime h 0 ->
                          substring 0 2 (slot_option s) = two_digits h).
  { intros s h Es. unfold slot_option, strftime. rewrite Es. reflexivity. }
  apply (f_equal (substring 0 2)) in E. rewrite (P s1 h1 E1), (P s2 h2 E2) in E.
  rewrite E1, E2. f_equal. apply two_digits_inj; [lia|lia|exact E].
Qed.

Lemma index_of_row {Row : Type} (label : Row -> string) (rows : list Row) (r : Row) :
  (forall x y, In x rows -> In y rows -> label x = label y -> x = y) ->
  In r rows ->
  exists i, index (label r) (map label rows) = Some i /\ nth_error rows i = Some r.
Proof.
  induction rows as [|a rows IH]; intros Inj Hr; [destruct Hr|].
  cbn [map index]. destruct (String.eqb (label a) (label r)) eqn:E.
  - apply String.eqb_eq in E.
    assert (a = r) by (apply Inj; [now left|exact Hr|exact E]).
    subst a. now exists 0%nat.
  - destruct Hr as [->|Hr]; [now rewrite String.eqb_refl in E|].
    destruct IH as (i & Hi & Hn); [|exact Hr|].
    + intros x y Hx Hy. apply Inj; now right.
    + exists (S i). now rewrite Hi.
Qed.

Lemma selected_ids_of_rows (available chosen : list Slot.t) :
  (forall x y, In x available -> In y available ->
               slot_option x = slot_option y -> x = y) ->
  incl chosen available ->
  exists selected_slot_indices,
    selected_indices (map slot_option available) (map slot_option chosen)
    = Return selected_slot_indices
    /\ subscripts (map Slot.slot_id available) selected_slot_indices
       = Some (map Slot.slot_id chosen).
Proof.
  intros Inj. induction chosen as [|s chosen IH]; intros Hin.
  - now exists [].
  - destruct IH as (l & E1 & E2); [intros x Hx; apply Hin; now right|].
    destruct (index_of_row slot_option available s Inj (Hin s (or_introl eq_refl)))
      as (i & Ei & En).
    exists (i :: l). cbn [map selected_indices subscripts].
    rewrite Ei, E1, nth_error_map, En. cbn [option_map]. now rewrite E2.
Qed.

Lemma available_slot_of_row db s :
  NoDup (slot_ids db) -> In s (slots db) -> Slot.availability s = true ->
  available_slot db (Slot.slot_id s) = Some s.
Proof.
  intros U Hs Ha. destruct (available_slot db (Slot.slot_id s)) as [s'|] eqn:E.
  - apply available_slot_some in E as (Hs' & Eid & _). f_equal.
    now apply (NoDup_map_eq Slot.slot_id (slots db)).
  - rewrite (available_slot_none db _ E s Hs eq_refl) in Ha. discriminate.
Qed.

Lemma book_loop_rows uid : forall chosen db ok,
  NoDup (map Slot.slot_id chosen) ->
  (forall s, In s chosen -> available_slot db (Slot.slot_id s) = Some s) ->
  snd (fold_left (book_one uid) (map Slot.slot_id chosen) (db, ok))
  = ok ++ map (Slot.with_availability false) chosen.
Proof.
  induction chosen as [|s chosen IH]; intros db ok N A; cbn [map fold_left].
  - now rewrite app_nil_r.
  - cbn [map] in N. apply NoDup_cons_iff in N as [Hs N].
    rewrite (book_one_hit uid db ok _ s (A s (or_introl eq_refl))).
    rewrite IH; [now rewrite <- app_assoc|exact N|].
    intros s' Hs'. unfold add_booking.
    change (available_slot (update_availability db (Slot.slot_id s) false)
              (Slot.slot_id s') = Some s').
    rewrite available_slot_update_false.
    destruct (Slot.slot_id s' =? Slot.slot_id s) eqn:E.
    + apply Z.eqb_eq in E. destruct Hs. rewrite <- E. now apply in_map.
    + apply A. now right.
Qed.

Lemma unique_rows_unique_keys {Row Key : Type} (key : Row -> Key) (rows : list Row) :
  (forall x y, In x rows -> In y rows -> key x = key y -> x = y) ->
  NoDup rows -> NoDup (map key rows).
Proof.
  induction rows as [|r rows IH]; intros Inj N; cbn [map]; [constructor|].
  apply NoDup_cons_iff in N as [Hr N]. apply NoDup_cons.
  - intros Hin. apply in_map_iff in Hin as (r' & E & Hr').
    assert (r' = r) by (apply Inj; [now right|now left|exact E]). now subst.
  - apply IH; [|exact N]. intros x y Hx Hy. apply Inj; now right.
Qed.

Section BookPage.

Context {bcrypt : Bcrypt}.

(** X22: in every reachable state, for a logged-in user of role "user"
    whose object in the session state is readable and whose row exists,
    "Book Now" books the slots the user chose among the available slots
    the page offers for the date, each once: the labels of the offered
    slots are distinct, so the label-to-index-to-id translation of the
    page gives the ids of the chosen slots, [book_slot] returns those
    slots, and the answer counts them.  With no slot chosen the page
    answers that slots are already booked; with no available slot on the
    date it says so and books nothing.  When the object in the session
    state is expired the run raises [DetachedInstanceError] at the
    header and nothing is booked. *)
Theorem book_a_slot_books_the_selection
    (db : Database) (selected_date : date) (chosen : list Slot.t) (user : User.t) :
  reachable db ->
  User.role user = "user"%string ->
  user_by_id db (User.user_id user) = Some user ->
  let db1 := fst (get_available_slots db selected_date) in
  let available_slots :=
    filter Slot.availability (snd (get_available_slots db selected_date)) in
  NoDup chosen -> incl chosen available_slots ->
  let page := book_a_slot db (Readable user) selected_date (map slot_option chosen) in
  NoDup (map slot_option available_slots)
  /\ fst page = fst (book_slot db1 (User.user_id user) (map Slot.slot_id chosen))
  /\ snd (book_slot db1 (User.user_id user) (map Slot.slot_id chosen))
     = Return (map (Slot.with_availability false) chosen)
  /\ snd page
     = Shown match available_slots, chosen with
             | [], _ => no_available_slots
             | _ :: _, [] => already_booked
             | _ :: _, _ :: _ => booking_confirmed (List.length chosen)
             end
  /\ book_a_slot db Expired selected_date (map slot_option chosen)
     = (db, [], Crashed DetachedInstanceError).
Proof.
  intros R Hrole Hu db1 available_slots N Hin page.
  set (user_id := User.user_id user) in *.
  assert (R1 : reachable db1) by (apply (reachable_step db (GetSlots selected_date) R)).
  pose proof (reachable_timetable db1 R1) as T.
  pose proof (reachable_consistent db1 R1) as C.
  assert (Hav : forall s, In s available_slots ->
                          In s (slots db1) /\ Slot.date s = selected_date
                          /\ Slot.availability s = true).
  { intros s Hs. apply filter_In in Hs as [Hs Ha].
    unfold get_available_slots in Hs; cbn [snd] in Hs.
    apply filter_In in Hs as [Hs Hd]. apply date_eqb_eq in Hd. auto. }
  assert (Inj : forall x y, In x available_slots -> In y available_slots ->
                            slot_option x = slot_option y -> x = y).
  { intros x y Hx Hy E. destruct (Hav x Hx) as (Sx & Dx & _), (Hav y Hy) as (Sy & Dy & _).
    destruct (one_hour db1 T x Sx) as (hx & Bx & Ex & _).
    destruct (one_hour db1 T y Sy) as (hy & By & Ey & _).
    apply (NoDup_map_eq day_and_hour (slots db1));
      [apply (hours_unique db1 T)|exact Sx|exact Sy|].
    unfold day_and_hour.
    now rewrite Dx, Dy, (slot_option_start x y hx hy Bx By Ex Ey E). }
  assert (Nav : NoDup available_slots).
  { apply (NoDup_map_inv Slot.slot_id). unfold available_slots, get_available_slots.
    cbn [snd]. apply unique_key_filter. unfold slots_on. apply unique_key_filter.
    apply (slot_ids_unique db1 C). }
  assert (Hu1 : user_by_id db1 user_id = Some user).
  { unfold user_by_id, db1, get_available_slots; cbn [fst].
    now rewrite (proj1 (generate_others db selected_date)). }
  assert (Nid : NoDup (map Slot.slot_id chosen)).
  { apply unique_rows_unique_keys; [|exact N].
    intros x y Hx Hy E.
    apply (NoDup_map_eq Slot.slot_id (slots db1));
      [apply (slot_ids_unique db1 C)|apply Hav, Hin, Hx|apply Hav, Hin, Hy|exact E]. }
  assert (Hbooked : snd (book_slot db1 user_id (map Slot.slot_id chosen))
                    = Return (map (Slot.with_availability false) chosen)).
  { rewrite (book_slot_found db1 user_id _ user Hu1). cbn [snd]. f_equal.
    unfold book_loop. rewrite book_loop_rows; [reflexivity|exact Nid|].
    intros s Hs. destruct (Hav s (Hin s Hs)) as (S1 & _ & A1).
    apply available_slot_of_row; [apply (slot_ids_unique db1 C)|exact S1|exact A1]. }
  assert (Epage : page
                  = (fst (book_slot db1 user_id (map Slot.slot_id chosen)),
                     Shown match available_slots, chosen with
                           | [], _ => no_available_slots
                           | _ :: _, [] => already_booked
                           | _ :: _, _ :: _ => booking_confirmed (List.length chosen)
                           end)).
  { subst page. unfold book_a_slot. rewrite Hrole, String.eqb_refl.
    fold user_id. unfold book_now.
    change (get_available_slots db selected_date)
      with (db1, snd (get_available_slots db selected_date)).
    cbv beta iota zeta. fold available_slots.
    destruct (selected_ids_of_rows available_slots chosen Inj Hin) as (idxs & E1 & E2).
    clearbody available_slots db1.
    destruct available_slots as [|a l].
    - destruct chosen as [|s chosen]; [reflexivity|destruct (Hin s (or_introl eq_refl))].
    - cbn [map]. cbn [map] in E1, E2. rewrite E1, E2.
      destruct (book_slot db1 user_id (map Slot.slot_id chosen)) as [[db2 sent] r].
      cbn [snd] in Hbooked. subst r. cbn [fst]. f_equal.
      destruct chosen as [|s chosen]; [reflexivity|].
      cbn [map List.length]. now rewrite length_map. }
  split; [now apply unique_rows_unique_keys|].
  split; [now rewrite Epage|]. split; [exact Hbooked|].
  split; [now rewrite Epage | reflexivity].
Qed.

End BookPage.

(** * The further properties on the example databases *)

Lemma busy_db_reachable : reachable busy_db.
Proof. unfold busy_db. apply reachable_run, example_db_reachable. Qed.

Lemma stray_db_reachable : reachable stray_db.
Proof. unfold stray_db. apply reachable_run, example_db_reachable. Qed.

Lemma one_slot_per_date_and_start_time_witness :
  reachable booked_db
  /\ In (Slot.with_availability false hour_10) (slots booked_db)
  /\ Slot.with_availability false hour_10 = Slot.with_availability false hour_10.
Proof.
  assert (H : In (Slot.with_availability false hour_10) (slots booked_db))
    by (vm_compute; do 10 right; left; reflexivity).
  split; [exact booked_db_reachable|]. split; [exact H|].
  exact (one_slot_per_date_and_start_time booked_db _ _ booked_db_reachable H H
           eq_refl eq_refl).
Defined.

Lemma every_slot_lasts_one_hour_witness :
  reachable example_db /\ In hour_10 (slots example_db)
  /\ exists h, 0 <= h <= 23
               /\ Slot.start_time hour_10 = mktime h 0
               /\ Slot.end_time hour_10 = mktime ((h + 1) mod 24) 0.
Proof.
  assert (H : In hour_10 (slots example_db))
    by (vm_compute; do 10 right; left; reflexivity).
  split; [exact example_db_reachable|]. split; [exact H|].
  exact (every_slot_lasts_one_hour example_db hour_10 example_db_reachable H).
Defined.

Lemma get_available_slots_in_id_order_witness :
  reachable blocked_db
  /\ snd (get_available_slots blocked_db june_1) <> []
  /\ StronglySorted Z.lt (map Slot.slot_id (snd (get_available_slots blocked_db june_1))).
Proof.
  destruct (get_available_slots_in_id_order blocked_db june_1 blocked_db_reachable)
    as (H1 & H2 & _).
  split; [exact blocked_db_reachable|]. split; [exact H1 | exact H2].
Defined.

Lemma create_slot_refuses_duplicates_witness :
  0 <= 5 <= 23
  /\ create_slot example_db june_1 5 = (example_db, Return false)
  /\ create_slot (fst (create_slot example_db june_2 5)) june_2 5
     = (fst (create_slot example_db june_2 5), Return false).
Proof.
  assert (H : 0 <= 5 <= 23) by lia.
  destruct (create_slot_refuses_duplicates example_db june_1 5 H) as (_ & H2 & _).
  destruct (create_slot_refuses_duplicates example_db june_2 5 H) as (_ & _ & H3).
  split; [exact H|]. split; [|exact H3].
  apply H2. exists (Slot.mk 6 (mktime 5 0) (mktime 6 0) june_1 true).
  split; [vm_compute; do 5 right; left; reflexivity|]. split; reflexivity.
Defined.

Lemma created_slot_stops_generation_witness :
  0 <= 5 <= 23 /\ slots_on example_db june_2 = []
  /\ snd (get_available_slots (fst (create_slot example_db june_2 5)) june_2)
     = [Slot.mk 25 (mktime 5 0) (mktime 6 0) june_2 true].
Proof.
  assert (H : 0 <= 5 <= 23) by lia.
  assert (E : slots_on example_db june_2 = []) by (vm_compute; reflexivity).
  destruct (created_slot_stops_generation example_db june_2 5 H E) as (_ & H2).
  split; [exact H|]. split; [exact E|]. rewrite H2. vm_compute. reflexivity.
Defined.

Lemma block_slot_only_blocks_witness :
  nth_error (slots_on example_db june_1) 5
  = Some (Slot.mk 6 (mktime 5 0) (mktime 6 0) june_1 true)
  /\ nth_error (slots_on (block_slot example_db june_1 5) june_1) 5
     = Some (Slot.mk 6 (mktime 5 0) (mktime 6 0) june_1 false)
  /\ block_slot (block_slot example_db june_1 5) june_1 5 = block_slot example_db june_1 5.
Proof.
  assert (E : nth_error (slots_on example_db june_1) 5
              = Some (Slot.mk 6 (mktime 5 0) (mktime 6 0) june_1 true))
    by (vm_compute; reflexivity).
  destruct (block_slot_only_blocks example_db june_1 5) as (_ & _ & _ & H4 & H5).
  split; [exact E|]. split; [exact (proj1 (H4 _ E)) | exact H5].
Defined.

Lemma book_slot_nothing_available_witness :
  (forall sid, In sid [11; 99] -> available_slot booked_db sid = None)
  /\ book_slot booked_db 1 [11; 99] = (booked_db, [], Return []).
Proof.
  assert (H : forall sid, In sid [11; 99] -> available_slot booked_db sid = None)
    by (intros sid [<-|[<-|[]]]; vm_compute; reflexivity).
  split; [exact H|]. exact (book_slot_nothing_available booked_db 1 [11; 99] H).
Defined.

Lemma book_slot_books_every_available_slot_witness :
  user_by_id example_db 1 = Some example_user
  /\ NoDup [3; 11]
  /\ (forall sid, In sid [3; 11] -> available_slot example_db sid <> None)
  /\ exists booked added,
       snd (book_slot example_db 1 [3; 11]) = Return booked
       /\ map Slot.slot_id booked = [3; 11]
       /\ map Booking.slot_id added = [3; 11]
       /\ bookings_of_user (fst (fst (book_slot example_db 1 [3; 11]))) 1
          = bookings_of_user example_db 1 ++ added.
Proof.
  assert (Hu : user_by_id example_db 1 = Some example_user) by (vm_compute; reflexivity).
  assert (N : NoDup [3; 11]).
  { constructor; [intros [H|[]]; discriminate|]. constructor; [intros []|constructor]. }
  assert (A : forall sid, In sid [3; 11] -> available_slot example_db sid <> None)
    by (intros sid [<-|[<-|[]]]; vm_compute; discriminate).
  destruct (book_slot_books_every_available_slot example_db 1 [3; 11] example_user Hu N A)
    as (booked & added & H1 & H2 & _ & _ & H5 & H6).
  split; [exact Hu|]. split; [exact N|]. split; [exact A|].
  exists booked, added. split; [exact H1|]. split; [exact H2|]. split; [exact H5 | exact H6].
Defined.

Lemma book_then_cancel_restores_witness :
  reachable example_db
  /\ available_slot example_db 11 = Some hour_10
  /\ cancel_booking (fst (fst (book_slot example_db 1 [11]))) 1
     = (example_db, Return true).
Proof.
  assert (E : available_slot example_db 11 = Some hour_10) by (vm_compute; reflexivity).
  destruct (book_then_cancel_restores example_db 1 11 hour_10 example_db_reachable E)
    as (_ & H2 & _).
  split; [exact example_db_reachable|]. split; [exact E | exact H2].
Defined.

Lemma cancel_booking_twice_witness :
  reachable booked_db
  /\ snd (cancel_booking booked_db 1) = Return true
  /\ cancel_booking (fst (cancel_booking booked_db 1)) 1
     = (fst (cancel_booking booked_db 1), Return false).
Proof.
  destruct (cancel_booking_twice booked_db 1 booked_db_reachable) as (_ & H2).
  split; [exact booked_db_reachable|]. split; [vm_compute; reflexivity | exact H2].
Defined.

Lemma register_then_authenticate_witness :
  ~ In "b@x.org"%string (map User.email (users example_db))
  /\ hash_password "hunter22" "cd" = Return "cdhunter22"%string
  /\ check_password "hunter22" "cdhunter22" = Return true
  /\ authenticate_user
       (fst (register_user example_db "cd" "B" "b@x.org" "777" "hunter22" "owner"))
       "b@x.org" "hunter22"
     = Return (Some (User.mk 2 "B" "b@x.org" "777" "cdhunter22" "owner")).
Proof.
  assert (H : ~ In "b@x.org"%string (map User.email (users example_db)))
    by (vm_compute; intros [H|[]]; discriminate).
  assert (Hh : hash_password "hunter22" "cd" = Return "cdhunter22"%string)
    by (vm_compute; reflexivity).
  assert (P : check_password "hunter22" "cdhunter22" = Return true)
    by (vm_compute; reflexivity).
  destruct (register_then_authenticate example_db "cd" "B" "b@x.org" "777" "hunter22"
              "owner" "cdhunter22" H Hh P) as (_ & H2 & _).
  split; [exact H|]. split; [exact Hh|]. split; [exact P|].
  rewrite H2. vm_compute. reflexivity.
Defined.

Lemma register_keeps_other_logins_witness :
  ("a@x.org" <> "b@x.org" \/ In "a@x.org" (map User.email (users example_db)))%string
  /\ authenticate_user
       (fst (register_user example_db "cd" "B" "b@x.org" "777" "hunter22" "owner"))
       "a@x.org" "secret1"
     = authenticate_user example_db "a@x.org" "secret1".
Proof.
  assert (H : ("a@x.org" <> "b@x.org"
               \/ In "a@x.org" (map User.email (users example_db)))%string)
    by (left; discriminate).
  split; [exact H|].
  exact (proj1 (register_keeps_other_logins example_db "cd" "B" "b@x.org" "777"
                  "hunter22" "owner" "a@x.org" "secret1" H)).
Defined.

Lemma page_of_bookings_witness :
  0 <= 1 /\ 0 < 3 /\ Z.of_nat 0 < 3
  /\ nth_error (slice (bookings busy_db) (1 * 3) (1 * 3 + 3)) 0
     = Some (Booking.mk 4 1 4 true).
Proof.
  assert (H1 : 0 <= 1) by lia. assert (H2 : 0 < 3) by lia.
  assert (H3 : Z.of_nat 0 < 3) by (cbn; lia).
  destruct (page_of_bookings (bookings busy_db) 1 3 0 H1 H2 H3) as (H & _).
  split; [exact H1|]. split; [exact H2|]. split; [exact H3|].
  rewrite H. vm_compute. reflexivity.
Defined.

Lemma total_pages_counts_the_pages_witness :
  0 <= 1 /\ 0 < 3
  /\ total_pages (bookings busy_db) 3 = 2
  /\ slice (bookings busy_db) (1 * 3) (1 * 3 + 3) <> [].
Proof.
  assert (H1 : 0 <= 1) by lia. assert (H2 : 0 < 3) by lia.
  assert (E : total_pages (bookings busy_db) 3 = 2) by (vm_compute; reflexivity).
  destruct (total_pages_counts_the_pages (bookings busy_db) 1 3 H1 H2) as (H & _).
  split; [exact H1|]. split; [exact H2|]. split; [exact E|].
  apply H. rewrite E. lia.
Defined.

Lemma render_bookings_as_cards_writes_the_page_witness :
  reachable busy_db /\ 0 <= 1 /\ 0 < 3
  /\ snd (render_bookings_as_cards busy_db (bookings busy_db) 1 3) = Return tt
  /\ List.length (fst (render_bookings_as_cards busy_db (bookings busy_db) 1 3))
     = List.length (slice (bookings busy_db) (1 * 3) (1 * 3 + 3)).
Proof.
  assert (H1 : 0 <= 1) by lia. assert (H2 : 0 < 3) by lia.
  destruct (render_bookings_as_cards_writes_the_page busy_db (bookings busy_db) 1 3
              busy_db_reachable H1 H2) as (Hr & Hl & _).
  { assert (E : slice (bookings busy_db) (1 * 3) (1 * 3 + 3) = [Booking.mk 4 1 4 true])
      by (vm_compute; reflexivity).
    rewrite E. intros b [<-|[]].
    split; [vm_compute; do 3 right; left; reflexivity | vm_compute; discriminate]. }
  split; [exact busy_db_reachable|]. split; [exact H1|]. split; [exact H2|].
  split; [exact Hr | exact Hl].
Defined.

Lemma render_bookings_as_cards_stops_at_missing_user_witness :
  reachable stray_db
  /\ slice (bookings stray_db) (0 * 3) (0 * 3 + 3)
     = [Booking.mk 1 1 1 true] ++ Booking.mk 2 99 2 true :: [Booking.mk 3 1 3 true]
  /\ user_by_id stray_db 99 = None
  /\ snd (render_bookings_as_cards stray_db (bookings stray_db) 0 3)
     = Raise AttributeError
  /\ List.length (fst (render_bookings_as_cards stray_db (bookings stray_db) 0 3))
     = 1%nat.
Proof.
  assert (E : slice (bookings stray_db) (0 * 3) (0 * 3 + 3)
              = [Booking.mk 1 1 1 true] ++ Booking.mk 2 99 2 true :: [Booking.mk 3 1 3 true])
    by (vm_compute; reflexivity).
  assert (Hu : user_by_id stray_db 99 = None) by (vm_compute; reflexivity).
  destruct (render_bookings_as_cards_stops_at_missing_user stray_db (bookings stray_db)
              0 3 _ _ _ stray_db_reachable E) as (Hr & Hl).
  { intros b [<-|[]].
    split; [vm_compute; left; reflexivity | vm_compute; discriminate]. }
  { exact Hu. }
  split; [exact stray_db_reachable|]. split; [exact E|]. split; [exact Hu|].
  split; [exact Hr | exact Hl].
Defined.

Lemma cancel_a_booking_cancels_the_selection_witness :
  reachable booked_db
  /\ nth_error (bookings_of_user booked_db 1) 0 = Some (Booking.mk 1 1 11 true)
  /\ snd (cancel_a_booking booked_db 1 0) = Shown booking_cancelled
  /\ ~ In (Booking.mk 1 1 11 true)
         (bookings_of_user (fst (cancel_a_booking booked_db 1 0)) 1).
Proof.
  assert (E : nth_error (bookings_of_user booked_db 1) 0 = Some (Booking.mk 1 1 11 true))
    by (vm_compute; reflexivity).
  destruct (cancel_a_booking_cancels_the_selection booked_db 1 0 _ booked_db_reachable E)
    as (H1 & _ & H3 & _).
  split; [exact booked_db_reachable|]. split; [exact E|]. split; [exact H1 | exact H3].
Defined.

Lemma booking_is_listed_on_the_date_of_its_slot_witness :
  reachable booked_db
  /\ In (Booking.mk 1 1 11 true) (bookings booked_db)
  /\ exists slot,
       slot_by_id booked_db 11 = Some slot
       /\ Slot.availability slot = false
       /\ (In (Booking.mk 1 1 11 true) (bookings_on booked_db june_2)
           <-> june_2 = Slot.date slot).
Proof.
  assert (H : In (Booking.mk 1 1 11 true) (bookings booked_db))
    by (vm_compute; left; reflexivity).
  destruct (booking_is_listed_on_the_date_of_its_slot booked_db _ booked_db_reachable H)
    as (slot & H1 & H2 & H3).
  split; [exact booked_db_reachable|]. split; [exact H|].
  exists slot. split; [exact H1|]. split; [exact H2 | exact (H3 june_2)].
Defined.

Lemma bookings_are_confirmed_and_in_id_order_witness :
  reachable busy_db
  /\ StronglySorted Z.lt (map Booking.booking_id (bookings_of_user busy_db 1)).
Proof.
  split; [exact busy_db_reachable|].
  exact (proj1 (bookings_are_confirmed_and_in_id_order busy_db 1 busy_db_reachable)).
Defined.

Lemma user_lookups_find_the_user_witness :
  reachable example_db /\ In example_user (users example_db)
  /\ user_by_id example_db 1 = Some example_user
  /\ user_by_email example_db "a@x.org" = Some example_user.
Proof.
  assert (H : In example_user (users example_db)) by (vm_compute; left; reflexivity).
  destruct (user_lookups_find_the_user example_db example_user example_db_reachable H)
    as (H1 & H2 & _).
  split; [exact example_db_reachable|]. split; [exact H|]. split; [exact H1 | exact H2].
Defined.

Lemma book_a_slot_books_the_selection_witness :
  reachable example_db
  /\ User.role example_user = "user"%string
  /\ user_by_id example_db (User.user_id example_user) = Some example_user
  /\ NoDup [hour_10]
  /\ incl [hour_10]
       (filter Slot.availability (snd (get_available_slots example_db june_1)))
  /\ snd (book_a_slot example_db (Readable example_user) june_1
            (map slot_option [hour_10]))
     = Shown (booking_confirmed 1).
Proof.
  assert (Hr : User.role example_user = "user"%string) by reflexivity.
  assert (Hu : user_by_id example_db (User.user_id example_user) = Some example_user)
    by (vm_compute; reflexivity).
  assert (N : NoDup [hour_10]) by (constructor; [intros []|constructor]).
  assert (I : incl [hour_10]
                (filter Slot.availability (snd (get_available_slots example_db june_1)))).
  { intros s [<-|[]]. vm_compute. do 10 right. left. reflexivity. }
  destruct (book_a_slot_books_the_selection example_db june_1 [hour_10] example_user
              example_db_reachable Hr Hu N I) as (_ & _ & _ & H4 & _).
  split; [exact example_db_reachable|]. split; [exact Hr|]. split; [exact Hu|].
  split; [exact N|]. split; [exact I|]. rewrite H4. vm_compute. reflexivity.
Defined.

(** * More on generating slots and on booking *)

Lemma in_range (n : nat) (h : Z) : 0 <= h < Z.of_nat n -> In h (range n).
Proof.
  intros H. unfold range. apply in_map_iff. exists (Z.to_nat h).
  split; [lia|]. apply in_seq. lia.
Qed.

(** X23: once the slots of a date have been generated, "Create Slot" is
    refused on that date for every hour from 0 to 23: the slot exists
    already, and nothing changes. *)
Theorem create_slot_after_generation_is_refused
    (db : Database) (selected_date : date) (start_hour : Z) :
  slots_on db selected_date = [] -> 0 <= start_hour <= 23 ->
  let db' := fst (get_available_slots db selected_date) in
  create_slot db' selected_date start_hour = (db', Return false).
Proof.
  intros E Hh. unfold get_available_slots; cbn [fst].
  apply (create_slot_taken _ _ _
           (hourly_slot (next_rowid (slot_ids db)) selected_date start_hour));
    [exact Hh| |reflexivity|reflexivity].
  rewrite (generate_fresh_slots db selected_date E).
  apply in_or_app. right. apply in_map. apply in_range. cbn. lia.
Qed.

(** X24: generating the slots of a date touches nothing else: users and
    bookings stay, the slots of the table stay where they are at the
    head of the table, and the slots of every other date are the same
    list as before. *)
Theorem generate_slots_for_date_touches_only_the_date
    (db : Database) (selected_date other_date : date) :
  other_date <> selected_date ->
  let db' := generate_slots_for_date db selected_date in
  users db' = users db
  /\ bookings db' = bookings db
  /\ slots_on db' other_date = slots_on db other_date
  /\ exists added,
       slots db' = slots db ++ added
       /\ forall s, In s added -> Slot.date s = selected_date.
Proof.
  intros Hne. cbn zeta.
  destruct (generate_others db selected_date) as [Eu Eb].
  split; [exact Eu|]. split; [exact Eb|].
  destruct (slots_on db selected_date) as [|x l] eqn:E.
  - assert (Es : slots (generate_slots_for_date db selected_date)
                 = slots db
                   ++ map (hourly_slot (next_rowid (slot_ids db)) selected_date) (range 24))
      by now apply generate_fresh_slots.
    split.
    + assert (F : forall hs,
                 filter (fun s => date_eqb (Slot.date s) other_date)
                   (map (hourly_slot (next_rowid (slot_ids db)) selected_date) hs)
                 = []).
      { induction hs as [|h hs IH]; [reflexivity|].
        cbn [map filter hourly_slot Slot.date].
        destruct (date_eqb selected_date other_date) eqn:Ed; [|exact IH].
        apply date_eqb_eq in Ed. now destruct Hne. }
      unfold slots_on. now rewrite Es, filter_app, F, app_nil_r.
    + exists (map (hourly_slot (next_rowid (slot_ids db)) selected_date) (range 24)).
      split; [exact Es|]. intros s Hs. apply in_map_iff in Hs as (h & <- & _).
      reflexivity.
  - rewrite generate_noop by (rewrite E; discriminate).
    split; [reflexivity|]. exists []. split; [now rewrite app_nil_r | intros s []].
Qed.

(** X25: with a user id that no user has, [book_slot] raises as soon as
    one requested id is the id of an available slot: the loop books as
    for any user and the bookings are committed, each such slot with one
    more booking row and unavailable, and then the first notification
    raises [AttributeError]; no email is written and no list returned. *)
Theorem book_slot_unknown_user_books_then_raises
    (db : Database) (user_id : Z) (slot_ids : list Z) (sid : Z) :
  user_by_id db user_id = None ->
  In sid slot_ids -> available_slot db sid <> None ->
  let db' := fst (fst (book_slot db user_id slot_ids)) in
  snd (book_slot db user_id slot_ids) = Raise AttributeError
  /\ snd (fst (book_slot db user_id slot_ids)) = []
  /\ db' = fst (book_loop db user_id slot_ids)
  /\ references db' sid = S (references db sid)
  /\ available_slot db' sid = None.
Proof.
  intros Hu Hin Ha. cbn zeta.
  destruct (available_slot db sid) as [slot|] eqn:E; [clear Ha|now destruct Ha].
  rewrite book_slot_database.
  destruct (book_loop_requested user_id sid slot_ids db [] slot E Hin) as (H1 & H2 & H3).
  fold (book_loop db user_id slot_ids) in H1, H2, H3.
  assert (Hu' : user_by_id (fst (book_loop db user_id slot_ids)) user_id = None).
  { unfold user_by_id, book_loop. now rewrite book_loop_users. }
  unfold book_slot.
  destruct (book_loop db user_id slot_ids) as [db' ok]. cbn [fst snd] in *.
  destruct ok as [|s ok]; [discriminate|].
  rewrite (notify_all_missing db' user_id s ok Hu'). cbn [fst snd]. auto.
Qed.

Lemma create_slot_after_generation_is_refused_witness :
  slots_on example_db june_2 = [] /\ 0 <= 7 <= 23
  /\ snd (create_slot (fst (get_available_slots example_db june_2)) june_2 7)
     = Return false.
Proof.
  assert (E : slots_on example_db june_2 = []) by (vm_compute; reflexivity).
  assert (H : 0 <= 7 <= 23) by lia.
  split; [exact E|]. split; [exact H|].
  now rewrite (create_slot_after_generation_is_refused example_db june_2 7 E H).
Defined.

Lemma generate_slots_for_date_touches_only_the_date_witness :
  june_1 <> june_2
  /\ slots_on (generate_slots_for_date example_db june_2) june_1
     = slots_on example_db june_1.
Proof.
  assert (H : june_1 <> june_2) by discriminate.
  destruct (generate_slots_for_date_touches_only_the_date example_db june_2 june_1 H)
    as (_ & _ & H3 & _).
  split; [exact H | exact H3].
Defined.

Lemma book_slot_unknown_user_books_then_raises_witness :
  user_by_id example_db 99 = None
  /\ In 11 [3; 11] /\ available_slot example_db 11 <> None
  /\ snd (book_slot example_db 99 [3; 11]) = Raise AttributeError
  /\ references (fst (fst (book_slot example_db 99 [3; 11]))) 11
     = S (references example_db 11).
Proof.
  assert (Hu : user_by_id example_db 99 = None) by (vm_compute; reflexivity).
  assert (Hin : In 11 [3; 11]) by (right; left; reflexivity).
  assert (Ha : available_slot example_db 11 <> None) by (vm_compute; discriminate).
  destruct (book_slot_unknown_user_books_then_raises example_db 99 [3; 11] 11 Hu Hin Ha)
    as (H1 & _ & _ & H4 & _).
  split; [exact Hu|]. split; [exact Hin|]. split; [exact Ha|].
  split; [exact H1 | exact H4].
Defined.
